(** * The gazelle Python resolver ([gazelle/resolve.go]), embedded in Rocq

    The development follows the Go source function by function.  Strings are
    byte strings ([string]); Go maps are [gmap]s, whose iteration order the
    language leaves open and which is therefore an explicit oracle wherever the
    code ranges over a map; the [treeset] of dependency strings is a [gset];
    logging and [os.Exit] are part of the value a function returns.  Path
    handling assumes [filepath.Separator = '/'].  *)

From Stdlib Require Import ZArith Ascii String.
From stdpp Require Import gmap strings list fin_maps sorting.

Set Warnings "-register-all".

Local Open Scope Z_scope.
Local Open Scope stdpp_scope.

(** Go errors carry a message. *)
Definition error : Type := string.

(** ** Package [strings] of the Go library *)
Module GoStrings.

(** [strings.Split(s, sep)] for a one-byte separator. *)
Fixpoint Split (s : string) (sep : ascii) : list string :=
  match s with
  | "" => [""]
  | String a s' =>
      if decide (a = sep) then "" :: Split s' sep
      else match Split s' sep with
           | x :: xs => String a x :: xs
           | [] => [String a ""]
           end
  end.

(** [strings.Join(elems, sep)]. *)
Fixpoint Join (elems : list string) (sep : string) : string :=
  match elems with
  | [] => ""
  | [e] => e
  | e :: es => e +:+ sep +:+ Join es sep
  end.

(** [strings.HasPrefix(s, prefix)]. *)
Definition HasPrefix (s prefix : string) : bool := String.prefix prefix s.

(** [strings.HasSuffix(s, suffix)]. *)
Definition HasSuffix (s suffix : string) : bool :=
  let n := String.length s in
  let k := String.length suffix in
  (k <=? n)%nat && bool_decide (String.substring (n - k) k s = suffix).

(** [strings.TrimSuffix(s, suffix)]. *)
Definition TrimSuffix (s suffix : string) : string :=
  if HasSuffix s suffix
  then String.substring 0 (String.length s - String.length suffix) s
  else s.

(** [strings.ReplaceAll(s, old, new)] at a one-byte [old], which is how the
    resolver calls it. *)
Fixpoint ReplaceAll (s : string) (old : ascii) (new : string) : string :=
  match s with
  | "" => ""
  | String a s' =>
      if decide (a = old) then new +:+ ReplaceAll s' old new
      else String a (ReplaceAll s' old new)
  end.

Definition lowerByte (c : ascii) : ascii :=
  let n := N_of_ascii c in
  if ((65 <=? n) && (n <=? 90))%N then ascii_of_N (n + 32) else c.

(** A text of ASCII bytes only (no byte from [utf8.RuneSelf] on). *)
Fixpoint isASCII (s : string) : bool :=
  match s with
  | "" => true
  | String a s' => (N_of_ascii a <? 128)%N && isASCII s'
  end.

(** The letters [A]..[Z] are mapped, every other byte is kept. *)
Fixpoint lowerBytes (s : string) : string :=
  match s with
  | "" => ""
  | String a s' => String (lowerByte a) (lowerBytes s')
  end.

(** [strings.ToLower(s)]: a text of ASCII bytes only is mapped byte by byte;
    any other text is mapped rune by rune through the case tables of package
    [unicode] ([Map(unicode.ToLower, s)]), which is [mapToLower] here. *)
Definition ToLower (mapToLower : string → string) (s : string) : string :=
  if isASCII s then lowerBytes s else mapToLower s.

End GoStrings.

(** ** Packages [path] and [path/filepath] of the Go library *)
Module GoPath.

Definition Separator : ascii := "/"%char.

(** The element stack of [Clean]: [out] holds the elements kept so far, the
    last one first.  An empty element and [.] are dropped, [..] removes the
    element before it unless there is none (or it is itself [..]). *)
Fixpoint cleanElems (rooted : bool) (out segs : list string) : list string :=
  match segs with
  | [] => reverse out
  | seg :: rest =>
      if decide (seg = "" ∨ seg = ".") then cleanElems rooted out rest
      else if decide (seg = "..") then
        match out with
        | top :: out' =>
            if decide (top = "..") then cleanElems rooted (".." :: out) rest
            else cleanElems rooted out' rest
        | [] =>
            if rooted then cleanElems rooted [] rest
            else cleanElems rooted [".."] rest
        end
      else cleanElems rooted (seg :: out) rest
  end.

(** [path.Clean(path)], the shortest path equivalent to [path] by purely
    lexical processing. *)
Definition Clean (path : string) : string :=
  if decide (path = "") then "."
  else
    let rooted := GoStrings.HasPrefix path "/" in
    let body := GoStrings.Join (cleanElems rooted [] (GoStrings.Split path Separator)) "/" in
    if rooted then "/" +:+ body
    else if decide (body = "") then "." else body.

(** [path.Join(elem...)]: empty elements before the first non-empty one are
    ignored, the rest is joined with slashes and cleaned. *)
Fixpoint Join (elem : list string) : string :=
  match elem with
  | [] => ""
  | e :: es =>
      if decide (e = "") then Join es
      else Clean (GoStrings.Join elem "/")
  end.

(** [filepath.Dir(path)]: all but the last element of [path], cleaned. *)
Definition Dir (path : string) : string :=
  Clean (GoStrings.Join (removelast (GoStrings.Split path Separator) ++ [""]) "/").

Fixpoint dropEmpty (segs : list string) : list string :=
  match segs with
  | "" :: rest => dropEmpty rest
  | _ => segs
  end.

(** [filepath.Base(path)]: the last element of [path], trailing slashes
    removed first. *)
Definition Base (path : string) : string :=
  if decide (path = "") then "."
  else
    match dropEmpty (reverse (GoStrings.Split path Separator)) with
    | [] => "/"
    | seg :: _ => seg
    end.

Fixpoint fromLastDot (s : string) : string :=
  match s with
  | "" => ""
  | String a s' =>
      let r := fromLastDot s' in
      if decide (r = "") then (if decide (a = "."%char) then s else "") else r
  end.

(** [filepath.Ext(path)]: the suffix of the last element of [path] that
    starts at its final dot, empty when there is no dot. *)
Definition Ext (path : string) : string :=
  match reverse (GoStrings.Split path Separator) with
  | [] => ""
  | seg :: _ => fromLastDot seg
  end.

End GoPath.

(** The verb [%q] of package [fmt] on a string that needs no escaping: the
    string between double quotes. *)
Definition quote (s : string) : string :=
  String "034" (s +:+ String "034" "").

(** The verb [%q] on a [starlark.String] that needs no escaping: [fmt] takes
    the text of the value's [String] method, which is the string between
    double quotes already, and quotes that, escaping the two quotes. *)
Definition quoteString (s : string) : string :=
  quote (String "092" (String "034" (s +:+ String "092" (String "034" "")))).

(** ** Results, logging and early return

    A Go function here ends in one of four ways: it returns a value, it
    returns an error, it panics (a failed type assertion, an explicit
    [panic]), or it ends the process ([os.Exit], [log.Fatalf]).  What it
    prints or logs on the way is kept in order. *)
Inductive result (A : Type) : Type :=
  | Ok (a : A)
  | Err (e : error)
  | Panic (msg : string)
  | Exit (status : Z).
Arguments Ok {A} a.
Arguments Err {A} e.
Arguments Panic {A} msg.
Arguments Exit {A} status.

Definition M (A : Type) : Type := list string → list string * result A.

#[global] Instance M_ret : MRet M := λ A a out, (out, Ok a).
#[global] Instance M_bind : MBind M := λ A B k m out,
  match m out with
  | (out', Ok a) => k a out'
  | (out', Err e) => (out', Err e)
  | (out', Panic msg) => (out', Panic msg)
  | (out', Exit status) => (out', Exit status)
  end.

Definition fail {A} (e : error) : M A := λ out, (out, Err e).
Definition panic {A} (msg : string) : M A := λ out, (out, Panic msg).
Definition println (line : string) : M unit := λ out, (out ++ [line], Ok tt).

(** ** Starlark values ([go.starlark.net/starlark]) *)
Module starlark.

Inductive Value : Type :=
  | VNone
  | VBool (b : bool)
  | VInt (z : Z)
  | VString (s : string)
  | VList (elems : list Value)
  | VTuple (elems : list Value).

(** The Go type of a value, as the runtime names it in the message of a
    failed type assertion. *)
Definition typeName (v : Value) : string :=
  match v with
  | VNone => "starlark.NoneType"
  | VBool _ => "starlark.Bool"
  | VInt _ => "starlark.Int"
  | VString _ => "starlark.String"
  | VList _ => "*starlark.List"
  | VTuple _ => "starlark.Tuple"
  end.

(** [starlark.Int.Int64]: the value and whether it fits 64 signed bits. *)
Definition Int64 (z : Z) : Z * bool :=
  if (- 2 ^ 63 <=? z) && (z <? 2 ^ 63) then (z, true) else (0, false).

(** A built-in function: positional arguments and keyword arguments, the
    latter as (name, value) pairs in call order. *)
Definition Builtin : Type := list Value → list (string * Value) → M Value.

(** [starlark.StringDict], the environment of an evaluation. *)
Definition StringDict : Type := gmap string Builtin.

End starlark.
Export starlark (Value(..)).

(** ** Build-file expressions ([buildtools/build]) *)
Module bzl.

Inductive Expr : Type :=
  | StringExpr (Value : string)
  | ListExpr (List : list Expr)
  | Ident (Name : string)
  | LiteralExpr (Token : string)
  | CallExpr (X : Expr) (args : list Expr)
  | AssignExpr (LHS : Expr) (Op : string) (RHS : Expr)
  | BinaryExpr (X : Expr) (Op : string) (Y : Expr).

End bzl.
Export bzl (Expr(..)).

(** ** What the resolver takes from outside itself

    The file system is reached through [filepathx.Glob], [filepath.Rel] and
    [isBazelPackage] (the latter is defined next to this file, in the
    generator); the Go runtime chooses the order in which a [range] over a map
    visits its keys.  [rangeOrder pos keys] is that order for the map of the
    tree node at position [pos], given the keys in the listing order of
    [gmap]. *)
Module Host.

Record t : Type := {
  Glob : string → error + list string;
  Rel : string → string → error + string;
  isBazelPackage : string → bool;
  rangeOrder : list string → list string → list string;
}.

(** Every key of the map is visited exactly once. *)
Definition fair (h : t) : Prop :=
  ∀ pos keys, rangeOrder h pos keys ≡ₚ keys.

End Host.

(** ** The package tree *)

Inductive BazelPackageTree : Type := mkBazelPackageTree {
  pkg : string;
  branches : gmap string BazelPackageTree;
  isBazelPackage : bool;
  isFile : bool;
}.

Definition NewBazelPackageTree (pkg : string) : BazelPackageTree :=
  {| pkg := pkg; branches := ∅; isBazelPackage := false; isFile := false |}.

Section PackageTree.
Context (h : Host.t).

(** The body of the loop of [AddPath]: [rest] is what is left of [parts]
    from index [i] on, [branches] the map the loop variable points to.  A
    node that exists already is kept as it is, flags included. *)
Fixpoint addPathFrom (pkg0 : string) (parts : list string) (i : nat)
    (rest : list string) (branches0 : gmap string BazelPackageTree)
    : gmap string BazelPackageTree :=
  match rest with
  | [] => branches0
  | part :: rest' =>
      let branch :=
        match branches0 !! part with
        | Some branch => branch
        | None =>
            let isFile := bool_decide (i = (length parts - 1)%nat) in
            let isBazelPkg :=
              if isFile then false
              else
                let dir := GoPath.Join (take (i + 1) parts) in
                let dir := GoPath.Join [pkg0; dir] in
                Host.isBazelPackage h dir in
            {| pkg := pkg0; branches := ∅;
               isBazelPackage := isBazelPkg; isFile := isFile |}
        end in
      <[part := {| pkg := pkg branch;
                   branches := addPathFrom pkg0 parts (S i) rest' (branches branch);
                   isBazelPackage := isBazelPackage branch;
                   isFile := isFile branch |}]> branches0
  end.

(** [AddPath] adds a path to the package tree. *)
Definition AddPath (pt : BazelPackageTree) (parts : list string) : BazelPackageTree :=
  {| pkg := pkg pt;
     branches := addPathFrom (pkg pt) parts 0 parts (branches pt);
     isBazelPackage := isBazelPackage pt;
     isFile := isFile pt |}.

(** What one branch contributes to [Paths], given the paths of its subtree. *)
Definition branchPaths (part : string) (branch : BazelPackageTree)
    (below : list string) : list string :=
  if isBazelPackage branch then []
  else (if isFile branch then [part] else [])
         ++ ((λ branchPath, GoPath.Join [part; branchPath]) <$> below).

(** [Paths] returns the list of paths in the tree, filtering Bazel
    sub-packages.  [pos] is the position of [pt] in the whole tree; it only
    tells the runtime's order oracle which [range] statement this is. *)
Fixpoint PathsAt (pos : list string) (pt : BazelPackageTree) : list string :=
  let below :=
    map_imap (λ part branch,
      Some (branchPaths part branch (PathsAt (pos ++ [part]) branch)))
      (branches pt) in
  Host.rangeOrder h pos (map_to_list (branches pt)).*1
    ≫= λ part, default [] (below !! part).

Definition Paths (pt : BazelPackageTree) : list string := PathsAt [] pt.

End PackageTree.

(** ** The glob built-in *)
Module Globber.
Record t : Type := { repoRoot : string; pkg : string }.
End Globber.

Section Glob.
Context (h : Host.t).

(** [filepath.Rel] with its error dropped ([src, _ := filepath.Rel(...)]):
    the string is empty when there is an error. *)
Definition relOrEmpty (basepath targpath : string) : string :=
  match Host.Rel h basepath targpath with
  | inr rel => rel
  | inl _ => ""
  end.

(** The loop over [kwargs]. *)
Fixpoint globKwargs (kwargs : list (string * Value))
    (includeArg excludeArg : option Value) (allowEmpty : bool)
    : M (option Value * option Value * bool) :=
  match kwargs with
  | [] => mret (includeArg, excludeArg, allowEmpty)
  | (name, arg) :: rest =>
      if decide (name = "include") then
        match includeArg with
        | Some _ =>
            fail "failed glob: invalid syntax: cannot use include as kwarg and arg"
        | None => globKwargs rest (Some arg) excludeArg allowEmpty
        end
      else if decide (name = "exclude") then
        globKwargs rest includeArg (Some arg) allowEmpty
      else if decide (name = "exclude_directories") then
        match arg with
        | VInt excludeDirectoriesInt =>
            let '(excludeDirectories, ok) := starlark.Int64 excludeDirectoriesInt in
            if negb ok || (negb (excludeDirectories =? 0) && negb (excludeDirectories =? 1))
            then fail "failed glob: invalid syntax: exclude_directories must be 0 or 1"
            else
              println "WARNING: the 'exclude_directories' attribute of 'glob' was set but is not supported by Gazelle";;
              globKwargs rest includeArg excludeArg allowEmpty
        | _ => fail "failed glob: invalid syntax: exclude_directories must be 0 or 1"
        end
      else if decide (name = "allow_empty") then
        match arg with
        | VBool allowEmptyAssert => globKwargs rest includeArg excludeArg allowEmptyAssert
        | _ => fail "failed glob: invalid syntax: allow_empty must be a boolean"
        end
      else fail ("failed glob: invalid syntax: kwarg " +:+ quoteString name
                 +:+ " not recognized")
  end.

(** The loop over the exclude patterns. *)
Fixpoint excludeLoop (absPkg : string) (patterns : list Value)
    (excludeSet : gset string) : M (gset string) :=
  match patterns with
  | [] => mret excludeSet
  | VString excludePattern :: rest =>
      let absPattern := GoPath.Join [absPkg; excludePattern] in
      match Host.Glob h absPattern with
      | inl err => fail ("failed glob: " +:+ err)
      | inr matches =>
          excludeLoop absPkg rest
            (foldl (λ set match_, {[ relOrEmpty absPkg match_ ]} ∪ set) excludeSet matches)
      end
  | _ :: _ => fail "failed glob: exclude pattern must be a string"
  end.

(** The inner loop of the include patterns, over the matches of one. *)
Definition includeMatches (absPkg : string) (excludeSet : gset string)
    (tree : BazelPackageTree) (matches : list string) : BazelPackageTree :=
  foldl (λ tree match_,
    let src := relOrEmpty absPkg match_ in
    if decide (src ∈ excludeSet) then tree
    else AddPath h tree (GoStrings.Split src GoPath.Separator))
    tree matches.

(** The loop over the include patterns. *)
Fixpoint includeLoop (absPkg : string) (excludeSet : gset string)
    (patterns : list Value) (tree : BazelPackageTree) : M BazelPackageTree :=
  match patterns with
  | [] => mret tree
  | VString includePattern :: rest =>
      let absPattern := GoPath.Join [absPkg; includePattern] in
      match Host.Glob h absPattern with
      | inl err => fail ("failed glob: " +:+ err)
      | inr matches =>
          includeLoop absPkg excludeSet rest (includeMatches absPkg excludeSet tree matches)
      end
  | _ :: _ => fail "failed glob: include pattern must be a string"
  end.

(** [Glob] expands the glob patterns and filters Bazel sub-packages from the
    tree. *)
Definition Glob (g : Globber.t) : starlark.Builtin := λ args kwargs,
  if decide (1 < length args)%nat
  then fail "failed glob: only 1 positional argument is allowed"
  else
    let absPkg := GoPath.Join [Globber.repoRoot g; Globber.pkg g] in
    '(includeArg, excludeArg, allowEmpty) ← globKwargs kwargs (head args) None true;
    excludeSet ←
      match excludeArg with
      | None => mret ∅
      | Some (VList excludePatterns) => excludeLoop absPkg excludePatterns ∅
      | Some _ => fail "failed glob: exclude is not a list"
      end;
    let rootBazelPackageTree := NewBazelPackageTree (Globber.pkg g) in
    match includeArg with
    | Some (VList includePatterns) =>
        tree ← includeLoop absPkg excludeSet includePatterns rootBazelPackageTree;
        let result := Paths h tree in
        if negb allowEmpty && bool_decide (length result = 0%nat)
        then fail "failed glob: 'allow_empty' was set and the result was empty"
        else mret (VList (VString <$> result))
    | _ => fail "failed glob: include is not a list"
    end.

End Glob.

(** ** The Starlark interpreter

    [bzl.FormatString], [syntax.ParseExpr] and [starlark.EvalExpr] belong to
    libraries; the resolver only hands them the expression and the
    environment. *)
Module Interp.

Record t : Type := {
  SyntaxExpr : Type;
  FormatString : Expr → string;
  ParseExpr : string → error + SyntaxExpr;
  EvalExpr : SyntaxExpr → starlark.StringDict → M Value;
}.

End Interp.

Section Eval.
Context (h : Host.t) (vm : Interp.t).

(** The string elements of a list expression, in order. *)
Definition stringExprs (elems : list Expr) : list string :=
  omap (λ e, match e with StringExpr str => Some str | _ => None end) elems.

(** The final loop of [evalSrcsExpr]: every element must be a string. *)
Fixpoint stringValues (vals : list Value) (srcs : list string) : M (list string) :=
  match vals with
  | [] => mret srcs
  | VString src :: rest => stringValues rest (srcs ++ [src])
  | srcVal :: _ =>
      panic ("interface conversion: starlark.Value is " +:+ starlark.typeName srcVal
               +:+ ", not starlark.String")
  end.

(** [evalSrcsExpr] returns the list of files in the srcs attribute. *)
Definition evalSrcsExpr (repoRoot pkg : string) (expr : Expr) : M (list string) :=
  match expr with
  | ListExpr elems => mret (stringExprs elems)
  | _ =>
      let globber := {| Globber.repoRoot := repoRoot; Globber.pkg := pkg |} in
      let env : starlark.StringDict := {[ "glob" := Glob h globber ]} in
      match Interp.ParseExpr vm (Interp.FormatString vm expr) with
      | inl err => fail ("failed to eval srcs expression: " +:+ err)
      | inr srcsSyntaxExpr =>
          λ out,
            match Interp.EvalExpr vm srcsSyntaxExpr env out with
            | (out', Err err) =>
                (out' ++ ["WARNING: failed to eval srcs expression: " +:+ err], Ok [])
            | (out', Ok (VList srcsValList)) => stringValues srcsValList [] out'
            | (out', Ok srcsVal) =>
                (out', Panic ("interface conversion: starlark.Value is "
                                +:+ starlark.typeName srcsVal +:+ ", not *starlark.List"))
            | (out', Panic msg) => (out', Panic msg)
            | (out', Exit status) => (out', Exit status)
            end
      end
  end.

End Eval.

(** ** Labels and the rule index ([bazel-gazelle/label], [bazel-gazelle/resolve]) *)
Module label.

Record Label : Type := {
  Repo : string;
  Pkg : string;
  Name : string;
  Relative : bool;
}.

Definition New (repo pkg name : string) : Label :=
  {| Repo := repo; Pkg := pkg; Name := name; Relative := false |}.

(** [Label.Rel]: the label made relative to a repository and a package. *)
Definition Rel (l : Label) (repo pkg : string) : Label :=
  if Relative l || negb (bool_decide (Repo l = repo)) then l
  else if decide (Pkg l = pkg)
  then {| Repo := ""; Pkg := ""; Name := Name l; Relative := true |}
  else {| Repo := ""; Pkg := Pkg l; Name := Name l; Relative := false |}.

Definition Equal (l other : Label) : bool :=
  bool_decide (Repo l = Repo other) && bool_decide (Pkg l = Pkg other)
  && bool_decide (Name l = Name other) && bool_decide (Relative l = Relative other).

(** [Label.String]. *)
Definition String (l : Label) : string :=
  if Relative l then ":" +:+ Name l
  else
    let repo :=
      if negb (bool_decide (Repo l = "")) && negb (bool_decide (Repo l = "@"))
      then "@" +:+ Repo l else Repo l in
    if decide (GoPath.Base (Pkg l) = Name l)
    then repo +:+ "//" +:+ Pkg l
    else repo +:+ "//" +:+ Pkg l +:+ ":" +:+ Name l.

Definition withRepo (l : Label) (repo : string) : Label :=
  {| Repo := repo; Pkg := Pkg l; Name := Name l; Relative := Relative l |}.

End label.

Module resolve.

Record ImportSpec : Type := { Lang : string; Imp : string }.

Record FindResult : Type := {
  Label : label.Label;
  Embeds : list label.Label;
}.

(** [FindResult.IsSelfImport]: the result is the rule [from] itself, or a
    rule that embeds it. *)
Definition IsSelfImport (r : FindResult) (from : label.Label) : bool :=
  label.Equal from (Label r)
  || existsb (λ e, label.Equal from e) (Embeds r).

End resolve.

Definition languageName : string := "py".

(** Modelled from the spec: the constant [pyLibraryEntrypointFilename] is
    declared in the generator, next to this file; the spec's entrypoint file
    is [sub/__init__.py]. *)
Definition pyLibraryEntrypointFilename : string := "__init__.py".

(** ** Rules

    Of a [rule.Rule] the resolver reads the attributes [srcs] and [imports]
    and two private attributes, and writes [deps].  The dynamic type
    assertions of the source on the private attributes are the types of
    the fields. *)
Module rule.

Record Rule : Type := {
  Name : string;
  srcs : option Expr;
  imports : list string;
  uuid : option string;
  resolvedDeps : gset string;
  deps : option Expr;
}.

Definition SetDeps (r : Rule) (e : Expr) : Rule :=
  {| Name := Name r; srcs := srcs r; imports := imports r; uuid := uuid r;
     resolvedDeps := resolvedDeps r; deps := Some e |}.

End rule.

Section Imports.
Context (h : Host.t) (vm : Interp.t).

(** [importSpecFromSrc] determines the ImportSpec based on the target that
    contains the src. *)
Definition importSpecFromSrc (pythonProjectRoot bzlPkg src : string)
    : M resolve.ImportSpec :=
  let pythonPkgDir := GoPath.Join [bzlPkg; GoPath.Dir src] in
  match Host.Rel h pythonProjectRoot pythonPkgDir with
  | inl err => panic ("unexpected failure: " +:+ err)
  | inr relPythonPkgDir =>
      let relPythonPkgDir :=
        if decide (relPythonPkgDir = ".") then "" else relPythonPkgDir in
      let pythonPkg := GoStrings.ReplaceAll relPythonPkgDir "/" "." in
      let filename := GoPath.Base src in
      let fromModuleName :=
        let moduleName := GoStrings.TrimSuffix filename ".py" in
        let imp :=
          if decide (pythonPkg = "") then moduleName
          else pythonPkg +:+ "." +:+ moduleName in
        {| resolve.Lang := languageName; resolve.Imp := imp |} in
      if decide (filename = pyLibraryEntrypointFilename) then
        if decide (pythonPkg ≠ "")
        then mret {| resolve.Lang := languageName; resolve.Imp := pythonPkg |}
        else mret fromModuleName
      else mret fromModuleName
  end.

(** The inner loop of [Imports], over the import roots of the rule. *)
Fixpoint providesOfSrc (fPkg src : string) (imports : list string)
    (provides : list resolve.ImportSpec) : M (list resolve.ImportSpec) :=
  match imports with
  | [] => mret provides
  | imp :: rest =>
      let pythonpath := GoPath.Clean (GoPath.Join [fPkg; imp]) in
      provide ← importSpecFromSrc pythonpath fPkg src;
      providesOfSrc fPkg src rest (provides ++ [provide])
  end.

(** The outer loop of [Imports], over the source files. *)
Fixpoint providesOfSrcs (fPkg : string) (srcs imports : list string)
    (provides : list resolve.ImportSpec) : M (list resolve.ImportSpec) :=
  match srcs with
  | [] => mret provides
  | src :: rest =>
      let ext := GoPath.Ext src in
      provides ←
        (if decide (ext = ".py") then providesOfSrc fPkg src imports provides
         else mret provides);
      providesOfSrcs fPkg rest imports provides
  end.

(** [Imports] returns the ImportSpecs that can be used to import the rule:
    [None] is Go's nil slice (the rule is not indexed). *)
Definition Imports (repoRoot : string) (r : rule.Rule) (fPkg : string)
    : M (option (list resolve.ImportSpec)) :=
  match rule.srcs r with
  | None => mret None
  | Some srcsAttr =>
      λ out,
        match evalSrcsExpr h vm repoRoot fPkg srcsAttr out with
        | (out', Err err) =>
            (out' ++ ["failed to process imports for " +:+ quote (rule.Name r)
                        +:+ " in " +:+ quote fPkg +:+ ": " +:+ err], Exit 1)
        | (out', Panic msg) => (out', Panic msg)
        | (out', Exit status) => (out', Exit status)
        | (out', Ok srcs) =>
            let imports :=
              if decide (length (rule.imports r) = 0%nat) then [""]
              else rule.imports r in
            (provides ← providesOfSrcs fPkg srcs imports [];
             let provides :=
               match rule.uuid r with
               | Some uuid =>
                   provides ++ [{| resolve.Lang := languageName; resolve.Imp := uuid |}]
               | None => provides
               end in
             if decide (length provides = 0%nat) then mret None
             else mret (Some provides)) out'
        end
  end.

End Imports.

(** ** Resolution of imports into dependencies *)

(** One import statement, as the parser of the generator records it. *)
Record module : Type := {
  Name : string;
  Filepath : string;
  LineNumber : Z;
}.

Module pythonconfig.

Record Config : Type := {
  PythonProjectRoot : string;
  PipRepository : string;
  ModulesMapping : gmap string string;
  ValidateImportStatements : bool;
}.

End pythonconfig.

(** What [Resolve] asks of its collaborators: the [gazelle:resolve]
    directives, the rule index, the standard-library test of the generator,
    the environment variable [EXPLAIN_DEPENDENCY], and the case tables of
    package [unicode], by which [strings.ToLower] maps a text that is not
    ASCII ([Map(unicode.ToLower, s)]). *)
Module Index.

Record t : Type := {
  FindRuleWithOverride : resolve.ImportSpec → string → option label.Label;
  FindRulesByImportWithConfig : resolve.ImportSpec → string → list resolve.FindResult;
  isStdModule : module → error + bool;
  explainDependency : string;
  mapToLower : string → string;
}.

End Index.

(** The lines [Resolve] logs, each with the arguments of its format string. *)
Inductive Diagnostic : Type :=
  (** "Explaining dependency (%s): in the target %q, the file %q imports %q at
      line %d, which resolves using the gazelle:resolve directive." *)
  | ExplainOverride (dep : string) (from : label.Label) (mod_ : module)
  (** "... which resolves from the third-party module %q from the wheel %q." *)
  | ExplainThirdParty (dep : string) (from : label.Label) (mod_ : module)
      (distribution : string)
  (** "... which resolves from the first-party indexed labels." *)
  | ExplainFirstParty (dep : string) (from : label.Label) (mod_ : module)
  (** "ERROR: " followed by the error of [isStdModule]. *)
  | StdModuleError (err : error)
  (** "ERROR: failed to validate dependencies for target %q: %q at line %d
      from %q is an invalid dependency: possible solutions: ..." *)
  | InvalidDependency (from : label.Label) (mod_ : module)
  (** "ERROR: multiple targets (%s) may be imported with %q at line %d in %q -
      this must be fixed using the gazelle:resolve directive" *)
  | AmbiguousImport (targets : string) (mod_ : module).

(** [rulesPythonDistributionPackage] builds a token that mimics how the
    rules_python does it for the generated requirement function. *)
Definition rulesPythonDistributionPackage (mapToLower : string → string)
    (distribution : string) : string :=
  let sanitizedDistribution := GoStrings.ToLower mapToLower distribution in
  let sanitizedDistribution := GoStrings.ReplaceAll sanitizedDistribution "-" "_" in
  "pypi__" +:+ sanitizedDistribution.

(** [targetListFromResults] returns a string with the human-readable list of
    targets contained in the given results. *)
Definition targetListFromResults (results : list resolve.FindResult) : string :=
  GoStrings.Join ((λ result, label.String (resolve.Label result)) <$> results) ", ".

(** [convertDependencySetToExpr] converts the given set of dependencies to an
    expression to be used in the deps attribute; the tree set iterates in the
    order of its string comparator. *)
Definition convertDependencySetToExpr (set : gset string) : Expr :=
  ListExpr (StringExpr <$> merge_sort String.le (elements set)).

(** The variables of the module loop of [Resolve]. *)
Record loopState : Type := {
  deps : gset string;
  hasFatalError : bool;
  logged : list Diagnostic;
}.

Section Resolver.
Context (ix : Index.t) (cfg : pythonconfig.Config).

(** [deps.Add(dep)] and the explanation that follows it. *)
Definition addDep (st : loopState) (dep : string) (explanation : Diagnostic)
    : loopState :=
  {| deps := {[ dep ]} ∪ deps st;
     hasFatalError := hasFatalError st;
     logged := logged st ++
       (if decide (Index.explainDependency ix = dep) then [explanation] else []) |}.

(** An error is logged and [hasFatalError] is set. *)
Definition fatalError (st : loopState) (line : Diagnostic) : loopState :=
  {| deps := deps st; hasFatalError := true; logged := logged st ++ [line] |}.

(** The block under [len(matches) == 0].  [Some st'] stands for
    [continue MODULE_LOOP] in state [st'], [None] for falling through. *)
Definition noMatches (from : label.Label) (st : loopState) (mod_ : module)
    : option loopState :=
  match Index.isStdModule ix mod_ with
  | inl err => Some (fatalError st (StdModuleError err))
  | inr true => Some st
  | inr false =>
      if pythonconfig.ValidateImportStatements cfg
      then Some (fatalError st (InvalidDependency from mod_))
      else None
  end.

(** The loop that fills [filteredMatches]: [None] stands for
    [continue MODULE_LOOP], taken at the first match that is a self-import. *)
Fixpoint filterMatches (from : label.Label) (matches : list resolve.FindResult)
    (filteredMatches : list resolve.FindResult) : option (list resolve.FindResult) :=
  match matches with
  | [] => Some filteredMatches
  | match_ :: rest =>
      if resolve.IsSelfImport match_ from then None
      else filterMatches from rest (filteredMatches ++ [match_])
  end.

(** The loop that fills [sameRootMatches]. *)
Definition sameRoot (filteredMatches : list resolve.FindResult)
    : list resolve.FindResult :=
  filter (λ match_,
    GoStrings.HasPrefix (label.Pkg (resolve.Label match_))
      (pythonconfig.PythonProjectRoot cfg) = true) filteredMatches.

(** The first-party branch of the loop body, from the index lookup on. *)
Definition firstParty (from : label.Label) (st : loopState) (mod_ : module)
    (matches : list resolve.FindResult) : loopState :=
  match (if decide (length matches = 0%nat) then noMatches from st mod_ else None) with
  | Some st' => st'
  | None =>
      match filterMatches from matches [] with
      | None => st
      | Some filteredMatches =>
          if decide (length filteredMatches = 0%nat) then st
          else
            let narrowed :=
              if decide (1 < length filteredMatches)%nat then
                let sameRootMatches := sameRoot filteredMatches in
                if decide (length sameRootMatches ≠ 1%nat) then None
                else Some sameRootMatches
              else Some filteredMatches in
            match narrowed with
            | None =>
                fatalError st
                  (AmbiguousImport (targetListFromResults filteredMatches) mod_)
            | Some [] => st
            | Some (first :: _) =>
                let matchLabel :=
                  label.Rel (resolve.Label first) (label.Repo from) (label.Pkg from) in
                let dep := label.String matchLabel in
                addDep st dep (ExplainFirstParty dep from mod_)
            end
      end
  end.

(** The body of [MODULE_LOOP]. *)
Definition resolveModule (from : label.Label) (st : loopState) (mod_ : module)
    : loopState :=
  let imp := {| resolve.Lang := languageName; resolve.Imp := Name mod_ |} in
  match Index.FindRuleWithOverride ix imp languageName with
  | Some override =>
      let override :=
        if decide (label.Repo override = "")
        then label.withRepo override (label.Repo from) else override in
      if negb (label.Equal override from) then
        let override :=
          if decide (label.Repo override = label.Repo from)
          then label.withRepo override "" else override in
        let dep := label.String override in
        addDep st dep (ExplainOverride dep from mod_)
      else st
  | None =>
      match pythonconfig.ModulesMapping cfg !! Name mod_ with
      | Some distribution =>
          let distributionPackage :=
            rulesPythonDistributionPackage (Index.mapToLower ix) distribution in
          let dep :=
            label.String
              (label.New (pythonconfig.PipRepository cfg) distributionPackage
                 distributionPackage) in
          addDep st dep (ExplainThirdParty dep from mod_ distribution)
      | None =>
          firstParty from st mod_ (Index.FindRulesByImportWithConfig ix imp languageName)
      end
  end.

(** [MODULE_LOOP], over the modules in the order of the iterator. *)
Definition moduleLoop (from : label.Label) (st : loopState) (modules : list module)
    : loopState :=
  foldl (resolveModule from) st modules.

(** The end of [Resolve]: the dependencies resolved in advance are added and
    the attribute is set unless the set is empty. *)
Definition finishDeps (r : rule.Rule) (deps0 : gset string) : rule.Rule :=
  let deps1 := deps0 ∪ rule.resolvedDeps r in
  if decide (deps1 = ∅) then r
  else rule.SetDeps r (convertDependencySetToExpr deps1).

(** [Resolve] translates imported libraries for a given rule into Bazel
    dependencies.  [modulesRaw] is [None] for Go's nil; the result is what
    was logged and either the rule as [Resolve] leaves it or the status of
    [os.Exit]. *)
Definition Resolve (r : rule.Rule) (modulesRaw : option (list module))
    (from : label.Label) : list Diagnostic * result rule.Rule :=
  match modulesRaw with
  | Some modules =>
      let st := moduleLoop from
                  {| deps := ∅; hasFatalError := false; logged := [] |} modules in
      if hasFatalError st then (logged st, Exit 1)
      else (logged st, Ok (finishDeps r (deps st)))
  | None => ([], Ok (finishDeps r ∅))
  end.

End Resolver.

(** * Specification-level notions and the examples *)

Definition isStringExpr (e : Expr) : bool :=
  match e with StringExpr _ => true | _ => false end.

Definition isListExpr (e : Expr) : bool :=
  match e with ListExpr _ => true | _ => false end.

(** In the words of the specification: the values of the string elements of a
    literal list, in list order. *)
Definition literalStrings (elems : list Expr) : list string :=
  (λ e, match e with StringExpr value => value | _ => "" end)
    <$> filter (λ e, isStringExpr e = true) elems.

(** The environment [evalSrcsExpr] evaluates in. *)
Definition srcsEnv (h : Host.t) (repoRoot pkg0 : string) : starlark.StringDict :=
  {[ "glob" := Glob h {| Globber.repoRoot := repoRoot; Globber.pkg := pkg0 |} ]}.

(** The package prefix [importSpecFromSrc] derives from a relative directory. *)
Definition pythonPkgOf (relPythonPkgDir : string) : string :=
  GoStrings.ReplaceAll
    (if decide (relPythonPkgDir = ".") then "" else relPythonPkgDir) "/" ".".

(** The import spec [Resolve] looks a module up by. *)
Definition importOf (mod_ : module) : resolve.ImportSpec :=
  {| resolve.Lang := languageName; resolve.Imp := Name mod_ |}.

(** Whether some match of the index is a self-import. *)
Definition hasSelfImport (from : label.Label) (matches : list resolve.FindResult) : bool :=
  existsb (λ match_, resolve.IsSelfImport match_ from) matches.

Section FatalConditions.
Context (ix : Index.t) (cfg : pythonconfig.Config) (from : label.Label).

(** A module reaches the first-party index: no directive and no
    distribution is recorded for it. *)
Definition reachesIndex (mod_ : module) : bool :=
  bool_decide (Index.FindRuleWithOverride ix (importOf mod_) languageName = None)
  && bool_decide (pythonconfig.ModulesMapping cfg !! Name mod_ = None).

Definition matchesOf (mod_ : module) : list resolve.FindResult :=
  Index.FindRulesByImportWithConfig ix (importOf mod_) languageName.

(** The standard-library test itself fails for an unmatched module. *)
Definition stdModuleFails (mod_ : module) : bool :=
  reachesIndex mod_ && bool_decide (matchesOf mod_ = [])
  && match Index.isStdModule ix mod_ with inl _ => true | inr _ => false end.

(** An unmatched module outside the standard library, under strict
    validation. *)
Definition invalidUnderValidation (mod_ : module) : bool :=
  reachesIndex mod_ && bool_decide (matchesOf mod_ = [])
  && bool_decide (Index.isStdModule ix mod_ = inr false)
  && pythonconfig.ValidateImportStatements cfg.

(** Several first-party candidates, not exactly one of them under the
    project root. *)
Definition ambiguousFirstParty (mod_ : module) : bool :=
  reachesIndex mod_ && negb (hasSelfImport from (matchesOf mod_))
  && bool_decide (1 < length (matchesOf mod_))%nat
  && negb (bool_decide (length (sameRoot cfg (matchesOf mod_)) = 1%nat)).

Definition fatalModule (mod_ : module) : bool :=
  stdModuleFails mod_ || invalidUnderValidation mod_ || ambiguousFirstParty mod_.

(** The line a fatal module leaves in the log. *)
Definition fatalLine (mod_ : module) : Diagnostic :=
  if ambiguousFirstParty mod_
  then AmbiguousImport (targetListFromResults (matchesOf mod_)) mod_
  else match Index.isStdModule ix mod_ with
       | inl err => StdModuleError err
       | inr _ => InvalidDependency from mod_
       end.
End FatalConditions.

(** The number of nodes of a tree, the measure of the induction on trees. *)
Fixpoint nodes (pt : BazelPackageTree) : nat :=
  S (map_fold (λ _ branch n, nodes branch + n)%nat 0%nat (branches pt)).

(** An ordinary path element: it holds no separator and is neither empty nor
    one of the two special names. *)
Definition isPlain (part : string) : bool :=
  bool_decide (GoStrings.Split part GoPath.Separator = [part])
  && bool_decide (part ∉ [""; "."; ".."]).

(** A slash-separated path all of whose elements are ordinary. *)
Definition wfPath (s : string) : Prop :=
  Forall (λ part, isPlain part = true) (GoStrings.Split s GoPath.Separator).



(** The way along [parts] ends at a node that is marked as a file and passes
    through no node that is marked as a package, the end included. *)
Fixpoint reported (pt : BazelPackageTree) (parts : list string) : bool :=
  match parts with
  | [] => false
  | part :: rest =>
      match branches pt !! part with
      | Some branch =>
          negb (isBazelPackage branch)
          && match rest with
             | [] => isFile branch
             | _ :: _ => reported branch rest
             end
      | None => false
      end
  end.

(** All the names in a tree are ordinary. *)
Inductive plainTree : BazelPackageTree → Prop :=
  | plainTree_branches (pt : BazelPackageTree) :
      (∀ part branch, branches pt !! part = Some branch → isPlain part = true) →
      (∀ part branch, branches pt !! part = Some branch → plainTree branch) →
      plainTree pt.

(** The directory [AddPath] tests for a build file when it makes the node at
    position [pos] of the tree of the package [pkg0]. *)
Definition dirOf (pkg0 : string) (pos : list string) : string :=
  GoPath.Join [pkg0; GoPath.Join pos].

(** The marks of the node at position [pos] and of all nodes below it are those
    [AddPath] gives: a node made as a leaf is the end of an added path and is
    not marked as a package; a node made as a directory is marked as a package
    exactly when its directory holds a build file. *)
Inductive markedRight (h : Host.t) (pkg0 : string) (inserted : list (list string))
    : list string → BazelPackageTree → Prop :=
  | markedRight_node (pos : list string) (node : BazelPackageTree) :
      (isFile node = true → isBazelPackage node = false ∧ pos ∈ inserted) →
      (isFile node = false →
         isBazelPackage node = Host.isBazelPackage h (dirOf pkg0 pos)) →
      (∀ part branch, branches node !! part = Some branch →
         markedRight h pkg0 inserted (pos ++ [part]) branch) →
      markedRight h pkg0 inserted pos node.

(** ** Examples *)

Fixpoint dropPrefix (base target : string) : option string :=
  match base, target with
  | "", _ => Some target
  | String a base', String b target' =>
      if decide (a = b) then dropPrefix base' target' else None
  | String _ _, "" => None
  end.

(** [filepath.Rel] for a target below the base, which is all the examples
    need; anything else is an error here. *)
Definition relBelow (basepath targpath : string) : error + string :=
  if decide (basepath = targpath) then inr "."
  else if decide (basepath = "" ∨ basepath = ".") then inr targpath
  else match dropPrefix (basepath +:+ "/") targpath with
       | Some rel => inr rel
       | None => inl "Rel: can't make relative"
       end.

(** A file system for the examples: the package [pkg] of the repository at
    [/repo] holds [a.py], [b.py] and the sub-package [sub] with [c.py].  With
    [rev] the runtime ranges over every map in the opposite order. *)
Definition exHost (rev : bool) : Host.t :=
  {| Host.Glob := λ pattern,
       if decide (pattern = "/repo/pkg/*.py") then inr ["/repo/pkg/a.py"; "/repo/pkg/b.py"]
       else if decide (pattern = "/repo/pkg/a*") then inr ["/repo/pkg/a.py"]
       else if decide (pattern = "/repo/pkg/*") then inr ["/repo/pkg/a.py"; "/repo/pkg/b.py"; "/repo/pkg/sub"]
       else if decide (pattern = "/repo/pkg/sub/*.py") then inr ["/repo/pkg/sub/c.py"]
       else if decide (pattern = "/repo/pkg/[") then inl "syntax error in pattern"
       else inr [];
     Host.Rel := relBelow;
     Host.isBazelPackage := λ dir, bool_decide (dir = "pkg/sub");
     Host.rangeOrder := λ _ keys, if rev then reverse keys else keys |}.

(** An interpreter for the examples.  It knows one expression, the call
    [glob(1)], whatever the text, and rejects the text [glob(]. *)
Definition exInterp : Interp.t :=
  {| Interp.SyntaxExpr := string;
     Interp.FormatString := λ e, match e with Ident name => name | _ => "glob(1)" end;
     Interp.ParseExpr := λ text,
       if decide (text = "glob(") then inl "got end of file, want ')'" else inr text;
     Interp.EvalExpr := λ _ env,
       match env !! "glob" with
       | Some glob => glob [VInt 1] []
       | None => fail "undefined: glob"
       end |}.

Definition exGlobber : Globber.t :=
  {| Globber.repoRoot := "/repo"; Globber.pkg := "pkg" |}.

(** A library rule of the package [pkg] whose only source is the entrypoint
    file of [pkg/sub]. *)
Definition exInitRule : rule.Rule :=
  {| rule.Name := "sub"; rule.srcs := Some (ListExpr [StringExpr "sub/__init__.py"]);
     rule.imports := []; rule.uuid := None; rule.resolvedDeps := ∅;
     rule.deps := None |}.

(** A workspace for the examples: the rule [//app:app] imports modules that
    the index knows under several labels. *)
Definition exFrom : label.Label := label.New "" "app" "app".

Definition exLib (pkg0 : string) : resolve.FindResult :=
  {| resolve.Label := label.New "" pkg0 "lib"; resolve.Embeds := [] |}.

Definition exSelf : resolve.FindResult :=
  {| resolve.Label := exFrom; resolve.Embeds := [] |}.

Definition exConfig (validate : bool) : pythonconfig.Config :=
  {| pythonconfig.PythonProjectRoot := "a";
     pythonconfig.PipRepository := "pip";
     pythonconfig.ModulesMapping := {[ "numpy" := "Numpy"; "yaml" := "PyYAML-Extra" ]};
     pythonconfig.ValidateImportStatements := validate |}.

Definition exIndex : Index.t :=
  {| Index.FindRuleWithOverride := λ imp _,
       if decide (resolve.Imp imp = "over") then Some (label.New "" "libs/util" "util")
       else if decide (resolve.Imp imp = "numpy.linalg") then Some (label.New "" "vendor/np" "np")
       else None;
     Index.FindRulesByImportWithConfig := λ imp _,
       if decide (resolve.Imp imp = "x.y") then [exLib "a/b"; exLib "c/d"]
       else if decide (resolve.Imp imp = "both") then [exLib "a/b"; exLib "a/c"]
       else if decide (resolve.Imp imp = "shared") then [exSelf; exLib "a/b"]
       else if decide (resolve.Imp imp = "one") then [exLib "c/d"]
       else if decide (resolve.Imp imp = "over") then [exLib "a/b"]
       else if decide (resolve.Imp imp = "numpy") then [exLib "a/b"]
       else [];
     Index.isStdModule := λ mod_,
       if decide (Name mod_ = "os") then inr true
       else if decide (Name mod_ = "broken") then inl "EOF"
       else inr false;
     Index.explainDependency := "";
     Index.mapToLower := λ s, s |}.


(** An index that knows the resolving rule itself next to two other rules
    for either import, and no directive. *)
Definition exIndexSelf : Index.t :=
  {| Index.FindRuleWithOverride := λ _ _, None;
     Index.FindRulesByImportWithConfig := λ imp _,
       if decide (resolve.Imp imp = "x.y") then [exSelf; exLib "a/b"; exLib "c/d"]
       else if decide (resolve.Imp imp = "both") then [exSelf; exLib "a/b"; exLib "a/c"]
       else [];
     Index.isStdModule := λ _, inr false;
     Index.explainDependency := "";
     Index.mapToLower := λ s, s |}.

Definition exModule (name : string) (line : Z) : module :=
  {| Name := name; Filepath := "app/main.py"; LineNumber := line |}.

Definition exRule : rule.Rule :=
  {| rule.Name := "app"; rule.srcs := Some (ListExpr [StringExpr "main.py"]);
     rule.imports := []; rule.uuid := None; rule.resolvedDeps := ∅;
     rule.deps := None |}.

Definition exState : loopState :=
  {| deps := ∅; hasFatalError := false; logged := [] |}.

(** ** Notions for the further facts *)

(** The variables of the module loop as [Resolve] sets them up. *)
Definition initialState : loopState :=
  {| deps := ∅; hasFatalError := false; logged := [] |}.

(** The dependency set [Resolve] works out of the module list, before the
    dependencies resolved in advance are added. *)
Definition loopDeps (ix : Index.t) (cfg : pythonconfig.Config) (from : label.Label)
    (modulesRaw : option (list module)) : gset string :=
  match modulesRaw with
  | Some modules =>
      deps (moduleLoop ix cfg from
              {| deps := ∅; hasFatalError := false; logged := [] |} modules)
  | None => ∅
  end.

(** An upper-case letter of ASCII. *)
Definition isUpper (c : ascii) : bool :=
  ((65 <=? N_of_ascii c) && (N_of_ascii c <=? 90))%N.

(** The bytes of a string. *)
Fixpoint bytes (s : string) : list ascii :=
  match s with
  | "" => []
  | String a s' => a :: bytes s'
  end.

(** A step of the module loop whose effect does not depend on the variables
    it starts from: it adds the labels [added], sets the fatal flag when
    [fatal], and logs [lines]; at most one label, and none with an error. *)
Definition framed (step : loopState → loopState) : Prop :=
  ∃ (added : gset string) (fatal : bool) (lines : list Diagnostic),
    (∀ st, deps (step st) = added ∪ deps st
           ∧ hasFatalError (step st) = hasFatalError st || fatal
           ∧ logged (step st) = logged st ++ lines)
    ∧ (size added ≤ 1)%nat
    ∧ (length lines ≤ 1)%nat
    ∧ (fatal = true → added = ∅ ∧ length lines = 1%nat).

Definition isVString (v : Value) : bool :=
  match v with VString _ => true | _ => false end.

(** The strings among a list of Starlark values, in order. *)
Definition valueStrings (vals : list Value) : list string :=
  omap (λ v, match v with VString s => Some s | _ => None end) vals.

(** The import roots [Imports] works with: those of the rule, or the package
    itself when the rule names none. *)
Definition importRoots (r : rule.Rule) : list string :=
  if decide (length (rule.imports r) = 0%nat) then [""] else rule.imports r.

Definition exLibRule : rule.Rule :=
  {| rule.Name := "lib";
     rule.srcs := Some (ListExpr [StringExpr "a.py"; StringExpr "data.txt";
                                  StringExpr "sub/b.py"]);
     rule.imports := ["."; ""]; rule.uuid := Some "uuid-1";
     rule.resolvedDeps := ∅; rule.deps := None |}.

(** The marks (package, file) of the node at position [pos] below a map of
    branches, if there is such a node. *)
Fixpoint nodeFlags (branches0 : gmap string BazelPackageTree) (pos : list string)
    : option (bool * bool) :=
  match pos with
  | [] => None
  | part :: rest =>
      match branches0 !! part with
      | Some branch =>
          match rest with
          | [] => Some (isBazelPackage branch, isFile branch)
          | _ :: _ => nodeFlags (branches branch) rest
          end
      | None => None
      end
  end.

(** The marks of the node at [pos] when it is [AddPath] of [parts] that makes
    it: a file at the end of the path, a directory on the way, there a package
    if the directory holds a build file. *)
Definition madeFlags (h : Host.t) (pkg0 : string) (parts pos : list string)
    : bool * bool :=
  if decide (pos = parts) then (false, true)
  else (Host.isBazelPackage h (dirOf pkg0 pos), false).

(** The first of the added paths that goes through [pos]. *)
Definition firstThrough (inserted : list (list string)) (pos : list string)
    : option (list string) :=
  head (filter (λ parts, pos `prefix_of` parts) inserted).

(** A path of [inserted] is listed when it is the first added path through
    its own end and, on the way, every directory was either added as a path
    before anything below it or holds no build file. *)
Definition listed (h : Host.t) (pkg0 : string) (inserted : list (list string))
    (parts : list string) : Prop :=
  parts ≠ []
  ∧ firstThrough inserted parts = Some parts
  ∧ ∀ k, (0 < k < length parts)%nat →
      firstThrough inserted (take k parts) = Some (take k parts)
      ∨ Host.isBazelPackage h (dirOf pkg0 (take k parts)) = false.

(** The value a keyword has after the loop over [kwargs]: that of its last
    occurrence. *)
Definition lastKwarg (name : string) (kwargs : list (string * Value)) : option Value :=
  last (filter (λ kwarg, kwarg.1 = name) kwargs).*2.

(** How often a keyword is given. *)
Definition countKwarg (name : string) (kwargs : list (string * Value)) : nat :=
  length (filter (λ kwarg, kwarg.1 = name) kwargs).

Definition globKeywords : list string :=
  ["include"; "exclude"; "exclude_directories"; "allow_empty"].

Definition globWarning : string :=
  "WARNING: the 'exclude_directories' attribute of 'glob' was set but is not supported by Gazelle".

(** The include argument of a call of [glob]: the positional argument, or
    else the keyword. *)
Definition includeArgOf (args : list Value) (kwargs : list (string * Value))
    : option Value :=
  match head args with
  | Some includeArg => Some includeArg
  | None => lastKwarg "include" kwargs
  end.

(** The patterns of a list argument; none when the argument is missing. *)
Definition patternsOf (arg : option Value) : list Value :=
  match arg with
  | Some (VList patterns) => patterns
  | _ => []
  end.

(** [s] is the path, relative to the package, of a match of one of the
    patterns. *)
Definition matchedBy (h : Host.t) (absPkg : string) (patterns : list Value)
    (s : string) : Prop :=
  ∃ pattern matches match_,
    VString pattern ∈ patterns
    ∧ Host.Glob h (GoPath.Join [absPkg; pattern]) = inr matches
    ∧ match_ ∈ matches
    ∧ s = relOrEmpty h absPkg match_.

(** The paths the include loop adds to the tree, in the order it adds them. *)
Definition globSources (h : Host.t) (absPkg : string) (excludeSet : gset string)
    (patterns : list Value) : list (list string) :=
  patterns ≫= λ pattern,
    match pattern with
    | VString includePattern =>
        match Host.Glob h (GoPath.Join [absPkg; includePattern]) with
        | inr matches =>
            (λ src, GoStrings.Split src GoPath.Separator)
              <$> filter (λ src, src ∉ excludeSet) (relOrEmpty h absPkg <$> matches)
        | inl _ => []
        end
    | _ => []
    end.

(** An outcome of [glob] or of one of its loops: a value, or an error of
    [glob]'s own. *)
Definition globOutcome {A} (r : result A) : Prop :=
  match r with
  | Ok _ => True
  | Err e => GoStrings.HasPrefix e "failed glob: " = true
  | _ => False
  end.

(** The directory of the package of a globber. *)
Definition absPkgOf (g : Globber.t) : string :=
  GoPath.Join [Globber.repoRoot g; Globber.pkg g].

(** [s] is the relative path of a match of an include pattern of the call. *)
Definition globIncluded (h : Host.t) (g : Globber.t) (args : list Value)
    (kwargs : list (string * Value)) (s : string) : Prop :=
  matchedBy h (absPkgOf g) (patternsOf (includeArgOf args kwargs)) s.

(** [s] is the relative path of a match of an exclude pattern of the call. *)
Definition globExcluded (h : Host.t) (g : Globber.t)
    (kwargs : list (string * Value)) (s : string) : Prop :=
  matchedBy h (absPkgOf g) (patternsOf (lastKwarg "exclude" kwargs)) s.

(** * Facts *)

(** ** Strings and paths *)

Lemma app_cons (a : ascii) (s t : string) : String a s +:+ t = String a (s +:+ t).
Proof. reflexivity. Qed.

Lemma app_empty_r (s : string) : s +:+ "" = s.
Proof. induction s as [|a s IH]; [done|]. by rewrite app_cons, IH. Qed.

Lemma append_ne_self (s t : string) : t ≠ "" → s ≠ s +:+ t.
Proof.
  intros Ht E. apply Ht. apply (inj (String.app s)).
  by rewrite <- E, app_empty_r.
Qed.

Lemma Split_nonempty (s : string) (sep : ascii) : GoStrings.Split s sep ≠ [].
Proof.
  destruct s as [|a s]; [done|]. simpl.
  destruct (decide (a = sep)); [done|]. by destruct (GoStrings.Split s sep).
Qed.

(** Splitting undoes joining at the separator. *)
Lemma Split_app (s t : string) (sep : ascii) :
  GoStrings.Split (s +:+ String sep t) sep
    = GoStrings.Split s sep ++ GoStrings.Split t sep.
Proof.
  induction s as [|a s IH].
  - simpl. by rewrite decide_True by done.
  - rewrite app_cons. simpl. destruct (decide (a = sep)); [by rewrite IH|].
    rewrite IH. pose proof (Split_nonempty s sep).
    by destruct (GoStrings.Split s sep).
Qed.

Lemma Join_cons_byte (a : ascii) (x : string) (xs : list string) (sep : string) :
  GoStrings.Join (String a x :: xs) sep = String a (GoStrings.Join (x :: xs) sep).
Proof. by destruct xs. Qed.

(** Joining undoes splitting. *)
Lemma Join_Split (s : string) :
  GoStrings.Join (GoStrings.Split s "/") "/" = s.
Proof.
  induction s as [|a s IH]; [done|]. simpl.
  pose proof (Split_nonempty s "/") as Hne.
  destruct (decide (a = "/"%char)) as [->|Hna].
  - destruct (GoStrings.Split s "/") as [|x xs]; [done|].
    change (GoStrings.Join ("" :: x :: xs) "/")
      with ("" +:+ "/" +:+ GoStrings.Join (x :: xs) "/").
    by rewrite IH.
  - destruct (GoStrings.Split s "/") as [|x xs]; [done|].
    by rewrite Join_cons_byte, IH.
Qed.

Lemma isPlain_Split (part : string) :
  isPlain part = true → GoStrings.Split part "/" = [part].
Proof.
  unfold isPlain. intros H. apply andb_prop in H as [H _].
  by apply bool_decide_eq_true in H.
Qed.

Lemma isPlain_special (part : string) :
  isPlain part = true → part ≠ "" ∧ part ≠ "." ∧ part ≠ "..".
Proof.
  unfold isPlain. intros H. apply andb_prop in H as [_ H].
  apply bool_decide_eq_true in H.
  repeat split; intros ->; apply H; set_solver.
Qed.

(** [Clean] keeps ordinary elements as they are. *)
Lemma cleanElems_plain (rooted : bool) (segs out : list string) :
  Forall (λ seg, isPlain seg = true) segs →
  GoPath.cleanElems rooted out segs = reverse out ++ segs.
Proof.
  intros Hsegs. revert out. induction Hsegs as [|seg segs Hseg _ IH]; intros out.
  - simpl. by rewrite app_nil_r.
  - apply isPlain_special in Hseg as (H1 & H2 & H3). simpl.
    rewrite decide_False by (intros [?|?]; done).
    rewrite decide_False by done.
    rewrite IH, reverse_cons. by rewrite <- app_assoc.
Qed.

(** A path is well-formed when all its elements are ordinary names. *)
Lemma Clean_wfPath (s : string) : wfPath s → GoPath.Clean s = s.
Proof.
  unfold wfPath. intros Hwf. unfold GoPath.Clean.
  destruct s as [|a s].
  { simpl in Hwf. apply Forall_cons in Hwf as [Hp _]. by apply isPlain_special in Hp as [? _]. }
  rewrite decide_False by done.
  assert (a ≠ "/"%char) as Hna.
  { intros ->. simpl in Hwf. apply Forall_cons in Hwf as [Hp _].
    by apply isPlain_special in Hp as [? _]. }
  assert (GoStrings.HasPrefix (String a s) "/" = false) as ->.
  { change (GoStrings.HasPrefix (String a s) "/")
      with (if ascii_dec "/" a then String.prefix "" s else false).
    destruct (ascii_dec "/" a); [congruence|done]. }
  unfold GoPath.Separator. rewrite (cleanElems_plain _ _ _ Hwf).
  rewrite reverse_nil, app_nil_l, Join_Split. by rewrite decide_False by done.
Qed.

(** [path.Join] of an ordinary name and a well-formed path puts a slash
    between the two. *)
Lemma Join_plain (part sub : string) :
  isPlain part = true → wfPath sub →
  GoPath.Join [part; sub] = part +:+ "/" +:+ sub
  ∧ GoStrings.Split (part +:+ "/" +:+ sub) "/" = part :: GoStrings.Split sub "/".
Proof.
  intros Hp Hsub.
  assert (GoStrings.Split (part +:+ "/" +:+ sub) "/" = part :: GoStrings.Split sub "/")
    as Hsplit.
  { change ("/" +:+ sub) with (String "/" sub).
    by rewrite Split_app, (isPlain_Split _ Hp). }
  split; [|done]. unfold GoPath.Join.
  destruct (isPlain_special _ Hp) as (H1 & _). rewrite decide_False by done.
  change (GoStrings.Join [part; sub] "/") with (part +:+ "/" +:+ sub).
  apply Clean_wfPath. unfold wfPath, GoPath.Separator in *. rewrite Hsplit.
  by constructor.
Qed.

(** Splitting the slash-separated rendering of ordinary names gives the
    names back. *)
Lemma Split_Join_plain (parts : list string) :
  parts ≠ [] → Forall (λ part, isPlain part = true) parts →
  GoStrings.Split (GoStrings.Join parts "/") "/" = parts.
Proof.
  intros Hne Hparts. induction Hparts as [|part parts Hp Hparts IH]; [done|].
  destruct parts as [|part' parts].
  - simpl. by apply isPlain_Split.
  - change (GoStrings.Join (part :: part' :: parts) "/")
      with (part +:+ String "/" (GoStrings.Join (part' :: parts) "/")).
    rewrite Split_app, (isPlain_Split _ Hp), IH; done.
Qed.

(** ** Evaluation of [srcs] and import specs *)

Lemma stringExprs_literalStrings (elems : list Expr) :
  stringExprs elems = literalStrings elems.
Proof.
  unfold stringExprs, literalStrings.
  induction elems as [|e elems IH]; [done|].
  destruct e; simpl; try apply IH. f_equal. apply IH.
Qed.

(** C10: for a literal list the evaluator returns the values of the string
    elements in list order and drops every other element; nothing is logged,
    no error is reported, and neither the interpreter nor the file system
    has a say in the result. *)
Theorem evalSrcsExpr_literal_list (h h' : Host.t) (vm vm' : Interp.t)
    (repoRoot pkg0 : string) (elems : list Expr) (out : list string) :
  evalSrcsExpr h vm repoRoot pkg0 (ListExpr elems) out = (out, Ok (literalStrings elems))
  ∧ evalSrcsExpr h' vm' repoRoot pkg0 (ListExpr elems) out
      = evalSrcsExpr h vm repoRoot pkg0 (ListExpr elems) out.
Proof.
  split; [|done]. simpl. by rewrite stringExprs_literalStrings.
Qed.

(** C8: for an expression that is not a literal list, a parse failure comes
    back as an error (which [Imports] turns into a fatal exit), while a
    failure of the evaluation, the glob callable's included, is answered with
    a warning and the empty list, no error. *)
Theorem evalSrcsExpr_failure_modes (h : Host.t) (vm : Interp.t)
    (repoRoot pkg0 : string) (r : rule.Rule) (expr : Expr) (out : list string) :
  isListExpr expr = false →
  rule.srcs r = Some expr →
  match Interp.ParseExpr vm (Interp.FormatString vm expr) with
  | inl err =>
      evalSrcsExpr h vm repoRoot pkg0 expr out
        = (out, Err ("failed to eval srcs expression: " +:+ err))
      ∧ (Imports h vm repoRoot r pkg0 out).2 = Exit 1
  | inr srcsSyntaxExpr =>
      match Interp.EvalExpr vm srcsSyntaxExpr (srcsEnv h repoRoot pkg0) out with
      | (out', Err err) =>
          evalSrcsExpr h vm repoRoot pkg0 expr out
            = (out' ++ ["WARNING: failed to eval srcs expression: " +:+ err], Ok [])
      | _ => True
      end
  end.
Proof.
  intros Hdyn Hsrcs. unfold Imports. rewrite Hsrcs.
  destruct expr; try discriminate Hdyn; simpl; unfold srcsEnv;
    (destruct (Interp.ParseExpr vm _) as [err|syn]; [done|]);
    by destruct (Interp.EvalExpr vm syn _ out) as [out' [v|err|msg|status]].
Qed.

Lemma evalSrcsExpr_failure_modes_witness :
  (isListExpr (Ident "glob(") = false ∧ isListExpr (Ident "srcs") = false)
  ∧ evalSrcsExpr (exHost false) exInterp "/repo" "pkg" (Ident "glob(") []
      = ([], Err "failed to eval srcs expression: got end of file, want ')'")
  ∧ evalSrcsExpr (exHost false) exInterp "/repo" "pkg" (Ident "srcs") []
      = (["WARNING: failed to eval srcs expression: failed glob: include is not a list"],
         Ok []).
Proof.
  split; [done|]. split.
  - exact (proj1 (evalSrcsExpr_failure_modes (exHost false) exInterp "/repo" "pkg"
             {| rule.Name := "lib"; rule.srcs := Some (Ident "glob("); rule.imports := [];
                rule.uuid := None; rule.resolvedDeps := ∅; rule.deps := None |}
             (Ident "glob(") [] eq_refl eq_refl)).
  - exact (evalSrcsExpr_failure_modes (exHost false) exInterp "/repo" "pkg"
             {| rule.Name := "lib"; rule.srcs := Some (Ident "srcs"); rule.imports := [];
                rule.uuid := None; rule.resolvedDeps := ∅; rule.deps := None |}
             (Ident "srcs") [] eq_refl eq_refl).
Defined.

(** C4, as the code has it: for the entrypoint file of a package with a
    non-empty prefix the derivation returns the package prefix, and only that:
    the identifier [prefix.moduleName] is not derived for the file. *)
Theorem entrypoint_provides_package_only (h : Host.t)
    (pythonProjectRoot bzlPkg src relPythonPkgDir : string) (out : list string) :
  Host.Rel h pythonProjectRoot (GoPath.Join [bzlPkg; GoPath.Dir src])
    = inr relPythonPkgDir →
  GoPath.Base src = pyLibraryEntrypointFilename →
  pythonPkgOf relPythonPkgDir ≠ "" →
  let prefix := pythonPkgOf relPythonPkgDir in
  let moduleName := GoStrings.TrimSuffix (GoPath.Base src) ".py" in
  importSpecFromSrc h pythonProjectRoot bzlPkg src out
    = (out, Ok {| resolve.Lang := languageName; resolve.Imp := prefix |})
  ∧ {| resolve.Lang := languageName; resolve.Imp := prefix |}
      ≠ {| resolve.Lang := languageName; resolve.Imp := prefix +:+ "." +:+ moduleName |}.
Proof.
  intros Hrel Hbase Hpkg prefix moduleName. split.
  - unfold importSpecFromSrc. rewrite Hrel. fold (pythonPkgOf relPythonPkgDir).
    rewrite decide_True by done. by rewrite decide_True by done.
  - intros E. injection E as E. by apply append_ne_self in E.
Qed.

Lemma entrypoint_provides_package_only_witness :
  (Host.Rel (exHost false) "" (GoPath.Join ["pkg"; GoPath.Dir "sub/__init__.py"])
     = inr "pkg/sub"
   ∧ GoPath.Base "sub/__init__.py" = pyLibraryEntrypointFilename
   ∧ pythonPkgOf "pkg/sub" ≠ "")
  ∧ importSpecFromSrc (exHost false) "" "pkg" "sub/__init__.py" []
      = ([], Ok {| resolve.Lang := "py"; resolve.Imp := "pkg.sub" |}).
Proof.
  assert (H3 : pythonPkgOf "pkg/sub" ≠ "") by done.
  split; [done|].
  exact (proj1 (entrypoint_provides_package_only (exHost false) "" "pkg"
                  "sub/__init__.py" "pkg/sub" [] eq_refl eq_refl H3)).
Defined.

(** C4 at the input of the specification (project root empty, package [pkg],
    source [sub/__init__.py]): the file is the entrypoint, the prefix
    [pkg.sub] is not empty, and [pkg.sub] is all that is derived; the rule
    that holds the file publishes one identifier for it, not two. *)
Lemma entrypoint_module_name_not_provided :
  GoPath.Base "sub/__init__.py" = pyLibraryEntrypointFilename
  ∧ pythonPkgOf "pkg/sub" = "pkg.sub"
  ∧ importSpecFromSrc (exHost false) "" "pkg" "sub/__init__.py" []
      = ([], Ok {| resolve.Lang := "py"; resolve.Imp := "pkg.sub" |})
  ∧ {| resolve.Lang := "py"; resolve.Imp := "pkg.sub" |}
      ≠ {| resolve.Lang := "py"; resolve.Imp := "pkg.sub.__init__" |}
  ∧ Imports (exHost false) exInterp "/repo" exInitRule "pkg" []
      = ([], Ok (Some [{| resolve.Lang := "py"; resolve.Imp := "sub" |}]))
  ∧ {| resolve.Lang := "py"; resolve.Imp := "sub.__init__" |}
      ∉ [{| resolve.Lang := "py"; resolve.Imp := "sub" |}].
Proof.
  split; [reflexivity|]. split; [reflexivity|]. split; [reflexivity|].
  split; [done|]. split; [reflexivity|].
  intros H. apply list_elem_of_singleton in H. discriminate H.
Qed.

(** The examples of the specification, run on the code. *)
Example import_spec_of_module :
  importSpecFromSrc (exHost false) "" "pkg" "sub/mod.py" []
    = ([], Ok {| resolve.Lang := "py"; resolve.Imp := "pkg.sub.mod" |})
  ∧ importSpecFromSrc (exHost false) "pkg" "pkg" "mod.py" []
    = ([], Ok {| resolve.Lang := "py"; resolve.Imp := "mod" |}).
Proof. split; reflexivity. Qed.

Example literal_srcs :
  evalSrcsExpr (exHost false) exInterp "/repo" "pkg"
    (ListExpr [StringExpr "a.py"; Ident "GENERATED"; StringExpr "b.py"]) []
  = ([], Ok ["a.py"; "b.py"]).
Proof. reflexivity. Qed.

(** ** The resolver *)

Section ResolverFacts.
Context (ix : Index.t) (cfg : pythonconfig.Config) (from : label.Label).
Implicit Types (st : loopState).

Lemma filterMatches_acc matches acc :
  filterMatches from matches acc =
    if hasSelfImport from matches then None else Some (acc ++ matches).
Proof.
  revert acc. induction matches as [|m ms IH]; intros acc; simpl.
  - by rewrite app_nil_r.
  - destruct (resolve.IsSelfImport m from); simpl; [done|].
    rewrite IH. destruct (hasSelfImport from ms); [done|].
    by rewrite <- app_assoc.
Qed.

Lemma filterMatches_nil matches :
  filterMatches from matches [] =
    if hasSelfImport from matches then None else Some matches.
Proof. by rewrite filterMatches_acc. Qed.

Lemma resolveModule_index st (mod_ : module) :
  Index.FindRuleWithOverride ix (importOf mod_) languageName = None →
  pythonconfig.ModulesMapping cfg !! Name mod_ = None →
  resolveModule ix cfg from st mod_ =
    firstParty ix cfg from st mod_
      (Index.FindRulesByImportWithConfig ix (importOf mod_) languageName).
Proof.
  intros Ho Hm. unfold resolveModule. fold (importOf mod_). by rewrite Ho, Hm.
Qed.


Lemma filter_no_self matches :
  hasSelfImport from matches = false →
  filter (λ match_, resolve.IsSelfImport match_ from = false) matches = matches.
Proof.
  induction matches as [|m ms IH]; [done|]. simpl.
  destruct (resolve.IsSelfImport m from) eqn:Hm; [done|]. simpl. intros Hms.
  rewrite filter_cons, decide_True by done. by rewrite IH.
Qed.

(** C5, as the code has it.  The lookup leaves more than one candidate that
    is not a self-import.  If any match of the lookup is a self-import, the
    module is skipped: nothing is added and no error is recorded.  If none
    is, the candidates are narrowed to those whose package has the project
    root as a prefix; exactly one such candidate is resolved as the dependency
    (relative to the resolving rule), any other count records a fatal
    ambiguity error that names all candidates from before the narrowing.  In
    every case the loop goes on with the next module. *)
Theorem first_party_narrowing st (mod_ : module) (rest : list module) :
  Index.FindRuleWithOverride ix (importOf mod_) languageName = None →
  pythonconfig.ModulesMapping cfg !! Name mod_ = None →
  (1 < length (filter (λ match_, resolve.IsSelfImport match_ from = false)
                 (matchesOf ix mod_)))%nat →
  let st' := resolveModule ix cfg from st mod_ in
  (if hasSelfImport from (matchesOf ix mod_) then st' = st
   else
     match
       filter (λ match_,
         GoStrings.HasPrefix (label.Pkg (resolve.Label match_))
           (pythonconfig.PythonProjectRoot cfg) = true) (matchesOf ix mod_)
     with
     | [only] =>
         let dep :=
           label.String
             (label.Rel (resolve.Label only) (label.Repo from) (label.Pkg from)) in
         deps st' = {[ dep ]} ∪ deps st
         ∧ hasFatalError st' = hasFatalError st
         ∧ logged st' = logged st ++
             (if decide (Index.explainDependency ix = dep)
              then [ExplainFirstParty dep from mod_] else [])
     | _ =>
         deps st' = deps st
         ∧ hasFatalError st' = true
         ∧ logged st' = logged st ++
             [AmbiguousImport
                (GoStrings.Join
                   ((λ result, label.String (resolve.Label result))
                      <$> matchesOf ix mod_)
                   ", ") mod_]
     end)
  ∧ moduleLoop ix cfg from st (mod_ :: rest) = moduleLoop ix cfg from st' rest.
Proof.
  intros Ho Hm Hlen st'. split; [|done].
  subst st'. rewrite (resolveModule_index st mod_ Ho Hm).
  unfold matchesOf in *. unfold firstParty.
  destruct (Index.FindRulesByImportWithConfig ix (importOf mod_) languageName)
    as [|m0 ms] eqn:Hmatches.
  { simpl in Hlen. lia. }
  rewrite decide_False by done. rewrite filterMatches_nil.
  destruct (hasSelfImport from (m0 :: ms)) eqn:Hself; [done|].
  rewrite (filter_no_self _ Hself) in Hlen.
  rewrite decide_False by (intros E; rewrite E in Hlen; lia).
  rewrite decide_True by done.
  fold (sameRoot cfg (m0 :: ms)).
  destruct (sameRoot cfg (m0 :: ms)) as [|only [|more others]] eqn:Hsame; simpl.
  - done.
  - done.
  - done.
Qed.

(** C1, as the code has it: a module one of whose index matches is the
    resolving rule itself (or embeds it) is skipped as a whole, whatever the
    other candidates, and leaves no trace; a module with a single match that
    is not a self-import adds that match's label, made relative to the
    resolving rule's repository and package. *)
Theorem self_import_skips_module st (mod_ : module) :
  Index.FindRuleWithOverride ix (importOf mod_) languageName = None →
  pythonconfig.ModulesMapping cfg !! Name mod_ = None →
  let st' := resolveModule ix cfg from st mod_ in
  if hasSelfImport from (matchesOf ix mod_) then st' = st
  else
    match matchesOf ix mod_ with
    | [only] =>
        let dep :=
          label.String
            (label.Rel (resolve.Label only) (label.Repo from) (label.Pkg from)) in
        deps st' = {[ dep ]} ∪ deps st ∧ hasFatalError st' = hasFatalError st
    | _ => True
    end.
Proof.
  intros Ho Hm st'. subst st'. rewrite (resolveModule_index st mod_ Ho Hm).
  unfold matchesOf, firstParty.
  destruct (Index.FindRulesByImportWithConfig ix (importOf mod_) languageName)
    as [|m0 ms] eqn:Hmatches; [done|].
  rewrite decide_False by done. rewrite filterMatches_nil.
  destruct (hasSelfImport from (m0 :: ms)) eqn:Hself; [done|].
  destruct ms as [|m1 ms]; [|done].
  rewrite decide_False by done. rewrite decide_False by (simpl; lia). done.
Qed.

(** The fatal flag after one module, and what the module logs. *)
Lemma resolveModule_fatal st (mod_ : module) :
  hasFatalError (resolveModule ix cfg from st mod_)
    = hasFatalError st || fatalModule ix cfg from mod_
  ∧ ∃ lines, logged (resolveModule ix cfg from st mod_) = logged st ++ lines
      ∧ (fatalModule ix cfg from mod_ = true → fatalLine ix cfg from mod_ ∈ lines).
Proof.
  unfold fatalModule, fatalLine, stdModuleFails, invalidUnderValidation,
    ambiguousFirstParty, reachesIndex, matchesOf, resolveModule.
  fold (importOf mod_).
  destruct (Index.FindRuleWithOverride ix (importOf mod_) languageName) as [o|] eqn:Ho.
  { rewrite bool_decide_eq_false_2 by done. simpl. rewrite orb_false_r.
    destruct (negb _); simpl; [|split; [done|exists []; by rewrite app_nil_r]].
    split; [done|]. eexists; split; [done|done]. }
  rewrite bool_decide_eq_true_2 by done. simpl.
  destruct (pythonconfig.ModulesMapping cfg !! Name mod_) as [d|] eqn:Hm.
  { rewrite bool_decide_eq_false_2 by done. simpl. rewrite orb_false_r.
    split; [done|]. eexists; split; [done|done]. }
  rewrite bool_decide_eq_true_2 by done. simpl.
  unfold firstParty.
  generalize (Index.FindRulesByImportWithConfig ix (importOf mod_) languageName).
  intros matches.
  destruct (decide (length matches = 0%nat)) as [Hnil|Hcons].
  - apply nil_length_inv in Hnil as ->. unfold noMatches.
    destruct (Index.isStdModule ix mod_) as [err|[|]] eqn:Hstd;
      [| |destruct (pythonconfig.ValidateImportStatements cfg)]; simpl;
      rewrite ?orb_false_r, ?orb_true_r;
      (split; [done|]);
      first [ by (exists []; rewrite app_nil_r)
            | eexists; split; [done|]; intros _; by apply list_elem_of_singleton ].
  - rewrite (bool_decide_eq_false_2 (matches = []))
      by (intros ->; by apply Hcons).
    cbn [andb orb].
    rewrite filterMatches_nil.
    destruct (hasSelfImport from matches) eqn:Hself.
    { cbn [andb orb negb]. rewrite orb_false_r. split; [done|].
      exists []. by rewrite app_nil_r. }
    rewrite decide_False by done. cbn [andb orb negb].
    destruct (decide (1 < length matches)%nat) as [Hlen|Hlen].
    + rewrite bool_decide_eq_true_2 by done. cbn [andb orb negb].
      destruct (decide (length (sameRoot cfg matches) ≠ 1%nat)) as [Hne|Heq].
      * rewrite bool_decide_eq_false_2 by done. cbn [andb orb negb].
        rewrite orb_true_r.
        split; [done|]. eexists; split; [done|]. intros _.
        by apply list_elem_of_singleton.
      * apply dec_stable in Heq. rewrite bool_decide_eq_true_2 by done.
        cbn [andb orb negb]. rewrite orb_false_r.
        destruct (sameRoot cfg matches) as [|only others] eqn:Hsame; [done|].
        split; [done|]. eexists; split; [done|done].
    + rewrite bool_decide_eq_false_2 by done. cbn [andb orb negb].
      rewrite orb_false_r.
      destruct matches as [|only others]; [done|].
      split; [done|]. eexists; split; [done|done].
Qed.

Lemma moduleLoop_fatal (modules : list module) st :
  hasFatalError (moduleLoop ix cfg from st modules)
    = hasFatalError st || existsb (fatalModule ix cfg from) modules
  ∧ ∃ lines, logged (moduleLoop ix cfg from st modules) = logged st ++ lines
      ∧ ∀ mod_, mod_ ∈ modules → fatalModule ix cfg from mod_ = true →
          fatalLine ix cfg from mod_ ∈ lines.
Proof.
  revert st. induction modules as [|m ms IH]; intros st; simpl.
  - rewrite orb_false_r. split; [done|]. exists []. rewrite app_nil_r.
    split; [done|]. intros ? Hin. by apply elem_of_nil in Hin.
  - destruct (resolveModule_fatal st m) as [Hf (l1 & Hl1 & Hin1)].
    destruct (IH (resolveModule ix cfg from st m)) as [Hf' (l2 & Hl2 & Hin2)].
    unfold moduleLoop in *. split.
    + rewrite Hf', Hf. by rewrite orb_assoc.
    + exists (l1 ++ l2). split.
      * rewrite Hl2, Hl1. by rewrite app_assoc.
      * intros mod_ [->|Hin]%elem_of_cons Hfatal; apply elem_of_app; auto.
Qed.

(** C6, as the code has it: the whole module list of the rule is worked
    through before the process may end; it ends with status 1 exactly when
    some module met a fatal condition, which is one of three: the
    standard-library test failed, the module is unresolved and invalid under
    strict validation, or its first-party match is ambiguous.  The log then
    holds the error of every such module.  Without a fatal condition
    [Resolve] returns the rule. *)
Theorem fatal_errors_batched (r : rule.Rule) (modules : list module) :
  let out := Resolve ix cfg r (Some modules) from in
  (out.2 = Exit 1 ↔
     ∃ mod_, mod_ ∈ modules ∧
       (stdModuleFails ix cfg mod_ || invalidUnderValidation ix cfg mod_
        || ambiguousFirstParty ix cfg from mod_) = true)
  ∧ (∀ mod_, mod_ ∈ modules → fatalModule ix cfg from mod_ = true →
       fatalLine ix cfg from mod_ ∈ out.1)
  ∧ (out.2 = Exit 1
     ∨ out.2 = Ok (finishDeps r
                    (deps (moduleLoop ix cfg from
                             {| deps := ∅; hasFatalError := false; logged := [] |}
                             modules)))).
Proof.
  intros out. subst out. unfold Resolve.
  set (st0 := {| deps := ∅; hasFatalError := false; logged := [] |}).
  destruct (moduleLoop_fatal modules st0) as [Hf (lines & Hl & Hin)].
  simpl in Hf, Hl.
  destruct (hasFatalError (moduleLoop ix cfg from st0 modules)) eqn:Hfatal; simpl.
  - split; [|split].
    + split; [intros _|done]. symmetry in Hf. apply existsb_exists in Hf.
      destruct Hf as (m & Hm & Hfm). exists m. split; [|done].
      by apply list_elem_of_In.
    + intros m Hm Hfm. rewrite Hl. by apply Hin.
    + by left.
  - split; [|split].
    + split; [done|]. intros (m & Hm & Hfm). exfalso.
      assert (existsb (fatalModule ix cfg from) modules = true) as E.
      { apply existsb_exists. exists m. split; [by apply list_elem_of_In|done]. }
      rewrite E in Hf. done.
    + intros m Hm Hfm. rewrite Hl. by apply Hin.
    + by right.
Qed.


End ResolverFacts.



Lemma self_import_skips_module_witness :
  (Index.FindRuleWithOverride exIndex (importOf (exModule "shared" 2)) languageName = None
   ∧ pythonconfig.ModulesMapping (exConfig true) !! Name (exModule "shared" 2) = None
   ∧ Index.FindRuleWithOverride exIndex (importOf (exModule "one" 3)) languageName = None
   ∧ pythonconfig.ModulesMapping (exConfig true) !! Name (exModule "one" 3) = None)
  ∧ resolveModule exIndex (exConfig true) exFrom exState (exModule "shared" 2) = exState
  ∧ deps (resolveModule exIndex (exConfig true) exFrom exState (exModule "one" 3))
      = {[ "//c/d:lib" ]} ∪ ∅.
Proof.
  split; [done|]. split.
  - exact (self_import_skips_module exIndex (exConfig true) exFrom exState
             (exModule "shared" 2) eq_refl eq_refl).
  - exact (proj1 (self_import_skips_module exIndex (exConfig true) exFrom exState
                    (exModule "one" 3) eq_refl eq_refl)).
Defined.

(** C1 at a concrete input: the index returns the resolving rule itself and
    one other rule; the other rule is the one match that is not a self-import,
    and it is not added. *)
Lemma self_match_drops_other_candidates :
  matchesOf exIndex (exModule "shared" 2) = [exSelf; exLib "a/b"]
  ∧ filter (λ match_, resolve.IsSelfImport match_ exFrom = false)
      (matchesOf exIndex (exModule "shared" 2)) = [exLib "a/b"]
  ∧ (label.String (label.Rel (resolve.Label (exLib "a/b")) (label.Repo exFrom)
                     (label.Pkg exFrom)) = "//a/b:lib")
  ∧ ("//a/b:lib" ∉ deps (resolveModule exIndex (exConfig true) exFrom exState
                           (exModule "shared" 2)))
  ∧ Resolve exIndex (exConfig true) exRule (Some [exModule "shared" 2]) exFrom
      = ([], Ok exRule).
Proof.
  split; [reflexivity|]. split; [reflexivity|]. split; [reflexivity|].
  split; [|reflexivity].
  change (resolveModule exIndex (exConfig true) exFrom exState (exModule "shared" 2))
    with exState.
  simpl. apply not_elem_of_empty.
Qed.

(** C6 at a concrete input: the standard-library test fails for the only
    module; validation is off and there is no first-party match at all, yet
    the process ends with status 1. *)
Lemma std_failure_exits :
  Resolve exIndex (exConfig false) exRule (Some [exModule "broken" 7]) exFrom
    = ([StdModuleError "EOF"], Exit 1)
  ∧ invalidUnderValidation exIndex (exConfig false) (exModule "broken" 7) = false
  ∧ ambiguousFirstParty exIndex (exConfig false) exFrom (exModule "broken" 7) = false.
Proof. repeat split. Qed.

Lemma first_party_narrowing_witness :
  (Index.FindRuleWithOverride exIndex (importOf (exModule "x.y" 3)) languageName = None
   ∧ pythonconfig.ModulesMapping (exConfig true) !! Name (exModule "x.y" 3) = None
   ∧ (1 < length (filter (λ match_, resolve.IsSelfImport match_ exFrom = false)
                    (matchesOf exIndex (exModule "x.y" 3))))%nat)
  ∧ deps (resolveModule exIndex (exConfig true) exFrom exState (exModule "x.y" 3))
      = {[ "//a/b:lib" ]} ∪ ∅.
Proof.
  assert (H1 : Index.FindRuleWithOverride exIndex (importOf (exModule "x.y" 3)) languageName = None)
    by reflexivity.
  assert (H2 : pythonconfig.ModulesMapping (exConfig true) !! Name (exModule "x.y" 3) = None)
    by reflexivity.
  assert (H3 : (1 < length (filter (λ match_, resolve.IsSelfImport match_ exFrom = false)
                              (matchesOf exIndex (exModule "x.y" 3))))%nat)
    by (vm_compute; lia).
  split; [done|].
  exact (proj1 (proj1 (first_party_narrowing exIndex (exConfig true) exFrom exState
                  (exModule "x.y" 3) [] H1 H2 H3))).
Defined.

(** C5 at a concrete input: the index returns the resolving rule itself and
    two other rules.  Two candidates that are not self-imports are left; of
    the first pair one only lies under the project root, of the second pair
    both do.  Neither a label is added nor an error recorded. *)
Lemma self_match_blocks_narrowing :
  filter (λ match_, resolve.IsSelfImport match_ exFrom = false)
    (matchesOf exIndexSelf (exModule "x.y" 3)) = [exLib "a/b"; exLib "c/d"]
  ∧ sameRoot (exConfig true) [exLib "a/b"; exLib "c/d"] = [exLib "a/b"]
  ∧ resolveModule exIndexSelf (exConfig true) exFrom exState (exModule "x.y" 3) = exState
  ∧ Resolve exIndexSelf (exConfig true) exRule (Some [exModule "x.y" 3]) exFrom
      = ([], Ok exRule)
  ∧ filter (λ match_, resolve.IsSelfImport match_ exFrom = false)
      (matchesOf exIndexSelf (exModule "both" 4)) = [exLib "a/b"; exLib "a/c"]
  ∧ sameRoot (exConfig true) [exLib "a/b"; exLib "a/c"] = [exLib "a/b"; exLib "a/c"]
  ∧ Resolve exIndexSelf (exConfig true) exRule (Some [exModule "both" 4]) exFrom
      = ([], Ok exRule).
Proof. repeat split. Qed.

(** The examples of the specification, run on the code. *)
Example third_party_target_name :
  rulesPythonDistributionPackage (Index.mapToLower exIndex) "Numpy" = "pypi__numpy"
  ∧ rulesPythonDistributionPackage (Index.mapToLower exIndex) "PyYAML-Extra"
      = "pypi__pyyaml_extra".
Proof. split; reflexivity. Qed.

Example third_party_before_index :
  Index.FindRulesByImportWithConfig exIndex (importOf (exModule "numpy" 2)) languageName
    = [exLib "a/b"]
  ∧ Resolve exIndex (exConfig true) exRule (Some [exModule "numpy" 2]) exFrom
      = ([], Ok (rule.SetDeps exRule (ListExpr [StringExpr "@pip//pypi__numpy"]))).
Proof. split; [reflexivity|]. vm_compute. reflexivity. Qed.

Example override_before_index :
  Index.FindRulesByImportWithConfig exIndex (importOf (exModule "over" 1)) languageName
    = [exLib "a/b"]
  ∧ Resolve exIndex (exConfig true) exRule (Some [exModule "over" 1]) exFrom
      = ([], Ok (rule.SetDeps exRule (ListExpr [StringExpr "//libs/util"]))).
Proof. split; [reflexivity|]. vm_compute. reflexivity. Qed.

Example ambiguity_by_project_root :
  Resolve exIndex (exConfig true) exRule (Some [exModule "x.y" 3]) exFrom
    = ([], Ok (rule.SetDeps exRule (ListExpr [StringExpr "//a/b:lib"])))
  ∧ Resolve exIndex (exConfig true) exRule (Some [exModule "both" 4]) exFrom
    = ([AmbiguousImport "//a/b:lib, //a/c:lib" (exModule "both" 4)], Exit 1).
Proof. split; vm_compute; reflexivity. Qed.

Example errors_of_one_rule_are_batched :
  Resolve exIndex (exConfig true) exRule
    (Some [exModule "both" 4; exModule "os" 5; exModule "missing" 6; exModule "one" 7])
    exFrom
  = ([AmbiguousImport "//a/b:lib, //a/c:lib" (exModule "both" 4);
      InvalidDependency exFrom (exModule "missing" 6)], Exit 1).
Proof. vm_compute. reflexivity. Qed.

(** ** The package tree and glob *)

Lemma nodes_branch (pt branch : BazelPackageTree) (part : string) :
  branches pt !! part = Some branch → (nodes branch < nodes pt)%nat.
Proof.
  intros Hl. destruct pt as [p0 bs bp fl]. simpl in *.
  rewrite (map_fold_delete_L _ _ part branch bs); [lia| |done].
  intros. lia.
Qed.

(** Induction on trees: a property holds of a tree if it holds of every
    branch. *)
Lemma BazelPackageTree_branch_ind (P : BazelPackageTree → Prop) :
  (∀ pt, (∀ part branch, branches pt !! part = Some branch → P branch) → P pt) →
  ∀ pt, P pt.
Proof.
  intros Hstep pt. remember (nodes pt) as n eqn:Hn. revert pt Hn.
  induction n as [n IH] using lt_wf_ind. intros pt ->.
  apply Hstep. intros part branch Hl.
  apply (IH (nodes branch)); [by eapply nodes_branch|done].
Qed.

Section PathsFacts.
Context (h : Host.t).

(** [Paths] at one node, in terms of the branches of the node. *)
Lemma PathsAt_unfold (pos : list string) (pt : BazelPackageTree) :
  PathsAt h pos pt =
    Host.rangeOrder h pos (map_to_list (branches pt)).*1 ≫= λ part,
      match branches pt !! part with
      | Some branch => branchPaths part branch (PathsAt h (pos ++ [part]) branch)
      | None => []
      end.
Proof.
  destruct pt as [p0 bs bp fl]. simpl.
  apply list_bind_ext; [|done]. intros part.
  rewrite map_lookup_imap. by destruct (bs !! part).
Qed.

End PathsFacts.

Lemma bind_Permutation_pointwise {A B} (f g : A → list B) (l : list A) :
  (∀ x, x ∈ l → f x ≡ₚ g x) → l ≫= f ≡ₚ l ≫= g.
Proof.
  induction l as [|x l IH]; intros Hfg; [done|].
  rewrite !bind_cons. apply Permutation_app.
  - apply Hfg. by left.
  - apply IH. intros y Hy. apply Hfg. by right.
Qed.

Lemma branchPaths_Permutation (part : string) (branch : BazelPackageTree)
    (below1 below2 : list string) :
  below1 ≡ₚ below2 → branchPaths part branch below1 ≡ₚ branchPaths part branch below2.
Proof.
  intros Hp. unfold branchPaths. destruct (isBazelPackage branch); [done|].
  by rewrite Hp.
Qed.

(** Two fair iteration orders list the same paths, each as often. *)
Lemma PathsAt_Permutation (h1 h2 : Host.t) :
  Host.fair h1 → Host.fair h2 →
  ∀ pt pos1 pos2, PathsAt h1 pos1 pt ≡ₚ PathsAt h2 pos2 pt.
Proof.
  intros Hf1 Hf2 pt.
  induction pt as [pt IH] using BazelPackageTree_branch_ind. intros pos1 pos2.
  rewrite !PathsAt_unfold. rewrite (Hf1 pos1), (Hf2 pos2).
  apply bind_Permutation_pointwise. intros part _.
  destruct (branches pt !! part) as [branch|] eqn:Hl; [|done].
  apply branchPaths_Permutation. by eapply IH.
Qed.

Section GlobFacts.
Context (h1 h2 : Host.t).
Context (HGlob : ∀ pattern, Host.Glob h1 pattern = Host.Glob h2 pattern).
Context (HRel : ∀ basepath targpath,
            Host.Rel h1 basepath targpath = Host.Rel h2 basepath targpath).
Context (HisPkg : ∀ dir, Host.isBazelPackage h1 dir = Host.isBazelPackage h2 dir).

Lemma addPathFrom_host (pkg0 : string) (parts rest : list string) (i : nat)
    (branches0 : gmap string BazelPackageTree) :
  addPathFrom h1 pkg0 parts i rest branches0 = addPathFrom h2 pkg0 parts i rest branches0.
Proof.
  revert i branches0. induction rest as [|part rest IH]; intros i branches0; [done|].
  simpl. rewrite HisPkg. by rewrite !IH.
Qed.

Lemma AddPath_host (pt : BazelPackageTree) (parts : list string) :
  AddPath h1 pt parts = AddPath h2 pt parts.
Proof. unfold AddPath. by rewrite addPathFrom_host. Qed.

Lemma relOrEmpty_host (basepath targpath : string) :
  relOrEmpty h1 basepath targpath = relOrEmpty h2 basepath targpath.
Proof. unfold relOrEmpty. by rewrite HRel. Qed.

Lemma excludeLoop_host (absPkg : string) (patterns : list Value)
    (excludeSet : gset string) :
  excludeLoop h1 absPkg patterns excludeSet = excludeLoop h2 absPkg patterns excludeSet.
Proof.
  revert excludeSet. induction patterns as [|v patterns IH]; intros excludeSet; [done|].
  destruct v; try done. simpl. rewrite HGlob.
  destruct (Host.Glob h2 _) as [err|matches]; [done|].
  rewrite IH. f_equal.
  revert excludeSet. induction matches as [|m matches IHm]; intros excludeSet; [done|].
  simpl. rewrite relOrEmpty_host. apply IHm.
Qed.

Lemma includeMatches_host (absPkg : string) (excludeSet : gset string)
    (matches : list string) (tree : BazelPackageTree) :
  includeMatches h1 absPkg excludeSet tree matches
    = includeMatches h2 absPkg excludeSet tree matches.
Proof.
  revert tree. induction matches as [|m matches IH]; intros tree; [done|].
  unfold includeMatches in *. simpl. rewrite relOrEmpty_host, AddPath_host. apply IH.
Qed.

Lemma includeLoop_host (absPkg : string) (excludeSet : gset string)
    (patterns : list Value) (tree : BazelPackageTree) :
  includeLoop h1 absPkg excludeSet patterns tree
    = includeLoop h2 absPkg excludeSet patterns tree.
Proof.
  revert tree. induction patterns as [|v patterns IH]; intros tree; [done|].
  destruct v; try done. simpl. rewrite HGlob.
  destruct (Host.Glob h2 _) as [err|matches]; [done|].
  by rewrite includeMatches_host, IH.
Qed.

(** C2, as the code has it: two calls with the same arguments, package
    directory and file system log the same and either fail with the same
    error or return the same paths, each as often, in an order that is the
    runtime's choice: the lists are permutations of each other. *)
Theorem Glob_same_paths_up_to_order (g : Globber.t) (args : list Value)
    (kwargs : list (string * Value)) (out : list string) :
  Host.fair h1 → Host.fair h2 →
  (Glob h1 g args kwargs out).1 = (Glob h2 g args kwargs out).1
  ∧ match (Glob h1 g args kwargs out).2, (Glob h2 g args kwargs out).2 with
    | Ok (VList result1), Ok (VList result2) => result1 ≡ₚ result2
    | outcome1, outcome2 => outcome1 = outcome2
    end.
Proof.
  intros Hf1 Hf2. unfold Glob.
  destruct (decide (1 < length args)%nat); [done|].
  unfold mbind, M_bind.
  destruct (globKwargs kwargs (head args) None true out)
    as [out1 [[[includeArg excludeArg] allowEmpty]|err|msg|status]]; try done.
  set (ex1 := match excludeArg with
              | Some (VList excludePatterns) => excludeLoop h1 _ excludePatterns ∅
              | Some _ => _ | None => _ end).
  set (ex2 := match excludeArg with
              | Some (VList excludePatterns) => excludeLoop h2 _ excludePatterns ∅
              | Some _ => _ | None => _ end).
  assert (ex1 = ex2) as ->.
  { subst ex1 ex2. destruct excludeArg as [[]|]; try done. apply excludeLoop_host. }
  destruct (ex2 out1) as [out2 [excludeSet|err|msg|status]]; try done.
  destruct includeArg as [[]|]; try done.
  rewrite includeLoop_host.
  destruct (includeLoop h2 _ excludeSet elems _ out2)
    as [out3 [tree|err|msg|status]]; try done.
  pose proof (PathsAt_Permutation h1 h2 Hf1 Hf2 tree [] []) as Hperm.
  unfold Paths. rewrite <- (Permutation_length Hperm).
  destruct (negb allowEmpty && bool_decide (length (PathsAt h1 [] tree) = 0%nat));
    [done|].
  simpl. split; [done|]. by rewrite Hperm.
Qed.

End GlobFacts.

Lemma exHost_fair (rev : bool) : Host.fair (exHost rev).
Proof.
  intros pos keys. destruct rev; simpl; [|done]. apply reverse_Permutation.
Qed.

Lemma Glob_same_paths_up_to_order_witness :
  (Host.fair (exHost false) ∧ Host.fair (exHost true))
  ∧ [VString "a.py"; VString "b.py"] ≡ₚ [VString "b.py"; VString "a.py"].
Proof.
  split; [split; apply exHost_fair|].
  pose proof (proj2 (Glob_same_paths_up_to_order (exHost false) (exHost true)
                       (λ _, eq_refl) (λ _ _, eq_refl) (λ _, eq_refl)
                       exGlobber [VList [VString "*.py"]] [] []
                       (exHost_fair false) (exHost_fair true))) as H.
  vm_compute in H. exact H.
Defined.

(** C2 at a concrete input: the same call, [glob(["*.py"])] in the package
    [pkg], on the same file system; the runtime ranges over the branches of
    the tree in one order in the first call and in the opposite order in the
    second, and the two lists differ. *)
Lemma Glob_order_is_the_runtimes_choice :
  Host.Glob (exHost false) = Host.Glob (exHost true)
  ∧ Host.Rel (exHost false) = Host.Rel (exHost true)
  ∧ Host.isBazelPackage (exHost false) = Host.isBazelPackage (exHost true)
  ∧ Host.fair (exHost false) ∧ Host.fair (exHost true)
  ∧ Glob (exHost false) exGlobber [VList [VString "*.py"]] [] []
      = ([], Ok (VList [VString "a.py"; VString "b.py"]))
  ∧ Glob (exHost true) exGlobber [VList [VString "*.py"]] [] []
      = ([], Ok (VList [VString "b.py"; VString "a.py"]))
  ∧ Glob (exHost false) exGlobber [VList [VString "*.py"]] [] []
      ≠ Glob (exHost true) exGlobber [VList [VString "*.py"]] [] [].
Proof.
  split; [reflexivity|]. split; [reflexivity|]. split; [reflexivity|].
  split; [apply exHost_fair|]. split; [apply exHost_fair|].
  assert (H1 : Glob (exHost false) exGlobber [VList [VString "*.py"]] [] []
                 = ([], Ok (VList [VString "a.py"; VString "b.py"])))
    by (vm_compute; reflexivity).
  assert (H2 : Glob (exHost true) exGlobber [VList [VString "*.py"]] [] []
                 = ([], Ok (VList [VString "b.py"; VString "a.py"])))
    by (vm_compute; reflexivity).
  split; [exact H1|]. split; [exact H2|].
  rewrite H1, H2. intros E. discriminate E.
Qed.

(** C3 at a concrete input: [pkg/sub] holds a build file.  [glob(["*",
    "sub/*.py"])] matches the directory [sub] itself first, so that the node
    is made as a leaf, without the test for a build file; [sub/c.py] is then
    added below it and reported.  With the patterns the other way round the
    node is made as a directory, found to be a package, and nothing below it
    is reported. *)
Lemma Paths_crosses_package_made_as_leaf :
  Host.isBazelPackage (exHost false) (GoPath.Join ["pkg"; GoPath.Join ["sub"]]) = true
  ∧ Paths (exHost false)
      (AddPath (exHost false)
         (AddPath (exHost false) (NewBazelPackageTree "pkg") ["sub"]) ["sub"; "c.py"])
      = ["sub"; "sub/c.py"]
  ∧ Paths (exHost false)
      (AddPath (exHost false)
         (AddPath (exHost false) (NewBazelPackageTree "pkg") ["sub"; "c.py"]) ["sub"])
      = []
  ∧ Glob (exHost false) exGlobber [VList [VString "sub/*.py"; VString "*"]] [] []
      = ([], Ok (VList [VString "a.py"; VString "b.py"]))
  ∧ Glob (exHost false) exGlobber [VList [VString "*"; VString "sub/*.py"]] [] []
      = ([], Ok (VList [VString "sub"; VString "sub/c.py"; VString "a.py"; VString "b.py"])).
Proof.
  split; [reflexivity|]. split; [vm_compute; reflexivity|].
  split; [vm_compute; reflexivity|]. split; vm_compute; reflexivity.
Qed.

Section DedupFacts.
Context (h : Host.t).





Lemma plainTree_inv (pt : BazelPackageTree) (part : string) (branch : BazelPackageTree) :
  plainTree pt → branches pt !! part = Some branch →
  isPlain part = true ∧ plainTree branch.
Proof. intros Hpt Hl. inversion Hpt as [? H1 H2]. eauto. Qed.

Lemma addPathFrom_plain (pkg0 : string) (parts rest : list string) (i : nat)
    (branches0 : gmap string BazelPackageTree) :
  Forall (λ part, isPlain part = true) rest →
  (∀ part branch, branches0 !! part = Some branch →
     isPlain part = true ∧ plainTree branch) →
  ∀ part branch,
    addPathFrom h pkg0 parts i rest branches0 !! part = Some branch →
    isPlain part = true ∧ plainTree branch.
Proof.
  intros Hrest. revert i branches0.
  induction Hrest as [|part0 rest Hp Hrest IH]; intros i branches0 Hbs part branch; [by auto|].
  simpl. destruct (decide (part0 = part)) as [->|Hne].
  - rewrite lookup_insert_eq. intros [= <-]. split; [done|].
    constructor; simpl; intros part' branch' Hl; eapply IH; try exact Hl;
      (destruct (branches0 !! part) as [b|] eqn:Hb; simpl;
        [ intros p' b' Hl'; destruct (Hbs _ _ Hb) as [_ Hplain];
          by eapply plainTree_inv
        | intros p' b' Hl'; by rewrite lookup_empty in Hl' ]).
  - rewrite lookup_insert_ne by done. apply Hbs.
Qed.

Lemma NewBazelPackageTree_plain (pkg0 : string) : plainTree (NewBazelPackageTree pkg0).
Proof. constructor; simpl; intros part branch Hl; by rewrite lookup_empty in Hl. Qed.

Lemma AddPath_plain (pt : BazelPackageTree) (parts : list string) :
  plainTree pt → Forall (λ part, isPlain part = true) parts →
  plainTree (AddPath h pt parts).
Proof.
  intros Hpt Hparts.
  constructor; simpl; intros part branch Hl;
    eapply (addPathFrom_plain _ _ _ _ _ Hparts); try exact Hl;
    intros p b Hb; by eapply plainTree_inv.
Qed.

Lemma AddPaths_plain (pt : BazelPackageTree) (inserted : list (list string)) :
  plainTree pt → Forall (Forall (λ part, isPlain part = true)) inserted →
  plainTree (foldl (AddPath h) pt inserted).
Proof.
  intros Hpt Hins. revert pt Hpt.
  induction Hins as [|parts inserted Hparts _ IH]; intros pt Hpt; [done|].
  simpl. apply IH. by apply AddPath_plain.
Qed.

Context (Hfair : Host.fair h).

Lemma elem_of_rangeOrder (pos : list string) (pt : BazelPackageTree) (part : string) :
  part ∈ Host.rangeOrder h pos (map_to_list (branches pt)).*1 ↔
    is_Some (branches pt !! part).
Proof.
  rewrite (Hfair pos). rewrite list_elem_of_fmap. split.
  - intros ([k b] & -> & Hin). apply elem_of_map_to_list in Hin. by exists b.
  - intros [b Hb]. exists (part, b). split; [done|]. by apply elem_of_map_to_list.
Qed.

(** Membership in [Paths], one level down. *)
Lemma elem_of_PathsAt (pos : list string) (pt : BazelPackageTree) (s : string) :
  s ∈ PathsAt h pos pt ↔
    ∃ part branch, branches pt !! part = Some branch
      ∧ s ∈ branchPaths part branch (PathsAt h (pos ++ [part]) branch).
Proof.
  rewrite PathsAt_unfold, list_elem_of_bind. split.
  - intros (part & Hs & Hin). apply elem_of_rangeOrder in Hin as [branch Hb].
    rewrite Hb in Hs. eauto.
  - intros (part & branch & Hb & Hs). exists part. rewrite Hb. split; [done|].
    apply elem_of_rangeOrder. eauto.
Qed.

Lemma elem_of_branchPaths (part : string) (branch : BazelPackageTree)
    (below : list string) (s : string) :
  s ∈ branchPaths part branch below ↔
    isBazelPackage branch = false
    ∧ ((isFile branch = true ∧ s = part)
       ∨ ∃ branchPath, branchPath ∈ below ∧ s = GoPath.Join [part; branchPath]).
Proof.
  unfold branchPaths. destruct (isBazelPackage branch).
  { split; [by intros ?%elem_of_nil|by intros [? _]]. }
  rewrite elem_of_app, list_elem_of_fmap. destruct (isFile branch).
  - rewrite list_elem_of_singleton. split.
    + intros [->|(sub & -> & Hsub)]; (split; [done|]); [by left|right; eauto].
    + intros [_ [[_ ->]|(sub & Hsub & ->)]]; [by left|right; eauto].
  - split.
    + intros [?%elem_of_nil|(sub & -> & Hsub)]; [done|]. split; [done|]. right; eauto.
    + intros [_ [[? _]|(sub & Hsub & ->)]]; [done|right; eauto].
Qed.

(** What [Paths] lists is the rendering of a way through the tree that ends
    at a file and passes through no node marked as a package. *)
Lemma PathsAt_sound (pt : BazelPackageTree) :
  plainTree pt → ∀ pos s, s ∈ PathsAt h pos pt →
  wfPath s ∧ reported pt (GoStrings.Split s "/") = true.
Proof.
  induction pt as [pt IH] using BazelPackageTree_branch_ind.
  intros Hplain pos s (part & branch & Hb & Hs)%elem_of_PathsAt.
  destruct (plainTree_inv _ _ _ Hplain Hb) as [Hpart Hbranch].
  apply elem_of_branchPaths in Hs as [Hpkg [[Hfile ->]|(sub & Hsub & ->)]].
  - unfold wfPath, GoPath.Separator. rewrite (isPlain_Split _ Hpart).
    split; [by constructor|]. simpl. by rewrite Hb, Hpkg, Hfile.
  - destruct (IH _ _ Hb Hbranch _ _ Hsub) as [Hwf Hrep].
    destruct (Join_plain part sub Hpart Hwf) as [-> Hsplit].
    unfold wfPath, GoPath.Separator in *. rewrite Hsplit.
    split; [by constructor|]. simpl. rewrite Hb, Hpkg. simpl.
    pose proof (Split_nonempty sub "/").
    by destruct (GoStrings.Split sub "/").
Qed.

Lemma branchPaths_head (part : string) (branch : BazelPackageTree)
    (below : list string) (s : string) :
  isPlain part = true → (∀ sub, sub ∈ below → wfPath sub) →
  s ∈ branchPaths part branch below →
  ∃ rest, GoStrings.Split s "/" = part :: rest.
Proof.
  intros Hpart Hbelow [_ [[_ ->]|(sub & Hsub & ->)]]%elem_of_branchPaths.
  - exists []. by apply isPlain_Split.
  - destruct (Join_plain part sub Hpart (Hbelow _ Hsub)) as [-> Hsplit]. eauto.
Qed.

Lemma branchPaths_NoDup (part : string) (branch : BazelPackageTree)
    (below : list string) :
  isPlain part = true → (∀ sub, sub ∈ below → wfPath sub) →
  NoDup below → NoDup (branchPaths part branch below).
Proof.
  intros Hpart Hbelow Hnd. unfold branchPaths.
  destruct (isBazelPackage branch); [constructor|].
  assert (NoDup ((λ branchPath, GoPath.Join [part; branchPath]) <$> below)) as Hnd'.
  { apply NoDup_fmap_2_strong; [|done]. intros s1 s2 H1 H2.
    destruct (Join_plain part s1 Hpart (Hbelow _ H1)) as [-> _].
    destruct (Join_plain part s2 Hpart (Hbelow _ H2)) as [-> _].
    intros E. apply (inj (String.app part)) in E. by injection E. }
  destruct (isFile branch); [|done].
  apply NoDup_app. split; [apply NoDup_singleton|]. split; [|done].
  intros s ->%list_elem_of_singleton (sub & E & Hsub)%list_elem_of_fmap.
  destruct (Join_plain part sub Hpart (Hbelow _ Hsub)) as [Hj _].
  rewrite Hj in E. by apply append_ne_self in E.
Qed.

(** No path is listed twice. *)
Lemma PathsAt_NoDup (pt : BazelPackageTree) :
  plainTree pt → ∀ pos, NoDup (PathsAt h pos pt).
Proof.
  induction pt as [pt IH] using BazelPackageTree_branch_ind.
  intros Hplain pos. rewrite PathsAt_unfold. apply NoDup_bind.
  - intros part1 part2 s [b1 Hb1]%elem_of_rangeOrder [b2 Hb2]%elem_of_rangeOrder.
    rewrite Hb1, Hb2. intros Hs1 Hs2.
    destruct (plainTree_inv _ _ _ Hplain Hb1) as [Hp1 Hpl1].
    destruct (plainTree_inv _ _ _ Hplain Hb2) as [Hp2 Hpl2].
    assert (∀ part branch sub, branches pt !! part = Some branch →
              sub ∈ PathsAt h (pos ++ [part]) branch → wfPath sub) as Hwf.
    { intros part b sub Hb Hsub.
      destruct (plainTree_inv _ _ _ Hplain Hb) as [_ Hpl].
      by destruct (PathsAt_sound b Hpl _ _ Hsub). }
    destruct (branchPaths_head _ _ _ _ Hp1 (λ sub, Hwf _ _ sub Hb1) Hs1) as [r1 E1].
    destruct (branchPaths_head _ _ _ _ Hp2 (λ sub, Hwf _ _ sub Hb2) Hs2) as [r2 E2].
    congruence.
  - intros part [b Hb]%elem_of_rangeOrder. rewrite Hb.
    destruct (plainTree_inv _ _ _ Hplain Hb) as [Hp Hpl].
    apply branchPaths_NoDup; [done| |by eapply IH].
    intros sub Hsub. by destruct (PathsAt_sound b Hpl _ _ Hsub).
  - rewrite (Hfair pos). apply NoDup_fst_map_to_list.
Qed.

(** Every way through the tree that ends at a file without passing through
    a node marked as a package is listed. *)
Lemma PathsAt_complete (parts : list string) :
  Forall (λ part, isPlain part = true) parts →
  ∀ pt pos, reported pt parts = true →
  GoStrings.Join parts "/" ∈ PathsAt h pos pt.
Proof.
  induction 1 as [|part rest Hpart Hrest IH]; intros pt pos Hrep; [done|].
  simpl in Hrep. destruct (branches pt !! part) as [branch|] eqn:Hb; [|done].
  apply andb_prop in Hrep as [Hpkg Hrep]. apply negb_true_iff in Hpkg.
  apply elem_of_PathsAt. exists part, branch. split; [done|].
  apply elem_of_branchPaths. split; [done|].
  destruct rest as [|part' rest]; [by left|right].
  exists (GoStrings.Join (part' :: rest) "/"). split; [by apply IH|].
  assert (wfPath (GoStrings.Join (part' :: rest) "/")) as Hwf.
  { unfold wfPath, GoPath.Separator. by rewrite Split_Join_plain. }
  by destruct (Join_plain part _ Hpart Hwf) as [-> _].
Qed.

End DedupFacts.



Section MarkFacts.
Context (h : Host.t) (pkg0 : string).

Lemma markedRight_mono (inserted inserted' : list (list string))
    (pos : list string) (node : BazelPackageTree) :
  inserted ⊆ inserted' →
  markedRight h pkg0 inserted pos node → markedRight h pkg0 inserted' pos node.
Proof.
  intros Hsub. induction 1 as [pos node Hfile Hdir _ IH].
  constructor; [|done|done]. intros Hf. destruct (Hfile Hf). split; [done|]. by apply Hsub.
Qed.

(** [AddPath] keeps the marks right, one level of the loop at a time. *)
Lemma addPathFrom_marked (inserted : list (list string)) (parts rest pre : list string)
    (branches0 : gmap string BazelPackageTree) :
  parts = pre ++ rest →
  (∀ part branch, branches0 !! part = Some branch →
     markedRight h pkg0 inserted (pre ++ [part]) branch) →
  ∀ part branch,
    addPathFrom h pkg0 parts (length pre) rest branches0 !! part = Some branch →
    markedRight h pkg0 (parts :: inserted) (pre ++ [part]) branch.
Proof.
  revert pre branches0. induction rest as [|part0 rest IH]; intros pre branches0 Hparts Hbs part branch.
  { simpl. intros Hl. eapply markedRight_mono; [|by eapply Hbs].
    intros x Hx. by right. }
  simpl. destruct (decide (part0 = part)) as [->|Hne].
  2:{ rewrite lookup_insert_ne by done. intros Hl.
      eapply markedRight_mono; [|by eapply Hbs]. intros x Hx. by right. }
  rewrite lookup_insert_eq. intros [= <-].
  assert (parts = (pre ++ [part]) ++ rest) as Hparts' by by rewrite <- app_assoc.
  assert (S (length pre) = length (pre ++ [part])) as Hlen
    by (rewrite length_app; simpl; lia).
  destruct (branches0 !! part) as [b|] eqn:Hb.
  - pose proof (Hbs _ _ Hb) as Hright. inversion Hright as [? ? Hfile Hdir Hsub]; subst.
    constructor; simpl.
    + intros Hf. destruct (Hfile Hf). split; [done|]. by right.
    + done.
    + rewrite Hlen. by apply IH.
  - constructor; simpl.
    + intros Hf. split; [by rewrite Hf|]. apply bool_decide_eq_true in Hf.
      assert (rest = []) as ->.
      { rewrite Hparts, !length_app in Hf. simpl in Hf.
        destruct rest; [done|simpl in Hf; lia]. }
      rewrite <- Hparts. by left.
    + intros Hf. rewrite Hf. unfold dirOf. do 3 f_equal.
      rewrite Hparts', Nat.add_1_r, Hlen. by rewrite take_app_length.
    + rewrite Hlen. apply IH; [done|]. intros ? ? Hl. by rewrite lookup_empty in Hl.
Qed.

Lemma AddPaths_marked (inserted done_ : list (list string)) (pt : BazelPackageTree) :
  pkg pt = pkg0 →
  (∀ part branch, branches pt !! part = Some branch →
     markedRight h pkg0 done_ [part] branch) →
  ∀ part branch,
    branches (foldl (AddPath h) pt inserted) !! part = Some branch →
    markedRight h pkg0 (inserted ++ done_) [part] branch.
Proof.
  revert done_ pt. induction inserted as [|parts inserted IH]; intros done_ pt Hpkg Hpt; [done|].
  simpl. intros part branch Hl.
  eapply markedRight_mono; [|eapply (IH (parts :: done_)); [| |exact Hl]].
  - intros x Hx. simpl. rewrite elem_of_app, elem_of_cons in Hx.
    rewrite elem_of_cons, elem_of_app. tauto.
  - done.
  - simpl. rewrite Hpkg. intros p b Hb.
    by eapply (addPathFrom_marked done_ parts parts [] (branches pt)).
Qed.

(** Along a listed path every directory that holds a build file is itself
    one of the added paths. *)
Lemma reported_marked (inserted : list (list string)) (parts : list string) :
  ∀ (pre : list string) (node : BazelPackageTree),
    (∀ part branch, branches node !! part = Some branch →
       markedRight h pkg0 inserted (pre ++ [part]) branch) →
    reported node parts = true →
    ∀ dir below, parts = dir ++ below → dir ≠ [] → below ≠ [] →
      Host.isBazelPackage h (dirOf pkg0 (pre ++ dir)) = true →
      pre ++ dir ∈ inserted.
Proof.
  induction parts as [|part rest IH]; intros pre node Hnode Hrep dir below Hsplit Hdir Hbelow Hpkg;
    [done|].
  simpl in Hrep. destruct (branches node !! part) as [branch|] eqn:Hb; [|done].
  apply andb_prop in Hrep as [Hunmarked Hrep]. apply negb_true_iff in Hunmarked.
  pose proof (Hnode _ _ Hb) as Hright. inversion Hright as [? ? Hfile Hnofile Hsub]; subst.
  destruct dir as [|d dir]; [done|]. injection Hsplit as <- ->.
  destruct dir as [|d' dir].
  - destruct (isFile branch) eqn:Hf; [by destruct (Hfile eq_refl)|].
    rewrite (Hnofile eq_refl), Hpkg in Hunmarked. done.
  - replace (pre ++ part :: d' :: dir) with ((pre ++ [part]) ++ d' :: dir)
      by by rewrite <- app_assoc.
    eapply (IH (pre ++ [part]) branch Hsub Hrep (d' :: dir) below); try done.
    by rewrite <- app_assoc.
Qed.

End MarkFacts.

(** What does hold of package boundaries: in the tree that a series of
    [AddPath] calls builds from paths whose elements are ordinary names, a
    listed path lies beneath a directory with a build file only if that very
    directory was added as a path of its own. *)
Lemma Paths_boundary_unless_added (h : Host.t) (pkg0 : string)
    (inserted : list (list string)) (s : string) (dir below : list string) :
  Host.fair h →
  Forall (Forall (λ part, isPlain part = true)) inserted →
  s ∈ Paths h (foldl (AddPath h) (NewBazelPackageTree pkg0) inserted) →
  GoStrings.Split s "/" = dir ++ below → dir ≠ [] → below ≠ [] →
  Host.isBazelPackage h (dirOf pkg0 dir) = true →
  dir ∈ inserted.
Proof.
  intros Hfair Hplain Hin Hsplit Hdir Hbelow Hpkg.
  assert (plainTree (foldl (AddPath h) (NewBazelPackageTree pkg0) inserted)) as Hpl.
  { apply AddPaths_plain; [apply NewBazelPackageTree_plain|done]. }
  destruct (PathsAt_sound h Hfair _ Hpl _ _ Hin) as [_ Hrep].
  rewrite Hsplit in Hrep.
  apply (reported_marked h pkg0 inserted (dir ++ below) []
           (foldl (AddPath h) (NewBazelPackageTree pkg0) inserted)) with (below := below).
  - intros part branch Hb. rewrite <- (app_nil_r inserted).
    apply (AddPaths_marked h pkg0 inserted [] (NewBazelPackageTree pkg0)).
    + reflexivity.
    + intros part' branch' Hl. simpl in Hl. rewrite lookup_empty in Hl. discriminate Hl.
    + exact Hb.
  - exact Hrep.
  - reflexivity.
  - exact Hdir.
  - exact Hbelow.
  - exact Hpkg.
Qed.

(** The examples of the specification, run on the code. *)
Example allow_empty_enforced :
  Glob (exHost false) exGlobber [VList [VString "nomatch/*.py"]]
    [("allow_empty", VBool false)] []
    = ([], Err "failed glob: 'allow_empty' was set and the result was empty")
  ∧ Glob (exHost false) exGlobber [VList [VString "nomatch/*.py"]] [] []
    = ([], Ok (VList [])).
Proof. split; vm_compute; reflexivity. Qed.

Example exclude_wins_over_include :
  Glob (exHost false) exGlobber [VList [VString "*.py"]]
    [("exclude", VList [VString "a*"])] []
  = ([], Ok (VList [VString "b.py"])).
Proof. vm_compute. reflexivity. Qed.

Example exclude_directories_is_not_enforced :
  Glob (exHost false) exGlobber [VList [VString "*"]]
    [("exclude_directories", VInt 1)] []
  = (["WARNING: the 'exclude_directories' attribute of 'glob' was set but is not supported by Gazelle"],
     Ok (VList [VString "sub"; VString "a.py"; VString "b.py"])).
Proof. vm_compute. reflexivity. Qed.

(** * Further facts *)

(** ** Further facts about the resolver *)

Section LoopFacts.
Context (ix : Index.t) (cfg : pythonconfig.Config) (from : label.Label).

Lemma framed_skip : framed (λ st, st).
Proof.
  exists ∅, false, []. split.
  - intros st. by rewrite union_empty_l_L, orb_false_r, app_nil_r.
  - rewrite size_empty. simpl. split; [lia|]. split; [lia|done].
Qed.

Lemma framed_addDep (dep : string) (line : Diagnostic) :
  framed (λ st, addDep ix st dep line).
Proof.
  exists {[ dep ]}, false,
    (if decide (Index.explainDependency ix = dep) then [line] else []).
  split.
  - intros st. unfold addDep. simpl. by rewrite orb_false_r.
  - rewrite size_singleton. split; [lia|]. split; [|done].
    case_decide; simpl; lia.
Qed.

Lemma framed_fatalError (line : Diagnostic) : framed (λ st, fatalError st line).
Proof.
  exists ∅, true, [line]. split.
  - intros st. unfold fatalError. simpl. by rewrite union_empty_l_L, orb_true_r.
  - rewrite size_empty. simpl. split; [lia|]. split; [lia|done].
Qed.

Lemma framed_narrowed (mod_ : module) (fm : list resolve.FindResult) :
  framed (λ st,
    if decide (length fm = 0%nat) then st
    else
      match
        (if decide (1 < length fm)%nat
         then if decide (length (sameRoot cfg fm) ≠ 1%nat) then None
              else Some (sameRoot cfg fm)
         else Some fm)
      with
      | None => fatalError st (AmbiguousImport (targetListFromResults fm) mod_)
      | Some [] => st
      | Some (first :: _) =>
          let matchLabel :=
            label.Rel (resolve.Label first) (label.Repo from) (label.Pkg from) in
          let dep := label.String matchLabel in
          addDep ix st dep (ExplainFirstParty dep from mod_)
      end).
Proof.
  destruct (decide (length fm = 0%nat)); [apply framed_skip|].
  destruct (decide (1 < length fm)%nat).
  - destruct (decide (length (sameRoot cfg fm) ≠ 1%nat)); [apply framed_fatalError|].
    destruct (sameRoot cfg fm); [apply framed_skip|apply framed_addDep].
  - destruct fm; [apply framed_skip|apply framed_addDep].
Qed.

Lemma resolveModule_framed (mod_ : module) :
  framed (λ st, resolveModule ix cfg from st mod_).
Proof.
  unfold resolveModule.
  destruct (Index.FindRuleWithOverride ix _ languageName) as [o|].
  { destruct (negb _); [apply framed_addDep|apply framed_skip]. }
  destruct (pythonconfig.ModulesMapping cfg !! Name mod_) as [d|];
    [apply framed_addDep|].
  unfold firstParty.
  generalize (Index.FindRulesByImportWithConfig ix
                {| resolve.Lang := languageName; resolve.Imp := Name mod_ |}
                languageName).
  intros matches.
  destruct (decide (length matches = 0%nat)) as [Hnil|Hcons].
  - unfold noMatches.
    destruct (Index.isStdModule ix mod_) as [err|[|]];
      [apply framed_fatalError|apply framed_skip|].
    destruct (pythonconfig.ValidateImportStatements cfg); [apply framed_fatalError|].
    destruct (filterMatches from matches []) as [fm|]; [|apply framed_skip].
    apply framed_narrowed.
  - destruct (filterMatches from matches []) as [fm|]; [|apply framed_skip].
    apply framed_narrowed.
Qed.

(** What a module does to the loop variables does not depend on what they
    hold: it is what the module does to the initial variables, added to them.
    A module adds at most one label and logs at most one line; when it
    records an error it adds no label. *)
Theorem resolveModule_frame (st : loopState) (mod_ : module) :
  let alone := resolveModule ix cfg from initialState mod_ in
  deps (resolveModule ix cfg from st mod_) = deps alone ∪ deps st
  ∧ hasFatalError (resolveModule ix cfg from st mod_)
      = hasFatalError st || hasFatalError alone
  ∧ logged (resolveModule ix cfg from st mod_) = logged st ++ logged alone
  ∧ (size (deps alone) ≤ 1)%nat
  ∧ (length (logged alone) ≤ 1)%nat
  ∧ (hasFatalError alone = true → deps alone = ∅ ∧ length (logged alone) = 1%nat).
Proof.
  destruct (resolveModule_framed mod_) as (added & fatal & lines & Hall & Hsize & Hlen & Hf).
  destruct (Hall initialState) as (Hd0 & Hf0 & Hl0).
  destruct (Hall st) as (Hd & Hfl & Hl).
  simpl in Hd0, Hf0, Hl0. rewrite union_empty_r_L in Hd0.
  intros alone. subst alone. rewrite Hd0, Hf0, Hl0. done.
Qed.

Lemma size_union_le (X Y : gset string) : (size (X ∪ Y) ≤ size X + size Y)%nat.
Proof.
  rewrite size_union_alt. pose proof (subseteq_size (Y ∖ X) Y) as Hle.
  assert (Y ∖ X ⊆ Y) as Hsub.
  { intros x Hx. apply elem_of_difference in Hx. tauto. }
  specialize (Hle Hsub). lia.
Qed.

(** The loop as a whole, in terms of what each module does alone. *)
Lemma moduleLoop_fields (modules : list module) (st : loopState) :
  deps (moduleLoop ix cfg from st modules)
    = ⋃ ((λ mod_, deps (resolveModule ix cfg from initialState mod_)) <$> modules)
        ∪ deps st
  ∧ hasFatalError (moduleLoop ix cfg from st modules)
      = hasFatalError st
        || existsb (λ mod_, hasFatalError (resolveModule ix cfg from initialState mod_))
             modules
  ∧ logged (moduleLoop ix cfg from st modules)
      = logged st
        ++ (modules ≫= λ mod_, logged (resolveModule ix cfg from initialState mod_)).
Proof.
  revert st. induction modules as [|m ms IH]; intros st.
  - simpl. by rewrite union_empty_l_L, orb_false_r, app_nil_r.
  - unfold moduleLoop in *. simpl.
    destruct (IH (resolveModule ix cfg from st m)) as (Hd & Hf & Hl).
    destruct (resolveModule_framed m) as (added & fatal & lines & Hall & _).
    destruct (Hall initialState) as (Hd0 & Hf0 & Hl0).
    destruct (Hall st) as (Hd1 & Hf1 & Hl1).
    simpl in Hd0, Hf0, Hl0. rewrite union_empty_r_L in Hd0.
    rewrite Hd, Hf, Hl, Hd1, Hf1, Hl1, Hd0, Hf0, Hl0.
    split; [|split].
    + simpl. rewrite (assoc_L (∪)). f_equal. apply (comm_L (∪)).
    + simpl. by rewrite orb_assoc.
    + simpl. by rewrite <- app_assoc.
Qed.

(** The loop never takes anything back: what the variables held before is
    still there afterwards, and the loop adds what it would add to the initial
    variables: at most one label and one line of log for each module. *)
Theorem moduleLoop_frame (st : loopState) (modules : list module) :
  let alone := moduleLoop ix cfg from initialState modules in
  deps (moduleLoop ix cfg from st modules) = deps alone ∪ deps st
  ∧ hasFatalError (moduleLoop ix cfg from st modules)
      = hasFatalError st || hasFatalError alone
  ∧ logged (moduleLoop ix cfg from st modules) = logged st ++ logged alone
  ∧ (size (deps alone) ≤ length modules)%nat
  ∧ (length (logged alone) ≤ length modules)%nat.
Proof.
  intros alone. subst alone.
  destruct (moduleLoop_fields modules st) as (Hd & Hf & Hl).
  destruct (moduleLoop_fields modules initialState) as (Hd0 & Hf0 & Hl0).
  simpl in Hd0, Hf0, Hl0. rewrite union_empty_r_L in Hd0.
  rewrite Hd, Hf, Hl, Hd0, Hf0, Hl0. repeat split.
  - clear. induction modules as [|m ms IH].
    { change (size (∅ : gset string) ≤ 0)%nat. by rewrite size_empty. }
    rewrite fmap_cons, union_list_cons. simpl length. destruct (resolveModule_framed m) as (added & fatal & lines & Hall & Hs & _).
    destruct (Hall initialState) as (Hd0 & _). simpl in Hd0.
    rewrite union_empty_r_L in Hd0.
    pose proof (size_union_le (deps (resolveModule ix cfg from initialState m))
                  (⋃ ((λ mod_, deps (resolveModule ix cfg from initialState mod_)) <$> ms))).
    rewrite Hd0 in *. lia.
  - clear. induction modules as [|m ms IH]; [done|].
    rewrite bind_cons, length_app. simpl.
    destruct (resolveModule_framed m) as (added & fatal & lines & Hall & _ & Hlen & _).
    destruct (Hall initialState) as (_ & _ & Hl0). simpl in Hl0.
    rewrite Hl0. lia.
Qed.

Lemma existsb_Permutation {A} (f : A → bool) (l l' : list A) :
  l ≡ₚ l' → existsb f l = existsb f l'.
Proof.
  induction 1 as [|x l l' _ IH|x y l|l l' l'' _ IH1 _ IH2]; simpl.
  - done.
  - by rewrite IH.
  - by destruct (f x), (f y).
  - by rewrite IH1.
Qed.

(** The order of the modules does not matter to the outcome: the same
    modules in another order give the same rule or the same exit, and the
    same lines of log in another order. *)
Theorem Resolve_order_independent (r : rule.Rule) (modules modules' : list module) :
  modules ≡ₚ modules' →
  (Resolve ix cfg r (Some modules) from).2 = (Resolve ix cfg r (Some modules') from).2
  ∧ (Resolve ix cfg r (Some modules) from).1 ≡ₚ (Resolve ix cfg r (Some modules') from).1.
Proof.
  intros Hperm. unfold Resolve. fold initialState.
  destruct (moduleLoop_fields modules initialState) as (Hd & Hf & Hl).
  destruct (moduleLoop_fields modules' initialState) as (Hd' & Hf' & Hl').
  assert (deps (moduleLoop ix cfg from initialState modules)
          = deps (moduleLoop ix cfg from initialState modules')) as Hdeps.
  { rewrite Hd, Hd'. by rewrite Hperm. }
  assert (hasFatalError (moduleLoop ix cfg from initialState modules)
          = hasFatalError (moduleLoop ix cfg from initialState modules')) as Hfatal.
  { rewrite Hf, Hf'. f_equal. by apply existsb_Permutation. }
  assert (logged (moduleLoop ix cfg from initialState modules)
          ≡ₚ logged (moduleLoop ix cfg from initialState modules')) as Hlog.
  { rewrite Hl, Hl'. by rewrite Hperm. }
  rewrite Hfatal.
  destruct (hasFatalError (moduleLoop ix cfg from initialState modules')); simpl.
  - done.
  - by rewrite Hdeps.
Qed.

End LoopFacts.

Lemma Resolve_order_independent_witness :
  [exModule "x.y" 3; exModule "missing" 6; exModule "numpy" 2]
    ≡ₚ [exModule "numpy" 2; exModule "x.y" 3; exModule "missing" 6]
  ∧ (Resolve exIndex (exConfig false) exRule
       (Some [exModule "x.y" 3; exModule "missing" 6; exModule "numpy" 2]) exFrom).2
    = (Resolve exIndex (exConfig false) exRule
         (Some [exModule "numpy" 2; exModule "x.y" 3; exModule "missing" 6]) exFrom).2.
Proof.
  assert (H : [exModule "x.y" 3; exModule "missing" 6; exModule "numpy" 2]
                ≡ₚ [exModule "numpy" 2; exModule "x.y" 3; exModule "missing" 6]).
  { symmetry.
    apply (Permutation_cons_append [exModule "x.y" 3; exModule "missing" 6]
             (exModule "numpy" 2)). }
  split; [exact H|].
  exact (proj1 (Resolve_order_independent exIndex (exConfig false) exFrom exRule _ _ H)).
Defined.

(** The [deps] attribute that [Resolve] leaves.  When [Resolve] returns, the
    labels worked out of the modules and the labels resolved in advance are
    written as a list of strings in ascending order, each label once; when
    there is no label at all the attribute is left as it was (an attribute
    that was there before is not removed).  No other attribute changes. *)
Theorem Resolve_deps_attribute (ix : Index.t) (cfg : pythonconfig.Config)
    (r r' : rule.Rule) (modulesRaw : option (list module)) (from : label.Label) :
  (Resolve ix cfg r modulesRaw from).2 = Ok r' →
  rule.Name r' = rule.Name r ∧ rule.srcs r' = rule.srcs r
  ∧ rule.imports r' = rule.imports r ∧ rule.uuid r' = rule.uuid r
  ∧ rule.resolvedDeps r' = rule.resolvedDeps r
  ∧ if decide (loopDeps ix cfg from modulesRaw ∪ rule.resolvedDeps r = ∅)
    then rule.deps r' = rule.deps r
    else ∃ labels : list string,
           rule.deps r' = Some (ListExpr (StringExpr <$> labels))
           ∧ StronglySorted String.le labels
           ∧ NoDup labels
           ∧ ∀ dep, dep ∈ labels ↔
               dep ∈ loopDeps ix cfg from modulesRaw ∨ dep ∈ rule.resolvedDeps r.
Proof.
  intros Hok.
  assert (r' = finishDeps r (loopDeps ix cfg from modulesRaw)) as ->.
  { unfold Resolve, loopDeps in *. destruct modulesRaw as [modules|]; simpl in Hok.
    - destruct (hasFatalError _); [done|]. simpl in Hok. by injection Hok as <-.
    - by injection Hok as <-. }
  unfold finishDeps. generalize (loopDeps ix cfg from modulesRaw). intros found.
  destruct (decide (found ∪ rule.resolvedDeps r = ∅)) as [Hempty|Hne]; [done|].
  simpl. repeat split; try done.
  exists (merge_sort String.le (elements (found ∪ rule.resolvedDeps r))).
  split; [done|]. split; [apply StronglySorted_merge_sort; apply _|]. split.
  - rewrite merge_sort_Permutation. apply NoDup_elements.
  - intros dep. rewrite merge_sort_Permutation, elem_of_elements, elem_of_union. done.
Qed.

Lemma Resolve_deps_attribute_witness :
  (Resolve exIndex (exConfig false) exRule
     (Some [exModule "x.y" 3; exModule "numpy" 2; exModule "x.y" 9]) exFrom).2
    = Ok (rule.SetDeps exRule
            (ListExpr [StringExpr "//a/b:lib"; StringExpr "@pip//pypi__numpy"]))
  ∧ rule.srcs (rule.SetDeps exRule
                 (ListExpr [StringExpr "//a/b:lib"; StringExpr "@pip//pypi__numpy"]))
      = rule.srcs exRule.
Proof.
  assert (H : (Resolve exIndex (exConfig false) exRule
                 (Some [exModule "x.y" 3; exModule "numpy" 2; exModule "x.y" 9]) exFrom).2
              = Ok (rule.SetDeps exRule
                      (ListExpr [StringExpr "//a/b:lib"; StringExpr "@pip//pypi__numpy"])))
    by (vm_compute; reflexivity).
  split; [exact H|].
  exact (proj1 (proj2 (Resolve_deps_attribute exIndex (exConfig false) exRule _ _ exFrom H))).
Defined.

(** ** The distribution token *)

Lemma lowerByte_facts (c : ascii) :
  isUpper (GoStrings.lowerByte c) = false
  ∧ GoStrings.lowerByte (GoStrings.lowerByte c) = GoStrings.lowerByte c
  ∧ (GoStrings.lowerByte c = "-"%char ↔ c = "-"%char).
Proof.
  destruct c as [[] [] [] [] [] [] [] []]; vm_compute;
    (split; [reflexivity|split; [reflexivity|split; congruence]]).
Qed.

Lemma byte_app (c : ascii) (s : string) : String c "" +:+ s = String c s.
Proof. reflexivity. Qed.

Lemma lowerByte_ascii (c : ascii) :
  (N_of_ascii (GoStrings.lowerByte c) <? 128)%N = (N_of_ascii c <? 128)%N.
Proof. destruct c as [[] [] [] [] [] [] [] []]; reflexivity. Qed.

Lemma lowerBytes_ReplaceAll (s : string) :
  GoStrings.lowerBytes (GoStrings.ReplaceAll s "-" "_")
    = GoStrings.ReplaceAll (GoStrings.lowerBytes s) "-" "_".
Proof.
  induction s as [|a s IH]; [done|]. simpl.
  destruct (lowerByte_facts a) as (_ & _ & Hdash).
  destruct (decide (a = "-"%char)) as [->|Hne].
  - rewrite decide_True by done. rewrite !byte_app. simpl. by rewrite IH.
  - rewrite decide_False by (by rewrite Hdash). simpl. by rewrite IH.
Qed.

Lemma lowerBytes_idemp (s : string) :
  GoStrings.lowerBytes (GoStrings.lowerBytes s) = GoStrings.lowerBytes s.
Proof.
  induction s as [|a s IH]; [done|]. simpl.
  destruct (lowerByte_facts a) as (_ & -> & _). by rewrite IH.
Qed.

Lemma isASCII_lowerBytes (s : string) :
  GoStrings.isASCII (GoStrings.lowerBytes s) = GoStrings.isASCII s.
Proof.
  induction s as [|a s IH]; [done|]. simpl. by rewrite lowerByte_ascii, IH.
Qed.

Lemma isASCII_ReplaceAll_dash (s : string) :
  GoStrings.isASCII s = true →
  GoStrings.isASCII (GoStrings.ReplaceAll s "-" "_") = true.
Proof.
  induction s as [|a s IH]; [done|]. simpl.
  intros [Ha Hs]%andb_prop. destruct (decide (a = "-"%char)) as [->|Hne].
  - rewrite byte_app. simpl. by apply IH.
  - simpl. rewrite Ha. by apply IH.
Qed.

(** On a text of ASCII bytes [strings.ToLower] is the byte map. *)
Lemma ToLower_ascii (mapToLower : string → string) (s : string) :
  GoStrings.isASCII s = true → GoStrings.ToLower mapToLower s = GoStrings.lowerBytes s.
Proof. unfold GoStrings.ToLower. by intros ->. Qed.

Lemma ReplaceAll_dash_idemp (s : string) :
  GoStrings.ReplaceAll (GoStrings.ReplaceAll s "-" "_") "-" "_"
    = GoStrings.ReplaceAll s "-" "_".
Proof.
  induction s as [|a s IH]; [done|]. simpl.
  destruct (decide (a = "-"%char)) as [->|Hne].
  - rewrite !byte_app. simpl. by rewrite IH.
  - simpl. rewrite decide_False by done. by rewrite IH.
Qed.

Lemma sanitized_bytes (s : string) :
  String.length (GoStrings.ReplaceAll (GoStrings.lowerBytes s) "-" "_") = String.length s
  ∧ Forall (λ c, c ≠ "-"%char ∧ isUpper c = false)
      (bytes (GoStrings.ReplaceAll (GoStrings.lowerBytes s) "-" "_")).
Proof.
  induction s as [|a s [IHl IHb]]; [split; [done|constructor]|]. simpl.
  destruct (lowerByte_facts a) as (Hup & _ & Hdash).
  destruct (decide (GoStrings.lowerByte a = "-"%char)) as [E|Hne].
  - rewrite byte_app. simpl. split; [by rewrite IHl|].
    constructor; [|done]. split; [done|]. by vm_compute.
  - simpl. split; [by rewrite IHl|]. by constructor.
Qed.

(** For a distribution whose name is of ASCII bytes only, the token is
    [pypi__] followed by as many bytes as the name has, none of them a dash or
    an upper-case letter; the case of the letters and the choice between dash
    and underscore in the name make no difference to the token. *)
Theorem rulesPythonDistributionPackage_canonical (mapToLower : string → string)
    (distribution : string) :
  GoStrings.isASCII distribution = true →
  (∃ sanitized,
     rulesPythonDistributionPackage mapToLower distribution = "pypi__" +:+ sanitized
     ∧ String.length sanitized = String.length distribution
     ∧ Forall (λ c, c ≠ "-"%char ∧ isUpper c = false) (bytes sanitized))
  ∧ rulesPythonDistributionPackage mapToLower (GoStrings.ToLower mapToLower distribution)
      = rulesPythonDistributionPackage mapToLower distribution
  ∧ rulesPythonDistributionPackage mapToLower
      (GoStrings.ReplaceAll distribution "-" "_")
      = rulesPythonDistributionPackage mapToLower distribution.
Proof.
  intros Hascii. unfold rulesPythonDistributionPackage.
  rewrite (ToLower_ascii mapToLower distribution Hascii). split; [|split].
  - eexists. split; [done|]. apply sanitized_bytes.
  - rewrite ToLower_ascii by by rewrite isASCII_lowerBytes.
    by rewrite lowerBytes_idemp.
  - rewrite ToLower_ascii by by apply isASCII_ReplaceAll_dash.
    by rewrite lowerBytes_ReplaceAll, ReplaceAll_dash_idemp.
Qed.

Lemma rulesPythonDistributionPackage_canonical_witness :
  GoStrings.isASCII "PyYAML-Extra" = true
  ∧ rulesPythonDistributionPackage (λ s, s) (GoStrings.ReplaceAll "PyYAML-Extra" "-" "_")
      = rulesPythonDistributionPackage (λ s, s) "PyYAML-Extra".
Proof.
  assert (H : GoStrings.isASCII "PyYAML-Extra" = true) by reflexivity.
  split; [exact H|].
  exact (proj2 (proj2 (rulesPythonDistributionPackage_canonical (λ s, s)
                         "PyYAML-Extra" H))).
Defined.

(** ** Further facts about the evaluation of [srcs] and about [Imports] *)

Lemma stringValues_spec (vals : list Value) (srcs out : list string) :
  if forallb isVString vals
  then stringValues vals srcs out = (out, Ok (srcs ++ valueStrings vals))
  else ∃ msg, stringValues vals srcs out = (out, Panic msg).
Proof.
  revert srcs. induction vals as [|v vals IH]; intros srcs.
  - simpl. by rewrite app_nil_r.
  - destruct v; simpl; try by eexists.
    specialize (IH (srcs ++ [s])).
    destruct (forallb isVString vals); [|done]. by rewrite <- app_assoc in IH.
Qed.

(** When the interpreter evaluates a dynamic expression, the value decides:
    a list of strings is returned as it is, in order; a list with any other
    element, or a value that is no list, makes [evalSrcsExpr] panic. *)
Theorem evalSrcsExpr_dynamic_value (h : Host.t) (vm : Interp.t)
    (repoRoot pkg0 : string) (expr : Expr) (srcsSyntaxExpr : Interp.SyntaxExpr vm)
    (srcsVal : Value) (out out' : list string) :
  isListExpr expr = false →
  Interp.ParseExpr vm (Interp.FormatString vm expr) = inr srcsSyntaxExpr →
  Interp.EvalExpr vm srcsSyntaxExpr (srcsEnv h repoRoot pkg0) out = (out', Ok srcsVal) →
  match srcsVal with
  | VList vals =>
      if forallb isVString vals
      then evalSrcsExpr h vm repoRoot pkg0 expr out = (out', Ok (valueStrings vals))
           ∧ VString <$> valueStrings vals = vals
      else ∃ msg, evalSrcsExpr h vm repoRoot pkg0 expr out = (out', Panic msg)
  | _ => ∃ msg, evalSrcsExpr h vm repoRoot pkg0 expr out = (out', Panic msg)
  end.
Proof.
  intros Hdyn Hparse Heval. unfold srcsEnv in Heval.
  assert (evalSrcsExpr h vm repoRoot pkg0 expr out =
          match srcsVal with
          | VList srcsValList => stringValues srcsValList [] out'
          | _ => (out', Panic ("interface conversion: starlark.Value is "
                                 +:+ starlark.typeName srcsVal +:+ ", not *starlark.List"))
          end) as ->.
  { destruct expr; try discriminate Hdyn; simpl; rewrite Hparse, Heval;
      by destruct srcsVal. }
  destruct srcsVal; eauto.
  pose proof (stringValues_spec elems [] out') as Hspec.
  destruct (forallb isVString elems) eqn:Hall; [|done]. split; [done|].
  clear -Hall. induction elems as [|v vals IH]; [done|].
  simpl in Hall. apply andb_prop in Hall as [Hv Hvals].
  destruct v; try done. simpl. by rewrite <- (IH Hvals) at 2.
Qed.

Lemma evalSrcsExpr_dynamic_value_witness :
  (isListExpr (Ident "srcs") = false
   ∧ Interp.ParseExpr exInterp (Interp.FormatString exInterp (Ident "srcs")) = inr "srcs")
  ∧ ∃ msg, evalSrcsExpr (exHost false)
             {| Interp.SyntaxExpr := string;
                Interp.FormatString := Interp.FormatString exInterp;
                Interp.ParseExpr := Interp.ParseExpr exInterp;
                Interp.EvalExpr := λ _ _, mret (VString "a.py") |}
             "/repo" "pkg" (Ident "srcs") [] = ([], Panic msg).
Proof.
  split; [done|].
  exact (evalSrcsExpr_dynamic_value (exHost false)
           {| Interp.SyntaxExpr := string;
              Interp.FormatString := Interp.FormatString exInterp;
              Interp.ParseExpr := Interp.ParseExpr exInterp;
              Interp.EvalExpr := λ _ _, mret (VString "a.py") |}
           "/repo" "pkg" (Ident "srcs") "srcs" (VString "a.py") [] []
           eq_refl eq_refl eq_refl).
Defined.

Section ImportsFacts.
Context (h : Host.t) (vm : Interp.t).

Lemma importSpecFromSrc_ok (pythonProjectRoot bzlPkg src : string) (out : list string) :
  (∃ rel, Host.Rel h pythonProjectRoot (GoPath.Join [bzlPkg; GoPath.Dir src]) = inr rel) →
  ∃ provide, importSpecFromSrc h pythonProjectRoot bzlPkg src out = (out, Ok provide)
             ∧ resolve.Lang provide = languageName.
Proof.
  intros [rel Hrel]. unfold importSpecFromSrc. rewrite Hrel.
  repeat case_decide; eauto.
Qed.

Lemma providesOfSrc_cons (fPkg src imp : string) (imports : list string)
    (provides : list resolve.ImportSpec) (out : list string) :
  providesOfSrc h fPkg src (imp :: imports) provides out =
    match importSpecFromSrc h (GoPath.Clean (GoPath.Join [fPkg; imp])) fPkg src out with
    | (out', Ok provide) => providesOfSrc h fPkg src imports (provides ++ [provide]) out'
    | (out', Err e) => (out', Err e)
    | (out', Panic msg) => (out', Panic msg)
    | (out', Exit status) => (out', Exit status)
    end.
Proof. reflexivity. Qed.

Lemma providesOfSrcs_cons (fPkg src : string) (srcs imports : list string)
    (provides : list resolve.ImportSpec) (out : list string) :
  providesOfSrcs h fPkg (src :: srcs) imports provides out =
    match (if decide (GoPath.Ext src = ".py")
           then providesOfSrc h fPkg src imports provides
           else mret provides) out with
    | (out', Ok provides') => providesOfSrcs h fPkg srcs imports provides' out'
    | (out', Err e) => (out', Err e)
    | (out', Panic msg) => (out', Panic msg)
    | (out', Exit status) => (out', Exit status)
    end.
Proof. reflexivity. Qed.

Lemma providesOfSrc_ok (fPkg src : string) (imports : list string)
    (provides : list resolve.ImportSpec) (out : list string) :
  (∀ imp, imp ∈ imports →
     ∃ rel, Host.Rel h (GoPath.Clean (GoPath.Join [fPkg; imp]))
              (GoPath.Join [fPkg; GoPath.Dir src]) = inr rel) →
  ∃ more, providesOfSrc h fPkg src imports provides out = (out, Ok (provides ++ more))
          ∧ length more = length imports
          ∧ Forall (λ provide, resolve.Lang provide = languageName) more.
Proof.
  revert provides. induction imports as [|imp imports IH]; intros provides HRel.
  - exists []. by rewrite app_nil_r.
  - rewrite providesOfSrc_cons.
    destruct (importSpecFromSrc_ok (GoPath.Clean (GoPath.Join [fPkg; imp])) fPkg src out)
      as (provide & -> & Hlang); [apply HRel, list_elem_of_here|].
    destruct (IH (provides ++ [provide])) as (more & -> & Hlen & Hall).
    { intros imp' Himp'. by apply HRel, list_elem_of_further. }
    exists (provide :: more). rewrite <- app_assoc. simpl.
    split; [done|]. split; [by rewrite Hlen|by constructor].
Qed.

Lemma providesOfSrcs_ok (fPkg : string) (srcs imports : list string)
    (provides : list resolve.ImportSpec) (out : list string) :
  (∀ src imp, src ∈ srcs → GoPath.Ext src = ".py" → imp ∈ imports →
     ∃ rel, Host.Rel h (GoPath.Clean (GoPath.Join [fPkg; imp]))
              (GoPath.Join [fPkg; GoPath.Dir src]) = inr rel) →
  ∃ more, providesOfSrcs h fPkg srcs imports provides out = (out, Ok (provides ++ more))
          ∧ length more
              = (length (filter (λ src, GoPath.Ext src = ".py") srcs) * length imports)%nat
          ∧ Forall (λ provide, resolve.Lang provide = languageName) more.
Proof.
  revert provides. induction srcs as [|src srcs IH]; intros provides HRel.
  - exists []. by rewrite app_nil_r.
  - assert (∀ src' imp, src' ∈ srcs → GoPath.Ext src' = ".py" → imp ∈ imports →
              ∃ rel, Host.Rel h (GoPath.Clean (GoPath.Join [fPkg; imp]))
                       (GoPath.Join [fPkg; GoPath.Dir src']) = inr rel) as HRel'.
    { intros src' imp Hsrc'. by apply HRel, list_elem_of_further. }
    rewrite providesOfSrcs_cons, filter_cons.
    destruct (decide (GoPath.Ext src = ".py")) as [Hpy|Hother].
    + destruct (providesOfSrc_ok fPkg src imports provides out)
        as (more1 & -> & Hlen1 & Hall1).
      { intros imp Himp. by apply HRel; [apply list_elem_of_here| |]. }
      destruct (IH (provides ++ more1) HRel') as (more2 & -> & Hlen2 & Hall2).
      exists (more1 ++ more2). rewrite <- app_assoc.
      split; [done|]. split.
      * rewrite length_app, Hlen1, Hlen2. simpl. lia.
      * by apply Forall_app.
    + destruct (IH provides HRel') as (more & Hrun & Hlen & Hall).
      exists more. split; [exact Hrun|]. split; [exact Hlen|exact Hall].
Qed.

(** What [Imports] publishes for a rule whose [srcs] is a literal list, when
    [filepath.Rel] finds the way from every import root to the directory of
    every [.py] source: one import spec for every [.py] source and import
    root, then one for the library identifier if the rule has one; sources
    with another extension give none.  All are of the language [py]; the rule
    is not indexed when there is none. *)
Theorem Imports_of_literal_srcs (repoRoot : string) (r : rule.Rule) (fPkg : string)
    (elems : list Expr) (out : list string) :
  rule.srcs r = Some (ListExpr elems) →
  (∀ src imp,
     src ∈ literalStrings elems → GoPath.Ext src = ".py" → imp ∈ importRoots r →
     ∃ rel, Host.Rel h (GoPath.Clean (GoPath.Join [fPkg; imp]))
              (GoPath.Join [fPkg; GoPath.Dir src]) = inr rel) →
  ∃ provides,
    Imports h vm repoRoot r fPkg out
      = (out, Ok (if decide (length provides = 0%nat) then None else Some provides))
    ∧ length provides
        = (length (filter (λ src, GoPath.Ext src = ".py") (literalStrings elems))
           * length (importRoots r)
           + match rule.uuid r with Some _ => 1 | None => 0 end)%nat
    ∧ Forall (λ provide, resolve.Lang provide = languageName) provides
    ∧ match rule.uuid r with
      | Some uuid =>
          last provides = Some {| resolve.Lang := languageName; resolve.Imp := uuid |}
      | None => True
      end.
Proof.
  intros Hsrcs HRel. unfold Imports. rewrite Hsrcs. simpl.
  rewrite stringExprs_literalStrings. fold (importRoots r). unfold mbind, M_bind.
  destruct (providesOfSrcs_ok fPkg (literalStrings elems) (importRoots r) [] out HRel)
    as (more & -> & Hlen & Hall).
  simpl. destruct (rule.uuid r) as [uuid|].
  - exists (more ++ [{| resolve.Lang := languageName; resolve.Imp := uuid |}]).
    split; [by case_decide|]. split; [rewrite length_app, Hlen; simpl; lia|].
    split; [apply Forall_app; split; [done|by constructor]|]. by rewrite last_snoc.
  - exists more. split; [by case_decide|]. split; [lia|]. done.
Qed.

End ImportsFacts.

(** The way from the package to the directory of either [.py] source of the
    example rule. *)
Lemma exLibRule_rel (src imp : string) :
  src ∈ literalStrings [StringExpr "a.py"; StringExpr "data.txt"; StringExpr "sub/b.py"] →
  GoPath.Ext src = ".py" → imp ∈ importRoots exLibRule →
  ∃ rel, Host.Rel (exHost false) (GoPath.Clean (GoPath.Join ["pkg"; imp]))
           (GoPath.Join ["pkg"; GoPath.Dir src]) = inr rel.
Proof.
  intros Hsrc Hpy Himp.
  change (imp ∈ ["."; ""]) in Himp.
  change (src ∈ ["a.py"; "data.txt"; "sub/b.py"]) in Hsrc.
  apply elem_of_cons in Himp as [->|Himp];
    [|apply list_elem_of_singleton in Himp as ->];
    (apply elem_of_cons in Hsrc as [->|Hsrc]; [by eexists|];
     apply elem_of_cons in Hsrc as [->|Hsrc]; [by eexists|];
     apply list_elem_of_singleton in Hsrc as ->; by eexists).
Qed.

Lemma Imports_of_literal_srcs_witness :
  rule.srcs exLibRule
    = Some (ListExpr [StringExpr "a.py"; StringExpr "data.txt"; StringExpr "sub/b.py"])
  ∧ ∃ provides,
      Imports (exHost false) exInterp "/repo" exLibRule "pkg" []
        = ([], Ok (if decide (length provides = 0%nat) then None else Some provides))
      ∧ length provides = 5%nat.
Proof.
  split; [done|].
  destruct (Imports_of_literal_srcs (exHost false) exInterp "/repo" exLibRule "pkg" _ []
              eq_refl exLibRule_rel) as (provides & Hrun & Hlen & _).
  exists provides. split; [exact Hrun|exact Hlen].
Defined.

(** ** Further facts about the package tree *)

Section NodeFacts.
Context (h : Host.t) (pkg0 : string).
Implicit Types pt : BazelPackageTree.

Lemma nodeFlags_cons (branches0 : gmap string BazelPackageTree) (part : string)
    (rest : list string) :
  nodeFlags branches0 (part :: rest) =
    match branches0 !! part with
    | Some branch =>
        match rest with
        | [] => Some (isBazelPackage branch, isFile branch)
        | _ :: _ => nodeFlags (branches branch) rest
        end
    | None => None
    end.
Proof. reflexivity. Qed.

(** The marks after the loop of [AddPath], position by position. *)
Lemma addPathFrom_nodeFlags (parts rest pre : list string)
    (branches0 : gmap string BazelPackageTree) (pos : list string) :
  parts = pre ++ rest → pos ≠ [] →
  nodeFlags (addPathFrom h pkg0 parts (length pre) rest branches0) pos =
    match nodeFlags branches0 pos with
    | Some flags => Some flags
    | None =>
        if decide (pos `prefix_of` rest)
        then Some (madeFlags h pkg0 parts (pre ++ pos))
        else None
    end.
Proof.
  revert pre branches0 pos.
  induction rest as [|part rest IH]; intros pre branches0 pos Hparts Hpos.
  { simpl. destruct (nodeFlags branches0 pos); [done|].
    rewrite decide_False; [done|]. by intros ->%prefix_nil_inv. }
  destruct pos as [|p pos]; [done|].
  assert (parts = (pre ++ [part]) ++ rest) as Hparts' by by rewrite <- app_assoc.
  assert (S (length pre) = length (pre ++ [part])) as Hlen
    by (rewrite length_app; simpl; lia).
  cbn [addPathFrom]. rewrite !nodeFlags_cons.
  destruct (decide (part = p)) as [->|Hne].
  2:{ rewrite lookup_insert_ne by done.
      destruct (branches0 !! p) as [b|]; [destruct pos; [done|]|].
      - destruct (nodeFlags (branches b) (s :: pos)); [done|].
        rewrite decide_False; [done|]. by intros ?%prefix_cons_inv_1.
      - rewrite decide_False; [done|]. by intros ?%prefix_cons_inv_1. }
  rewrite lookup_insert_eq. cbn [branches isBazelPackage isFile].
  destruct pos as [|p' pos].
  - destruct (branches0 !! p) as [b|]; [done|]. cbn [isBazelPackage isFile].
    rewrite decide_True by (apply prefix_cons, prefix_nil).
    unfold madeFlags. f_equal.
    destruct rest as [|r rest].
    + rewrite decide_True by done. rewrite bool_decide_eq_true_2; [done|].
      rewrite Hparts, length_app. simpl. lia.
    + rewrite decide_False.
      2:{ rewrite Hparts. intros E%(inj (app pre)). discriminate E. }
      rewrite bool_decide_eq_false_2.
      2:{ rewrite Hparts, length_app. simpl. lia. }
      unfold dirOf. do 4 f_equal.
      rewrite Hparts', Nat.add_1_r, Hlen. by rewrite take_app_length.
  - assert (p' :: pos ≠ []) as Hq by done.
    generalize dependent (p' :: pos). intros q _ Hq.
    rewrite Hlen. rewrite (IH (pre ++ [p]) _ q Hparts') by done.
    rewrite <- !app_assoc. change ([p] ++ q) with (p :: q).
    destruct (branches0 !! p) as [b|]; cbn [branches].
    + destruct (nodeFlags (branches b) q); [done|].
      destruct (decide (q `prefix_of` rest)) as [Hpre|Hnpre].
      * by rewrite decide_True by by apply prefix_cons.
      * rewrite decide_False; [done|]. by intros ?%prefix_cons_inv_2.
    + assert (nodeFlags ∅ q = None) as ->.
      { destruct q; [done|]. rewrite nodeFlags_cons. by rewrite lookup_empty. }
      destruct (decide (q `prefix_of` rest)) as [Hpre|Hnpre].
      * by rewrite decide_True by by apply prefix_cons.
      * rewrite decide_False; [done|]. by intros ?%prefix_cons_inv_2.
Qed.


Lemma AddPaths_pkg (pt : BazelPackageTree) (inserted : list (list string)) :
  pkg (foldl (AddPath h) pt inserted) = pkg pt.
Proof.
  revert pt. induction inserted as [|parts inserted IH]; intros pt; [done|].
  simpl. by rewrite IH.
Qed.

Lemma firstThrough_cons (parts : list string) (inserted : list (list string))
    (pos : list string) :
  firstThrough (parts :: inserted) pos =
    if decide (pos `prefix_of` parts) then Some parts else firstThrough inserted pos.
Proof.
  unfold firstThrough. rewrite filter_cons.
  by destruct (decide (pos `prefix_of` parts)).
Qed.

Lemma firstThrough_Some (inserted : list (list string)) (pos parts : list string) :
  firstThrough inserted pos = Some parts → parts ∈ inserted ∧ pos `prefix_of` parts.
Proof.
  induction inserted as [|q inserted IH]; [done|].
  rewrite firstThrough_cons. destruct (decide (pos `prefix_of` q)) as [Hq|Hq].
  - intros [= <-]. split; [apply list_elem_of_here|done].
  - intros [Hin Hpre]%IH. split; [by apply list_elem_of_further|done].
Qed.

Lemma firstThrough_is_Some (inserted : list (list string)) (pos parts : list string) :
  parts ∈ inserted → pos `prefix_of` parts → is_Some (firstThrough inserted pos).
Proof.
  induction inserted as [|q inserted IH]; intros Hin Hpre.
  - by apply elem_of_nil in Hin.
  - rewrite firstThrough_cons. destruct (decide (pos `prefix_of` q)); [done|].
    apply elem_of_cons in Hin as [->|Hin]; [done|]. by apply IH.
Qed.

(** The marks after a row of [AddPath], from any tree. *)
Lemma AddPaths_nodeFlags_from (inserted : list (list string)) (pt : BazelPackageTree)
    (pos : list string) :
  pkg pt = pkg0 → pos ≠ [] →
  nodeFlags (branches (foldl (AddPath h) pt inserted)) pos =
    match nodeFlags (branches pt) pos with
    | Some flags => Some flags
    | None => (λ parts, madeFlags h pkg0 parts pos) <$> firstThrough inserted pos
    end.
Proof.
  intros Hpkg Hpos. revert pt Hpkg.
  induction inserted as [|parts inserted IH]; intros pt Hpkg.
  { simpl. by destruct (nodeFlags (branches pt) pos). }
  cbn [foldl]. rewrite IH by done. rewrite firstThrough_cons.
  pose proof (addPathFrom_nodeFlags parts parts [] (branches pt) pos eq_refl Hpos)
    as Hstep.
  rewrite <- Hpkg in Hstep at 1.
  change (nodeFlags (branches (AddPath h pt parts)) pos =
            match nodeFlags (branches pt) pos with
            | Some flags => Some flags
            | None =>
                if decide (pos `prefix_of` parts)
                then Some (madeFlags h pkg0 parts pos) else None
            end) in Hstep.
  rewrite Hstep. destruct (nodeFlags (branches pt) pos); [done|].
  by destruct (decide (pos `prefix_of` parts)).
Qed.

Lemma nodeFlags_empty (pos : list string) : nodeFlags ∅ pos = None.
Proof. destruct pos; [done|]. by rewrite nodeFlags_cons, lookup_empty. Qed.

Lemma reported_nodeFlags (parts : list string) (pt : BazelPackageTree) :
  reported pt parts = true ↔
    nodeFlags (branches pt) parts = Some (false, true)
    ∧ ∀ k, (0 < k < length parts)%nat →
        ∃ file, nodeFlags (branches pt) (take k parts) = Some (false, file).
Proof.
  revert pt. induction parts as [|part rest IH]; intros pt; [by split; [|intros []]|].
  cbn [reported]. rewrite nodeFlags_cons.
  destruct (branches pt !! part) as [branch|] eqn:Hbranch; [|by split; [|intros []]].
  destruct rest as [|part' rest].
  - assert (∀ k, (0 < k < length [part])%nat →
              ∃ file, nodeFlags (branches pt) (take k [part]) = Some (false, file))
      as Hway by (intros k Hk; simpl in Hk; lia).
    destruct (isBazelPackage branch), (isFile branch); simpl;
      split; try done; by intros [[=] _].
  - rewrite andb_true_iff, negb_true_iff, IH. split.
    + intros [Hpkg [Hend Hway]]. split; [done|]. intros k Hk.
      destruct k as [|k]; [lia|]. cbn [take]. rewrite nodeFlags_cons, Hbranch.
      destruct k as [|k].
      * cbn [take]. exists (isFile branch). by rewrite Hpkg.
      * apply Hway. simpl in *. lia.
    + intros [Hend Hway]. split; [|split; [done|]].
      * destruct (Hway 1%nat) as [file Hfile]; [simpl; lia|].
        cbn [take] in Hfile. rewrite nodeFlags_cons, Hbranch in Hfile.
        by injection Hfile as -> _.
      * intros k Hk. destruct (Hway (S k)) as [file Hfile]; [simpl in *; lia|].
        cbn [take] in Hfile. rewrite nodeFlags_cons, Hbranch in Hfile.
        destruct k as [|k]; [lia|]. by exists file.
Qed.

End NodeFacts.

(** [AddPath], node by node: a node that was there keeps its marks; a node on
    the way of the new path that was not there is made, as a file at the end
    of the path and as a directory before it, a directory being marked as a
    package exactly when it holds a build file; no other node appears. *)
Theorem AddPath_nodeFlags (h : Host.t) (pt : BazelPackageTree)
    (parts pos : list string) :
  pos ≠ [] →
  nodeFlags (branches (AddPath h pt parts)) pos =
    match nodeFlags (branches pt) pos with
    | Some flags => Some flags
    | None =>
        if decide (pos `prefix_of` parts)
        then Some (if decide (pos = parts) then (false, true)
                   else (Host.isBazelPackage h
                           (GoPath.Join [pkg pt; GoPath.Join pos]), false))
        else None
    end.
Proof.
  intros Hpos.
  exact (addPathFrom_nodeFlags h (pkg pt) parts parts [] (branches pt) pos
           eq_refl Hpos).
Qed.

Lemma AddPath_nodeFlags_witness :
  ["sub"] ≠ []
  ∧ nodeFlags (branches (AddPath (exHost false) (NewBazelPackageTree "pkg") ["sub"; "c.py"]))
      ["sub"] = Some (true, false).
Proof.
  assert (H : ["sub"] ≠ []) by done.
  split; [exact H|].
  exact (AddPath_nodeFlags (exHost false) (NewBazelPackageTree "pkg") ["sub"; "c.py"]
           ["sub"] H).
Defined.

Lemma nodeFlags_of_added (h : Host.t) (pkg0 : string)
    (inserted : list (list string)) (pos : list string) :
  pos ≠ [] →
  nodeFlags (branches (foldl (AddPath h) (NewBazelPackageTree pkg0) inserted)) pos =
    match firstThrough inserted pos with
    | Some parts =>
        Some (if decide (pos = parts) then (false, true)
              else (Host.isBazelPackage h (GoPath.Join [pkg0; GoPath.Join pos]), false))
    | None => None
    end.
Proof.
  intros Hpos.
  rewrite (AddPaths_nodeFlags_from h pkg0 inserted (NewBazelPackageTree pkg0) pos
             eq_refl Hpos).
  cbn [NewBazelPackageTree branches pkg]. rewrite nodeFlags_empty.
  by destruct (firstThrough inserted pos).
Qed.

(** The marks of a node of a tree built by a row of [AddPath] are those the
    first added path through the node gave it: later paths through it change
    nothing, and a node no added path goes through does not exist. *)
Theorem AddPaths_nodeFlags (h : Host.t) (pkg0 : string)
    (inserted : list (list string)) (pos : list string) :
  pos ≠ [] →
  nodeFlags (branches (foldl (AddPath h) (NewBazelPackageTree pkg0) inserted)) pos =
    match firstThrough inserted pos with
    | Some parts =>
        Some (if decide (pos = parts) then (false, true)
              else (Host.isBazelPackage h (GoPath.Join [pkg0; GoPath.Join pos]), false))
    | None => None
    end.
Proof. apply nodeFlags_of_added. Qed.

Lemma AddPaths_nodeFlags_witness :
  ["sub"] ≠ []
  ∧ nodeFlags
      (branches (foldl (AddPath (exHost false)) (NewBazelPackageTree "pkg")
                   [["sub"]; ["sub"; "c.py"]]))
      ["sub"] = Some (false, true).
Proof.
  assert (H : ["sub"] ≠ []) by done.
  split; [exact H|].
  exact (AddPaths_nodeFlags (exHost false) "pkg" [["sub"]; ["sub"; "c.py"]] ["sub"] H).
Defined.

Lemma Paths_listed (h : Host.t) (pkg0 : string) (inserted : list (list string)) :
  Host.fair h →
  Forall (Forall (λ part, isPlain part = true)) inserted →
  let pt := foldl (AddPath h) (NewBazelPackageTree pkg0) inserted in
  NoDup (Paths h pt)
  ∧ ∀ s, s ∈ Paths h pt ↔
      ∃ parts, s = GoStrings.Join parts "/" ∧ listed h pkg0 inserted parts.
Proof.
  intros Hfair Hplain pt.
  assert (plainTree pt) as Hpt
    by (apply AddPaths_plain; [apply NewBazelPackageTree_plain|done]).
  split; [by apply PathsAt_NoDup|].
  assert (∀ parts, reported pt parts = true ↔ listed h pkg0 inserted parts) as Hrep.
  { intros parts. rewrite reported_nodeFlags. unfold listed. split.
    - intros [Hend Hway].
      assert (parts ≠ []) as Hne by (by intros ->).
      unfold pt in Hend. rewrite nodeFlags_of_added in Hend by done.
      destruct (firstThrough inserted parts) as [q|] eqn:Hq; [|done].
      destruct (decide (parts = q)) as [<-|Hnq]; [|done].
      split; [done|]. split; [done|]. intros k Hk.
      destruct (Hway k Hk) as [file Hfile].
      unfold pt in Hfile. rewrite nodeFlags_of_added in Hfile.
      2:{ destruct parts; [done|]. destruct k; [lia|done]. }
      destruct (firstThrough inserted (take k parts)) as [q'|]; [|done].
      destruct (decide (take k parts = q')) as [<-|Hnq']; [by left|].
      right. injection Hfile as Hdir _. exact Hdir.
    - intros (Hne & Hend & Hway).
      apply firstThrough_Some in Hend as Hin. destruct Hin as [Hin _].
      split.
      + unfold pt. rewrite nodeFlags_of_added by done. rewrite Hend.
        by rewrite decide_True.
      + intros k Hk. unfold pt. rewrite nodeFlags_of_added.
        2:{ destruct parts; [done|]. destruct k; [lia|done]. }
        destruct (firstThrough_is_Some inserted (take k parts) parts Hin)
          as [q Hq]; [apply prefix_take|].
        rewrite Hq. destruct (Hway k Hk) as [Hown|Hno].
        * rewrite Hown in Hq. injection Hq as <-. rewrite decide_True by done.
          by exists true.
        * destruct (decide (take k parts = q)); [by exists true|].
          exists false.
          change (GoPath.Join [pkg0; GoPath.Join (take k parts)])
            with (dirOf pkg0 (take k parts)).
          by rewrite Hno. }
  intros s. split.
  - intros Hs. apply (PathsAt_sound h Hfair pt Hpt) in Hs as [Hwf Hs].
    exists (GoStrings.Split s "/"). split; [by rewrite Join_Split|]. by apply Hrep.
  - intros (parts & -> & Hlisted).
    apply (PathsAt_complete h Hfair).
    + destruct Hlisted as (_ & Hend & _).
      apply firstThrough_Some in Hend as [Hin _].
      by apply (proj1 (Forall_forall _ _) Hplain).
    + by apply Hrep.
Qed.

(** What [Paths] lists after a row of [AddPath] into a new tree: exactly the
    added paths that were added before any longer path through them and whose
    directories on the way each hold no build file or were themselves added
    as a path before anything below them; each of them once. *)
Theorem Paths_of_added (h : Host.t) (pkg0 : string) (inserted : list (list string)) :
  Host.fair h →
  Forall (Forall (λ part, isPlain part = true)) inserted →
  let pt := foldl (AddPath h) (NewBazelPackageTree pkg0) inserted in
  NoDup (Paths h pt)
  ∧ ∀ s, s ∈ Paths h pt ↔
      ∃ parts, s = GoStrings.Join parts "/" ∧ listed h pkg0 inserted parts.
Proof. apply Paths_listed. Qed.

Lemma Paths_of_added_witness :
  (Host.fair (exHost false)
   ∧ Forall (Forall (λ part, isPlain part = true)) [["sub"]; ["sub"; "c.py"]; ["a.py"]])
  ∧ NoDup (Paths (exHost false)
             (foldl (AddPath (exHost false)) (NewBazelPackageTree "pkg")
                [["sub"]; ["sub"; "c.py"]; ["a.py"]])).
Proof.
  assert (H1 : Host.fair (exHost false)) by apply exHost_fair.
  assert (H2 : Forall (Forall (λ part, isPlain part = true))
                 [["sub"]; ["sub"; "c.py"]; ["a.py"]]).
  { repeat constructor. }
  split; [done|].
  exact (proj1 (Paths_of_added (exHost false) "pkg"
                  [["sub"]; ["sub"; "c.py"]; ["a.py"]] H1 H2)).
Defined.

Lemma Paths_boundary_unless_added_witness :
  (Host.fair (exHost false)
   ∧ Forall (Forall (λ part, isPlain part = true)) [["sub"]; ["sub"; "c.py"]]
   ∧ "sub/c.py" ∈ Paths (exHost false)
        (foldl (AddPath (exHost false)) (NewBazelPackageTree "pkg")
           [["sub"]; ["sub"; "c.py"]])
   ∧ GoStrings.Split "sub/c.py" "/" = ["sub"] ++ ["c.py"]
   ∧ ["sub"] ≠ [] ∧ ["c.py"] ≠ []
   ∧ Host.isBazelPackage (exHost false) (dirOf "pkg" ["sub"]) = true)
  ∧ ["sub"] ∈ [["sub"]; ["sub"; "c.py"]].
Proof.
  assert (H1 : Host.fair (exHost false)) by apply exHost_fair.
  assert (H2 : Forall (Forall (λ part, isPlain part = true))
                 [["sub"]; ["sub"; "c.py"]]).
  { repeat constructor. }
  assert (H3 : "sub/c.py" ∈ Paths (exHost false)
        (foldl (AddPath (exHost false)) (NewBazelPackageTree "pkg")
           [["sub"]; ["sub"; "c.py"]])).
  { vm_compute. apply list_elem_of_further, list_elem_of_here. }
  assert (H4 : GoStrings.Split "sub/c.py" "/" = ["sub"] ++ ["c.py"]) by reflexivity.
  assert (H5 : ["sub"] ≠ ([] : list string)) by discriminate.
  assert (H6 : ["c.py"] ≠ ([] : list string)) by discriminate.
  assert (H7 : Host.isBazelPackage (exHost false) (dirOf "pkg" ["sub"]) = true)
    by reflexivity.
  split; [done|].
  exact (Paths_boundary_unless_added (exHost false) "pkg" [["sub"]; ["sub"; "c.py"]]
           "sub/c.py" ["sub"] ["c.py"] H1 H2 H3 H4 H5 H6 H7).
Defined.




(** ** Further facts about the glob built-in *)

Lemma lastKwarg_cons (name name' : string) (arg : Value)
    (kwargs : list (string * Value)) :
  lastKwarg name ((name', arg) :: kwargs) =
    match lastKwarg name kwargs with
    | Some later => Some later
    | None => if decide (name' = name) then Some arg else None
    end.
Proof.
  unfold lastKwarg. rewrite filter_cons. cbn [fst].
  destruct (decide (name' = name)); [|by destruct (last _)].
  rewrite fmap_cons, last_cons. cbn [snd]. by destruct (last _).
Qed.

Lemma countKwarg_cons (name name' : string) (arg : Value)
    (kwargs : list (string * Value)) :
  countKwarg name ((name', arg) :: kwargs) =
    ((if decide (name' = name) then 1 else 0) + countKwarg name kwargs)%nat.
Proof.
  unfold countKwarg. rewrite filter_cons. cbn [fst].
  by destruct (decide (name' = name)).
Qed.

Lemma lastKwarg_None (name : string) (kwargs : list (string * Value)) :
  lastKwarg name kwargs = None ↔ countKwarg name kwargs = 0%nat.
Proof.
  unfold lastKwarg, countKwarg. rewrite last_None.
  destruct (filter _ kwargs); [done|]. by split.
Qed.

Lemma lastKwarg_elem_of (name : string) (kwargs : list (string * Value)) (arg : Value) :
  lastKwarg name kwargs = Some arg → (name, arg) ∈ kwargs.
Proof.
  induction kwargs as [|[name' arg'] kwargs IH]; [done|].
  rewrite lastKwarg_cons. destruct (lastKwarg name kwargs) as [later|].
  - intros [= ->]. by apply list_elem_of_further, IH.
  - destruct (decide (name' = name)) as [->|]; [|done].
    intros [= ->]. apply list_elem_of_here.
Qed.

Lemma HasPrefix_app (prefix s : string) : GoStrings.HasPrefix (prefix +:+ s) prefix = true.
Proof.
  unfold GoStrings.HasPrefix. induction prefix as [|a prefix IH]; [by destruct s|].
  rewrite app_cons. simpl. by destruct (ascii_dec a a).
Qed.

Section GlobMore.
Context (h : Host.t).

(** One round of the loop over the keywords, when the loop ends well. *)
Lemma globKwargs_cons_ok (name : string) (arg : Value) (rest : list (string * Value))
    (includeArg excludeArg : option Value) (allowEmpty : bool)
    (out out' : list string) (r : option Value * option Value * bool) :
  globKwargs ((name, arg) :: rest) includeArg excludeArg allowEmpty out = (out', Ok r) →
  (name = "include" ∧ includeArg = None
     ∧ globKwargs rest (Some arg) excludeArg allowEmpty out = (out', Ok r))
  ∨ (name = "exclude"
     ∧ globKwargs rest includeArg (Some arg) allowEmpty out = (out', Ok r))
  ∨ (name = "exclude_directories" ∧ (arg = VInt 0 ∨ arg = VInt 1)
     ∧ globKwargs rest includeArg excludeArg allowEmpty (out ++ [globWarning])
         = (out', Ok r))
  ∨ (name = "allow_empty"
     ∧ ∃ allowEmptyAssert, arg = VBool allowEmptyAssert
         ∧ globKwargs rest includeArg excludeArg allowEmptyAssert out = (out', Ok r)).
Proof.
  cbn [globKwargs].
  destruct (decide (name = "include")) as [->|_].
  { destruct includeArg; [done|]. intros H. by left. }
  destruct (decide (name = "exclude")) as [->|_].
  { intros H. right. by left. }
  destruct (decide (name = "exclude_directories")) as [->|_].
  { destruct arg as [|b|z|s|l|l]; try done.
    unfold starlark.Int64.
    destruct ((- 2 ^ 63 <=? z) && (z <? 2 ^ 63)) eqn:Hrange; [|done].
    cbn [negb orb].
    destruct (z =? 0) eqn:H0; [apply Z.eqb_eq in H0 as ->|];
      [|destruct (z =? 1) eqn:H1; [apply Z.eqb_eq in H1 as ->|done]];
      cbn [negb andb]; intros H; right; right; left; (split; [done|]);
      (split; [by auto|]); exact H. }
  destruct (decide (name = "allow_empty")) as [->|_]; [|done].
  destruct arg as [|b|z|s|l|l]; try done.
  intros H. right. right. right. split; [done|]. by exists b.
Qed.

(** The loop over the keywords, when it ends well. *)
Lemma globKwargs_ok (kwargs : list (string * Value))
    (includeArg excludeArg : option Value) (allowEmpty : bool)
    (out out' : list string) (includeArg' excludeArg' : option Value)
    (allowEmpty' : bool) :
  globKwargs kwargs includeArg excludeArg allowEmpty out
    = (out', Ok (includeArg', excludeArg', allowEmpty')) →
  Forall (λ kwarg, kwarg.1 ∈ globKeywords) kwargs
  ∧ (includeArg' = match includeArg with
                   | Some given => Some given
                   | None => lastKwarg "include" kwargs
                   end)
  ∧ (match includeArg with Some _ => 1 | None => 0 end + countKwarg "include" kwargs ≤ 1)%nat
  ∧ (excludeArg' = match lastKwarg "exclude" kwargs with
                   | Some given => Some given
                   | None => excludeArg
                   end)
  ∧ (allowEmpty' = match lastKwarg "allow_empty" kwargs with
                   | Some (VBool given) => given
                   | _ => allowEmpty
                   end)
  ∧ (∀ arg, ("allow_empty", arg) ∈ kwargs → ∃ given, arg = VBool given)
  ∧ (∀ arg, ("exclude_directories", arg) ∈ kwargs → arg = VInt 0 ∨ arg = VInt 1)
  ∧ out' = out ++ replicate (countKwarg "exclude_directories" kwargs) globWarning.
Proof.
  revert includeArg excludeArg allowEmpty out.
  induction kwargs as [|[name arg] rest IH];
    intros includeArg excludeArg allowEmpty out Hrun.
  { injection Hrun as <- <- <- <-. split; [done|]. split; [by destruct includeArg|].
    split; [unfold countKwarg; destruct includeArg; simpl; lia|].
    split; [done|]. split; [done|].
    split; [by intros arg ?%elem_of_nil|]. split; [by intros arg ?%elem_of_nil|].
    simpl. by rewrite app_nil_r. }
  rewrite !lastKwarg_cons, !countKwarg_cons.
  assert (∀ (key : string) (P : Value → Prop),
            (key = name → P arg) → (∀ v, (key, v) ∈ rest → P v) →
            ∀ v, (key, v) ∈ (name, arg) :: rest → P v) as Hall.
  { intros key P Hhere Hrest v [[= -> ->]|Hin]%elem_of_cons; [by apply Hhere|].
    by apply Hrest. }
  apply globKwargs_cons_ok in Hrun
    as [(-> & -> & Hrun)|[(-> & Hrun)|[(-> & Harg & Hrun)|(-> & b & -> & Hrun)]]];
    apply IH in Hrun as (Hnames & Hinc & Hcount & Hexc & Hallow & Hbools & Hints & Hout).
  - assert (countKwarg "include" rest = 0%nat) as Hzero by (simpl in Hcount; lia).
    apply lastKwarg_None in Hzero as Hnone. rewrite Hnone, Hzero.
    repeat first [rewrite decide_True by done | rewrite decide_False by done].
    split; [constructor; [apply list_elem_of_here|done]|].
    split; [done|]. split; [simpl; lia|].
    split; [by destruct (lastKwarg "exclude" rest)|].
    split; [by destruct (lastKwarg "allow_empty" rest)|].
    split; [by apply Hall|]. split; [by apply Hall|]. done.
  - repeat first [rewrite decide_True by done | rewrite decide_False by done].
    split; [constructor; [|done]|].
    { apply list_elem_of_further, list_elem_of_here. }
    split; [by destruct includeArg, (lastKwarg "include" rest)|].
    split; [done|].
    split; [by destruct (lastKwarg "exclude" rest)|].
    split; [by destruct (lastKwarg "allow_empty" rest)|].
    split; [by apply Hall|]. split; [by apply Hall|]. done.
  - repeat first [rewrite decide_True by done | rewrite decide_False by done].
    split; [constructor; [|done]|].
    { do 2 apply list_elem_of_further. apply list_elem_of_here. }
    split; [by destruct includeArg, (lastKwarg "include" rest)|].
    split; [done|].
    split; [by destruct (lastKwarg "exclude" rest)|].
    split; [by destruct (lastKwarg "allow_empty" rest)|].
    split; [by apply Hall|]. split; [by apply Hall|].
    rewrite Hout. simpl. by rewrite <- app_assoc.
  - repeat first [rewrite decide_True by done | rewrite decide_False by done].
    split; [constructor; [|done]|].
    { do 3 apply list_elem_of_further. apply list_elem_of_here. }
    split; [by destruct includeArg, (lastKwarg "include" rest)|].
    split; [done|].
    split; [by destruct (lastKwarg "exclude" rest)|].
    split.
    { rewrite Hallow.
      destruct (lastKwarg "allow_empty" rest) as [later|] eqn:Hlater; [|done].
      apply lastKwarg_elem_of, Hbools in Hlater as [given ->]. done. }
    split; [apply Hall; [by exists b|done]|]. split; [by apply Hall|]. done.
Qed.

Lemma globKwargs_outcome (kwargs : list (string * Value))
    (includeArg excludeArg : option Value) (allowEmpty : bool) (out : list string) :
  globOutcome (globKwargs kwargs includeArg excludeArg allowEmpty out).2
  ∧ ∃ n, (n ≤ countKwarg "exclude_directories" kwargs)%nat
      ∧ (globKwargs kwargs includeArg excludeArg allowEmpty out).1
          = out ++ replicate n globWarning.
Proof.
  revert includeArg excludeArg allowEmpty out.
  induction kwargs as [|[name arg] rest IH]; intros includeArg excludeArg allowEmpty out.
  { split; [done|]. exists 0%nat. split; [done|]. simpl. by rewrite app_nil_r. }
  assert (∀ e, GoStrings.HasPrefix e "failed glob: " = true →
            globOutcome (@fail (option Value * option Value * bool) e out).2
            ∧ ∃ n, (n ≤ countKwarg "exclude_directories" ((name, arg) :: rest))%nat
                ∧ (@fail (option Value * option Value * bool) e out).1
                    = out ++ replicate n globWarning) as Hfail.
  { intros e He. split; [done|]. exists 0%nat. split; [lia|].
    simpl. by rewrite app_nil_r. }
  assert (∀ inc exc allow,
            globOutcome (globKwargs rest inc exc allow out).2
            ∧ ∃ n, (n ≤ countKwarg "exclude_directories" ((name, arg) :: rest))%nat
                ∧ (globKwargs rest inc exc allow out).1 = out ++ replicate n globWarning)
    as Hnext.
  { intros inc exc allow. destruct (IH inc exc allow out) as [Hr (n & Hn & Hout)].
    split; [done|]. exists n. split; [rewrite countKwarg_cons; lia|done]. }
  cbn [globKwargs].
  destruct (decide (name = "include")) as [->|_].
  { destruct includeArg; [by apply Hfail|apply Hnext]. }
  destruct (decide (name = "exclude")) as [->|_]; [apply Hnext|].
  destruct (decide (name = "exclude_directories")) as [->|_].
  { destruct arg as [|b|z|s|l|l]; try by apply Hfail.
    destruct (starlark.Int64 z) as [excludeDirectories ok].
    destruct (negb ok || negb (excludeDirectories =? 0) && negb (excludeDirectories =? 1));
      [by apply Hfail|].
    change ((println _;; globKwargs rest includeArg excludeArg allowEmpty) out)
      with (globKwargs rest includeArg excludeArg allowEmpty (out ++ [globWarning])).
    destruct (IH includeArg excludeArg allowEmpty (out ++ [globWarning]))
      as [Hr (n & Hn & Hout)].
    split; [done|]. exists (S n). split.
    - rewrite countKwarg_cons, decide_True by done. lia.
    - rewrite Hout. simpl. by rewrite <- app_assoc. }
  destruct (decide (name = "allow_empty")) as [->|_]; [|by apply Hfail].
  destruct arg as [|b|z|s|l|l]; try by apply Hfail. apply Hnext.
Qed.

Lemma matchedBy_cons (absPkg : string) (pattern : Value) (patterns : list Value)
    (s : string) :
  matchedBy h absPkg (pattern :: patterns) s ↔
    (∃ text matches match_,
       pattern = VString text
       ∧ Host.Glob h (GoPath.Join [absPkg; text]) = inr matches
       ∧ match_ ∈ matches ∧ s = relOrEmpty h absPkg match_)
    ∨ matchedBy h absPkg patterns s.
Proof.
  unfold matchedBy. split.
  - intros (text & matches & match_ & [Heq|Hin]%elem_of_cons & Hglob & Hm & Hs).
    + left. by exists text, matches, match_.
    + right. by exists text, matches, match_.
  - intros [(text & matches & match_ & -> & Hglob & Hm & Hs)
           |(text & matches & match_ & Hin & Hglob & Hm & Hs)].
    + exists text, matches, match_. split; [apply list_elem_of_here|done].
    + exists text, matches, match_. split; [by apply list_elem_of_further|done].
Qed.

Lemma matchedBy_nil (absPkg s : string) : ¬ matchedBy h absPkg [] s.
Proof. by intros (text & matches & match_ & Hin%elem_of_nil & _). Qed.

Lemma elem_of_excluded (absPkg : string) (matches : list string)
    (excludeSet : gset string) (s : string) :
  s ∈ foldl (λ set match_, {[ relOrEmpty h absPkg match_ ]} ∪ set) excludeSet matches
  ↔ s ∈ excludeSet ∨ ∃ match_, match_ ∈ matches ∧ s = relOrEmpty h absPkg match_.
Proof.
  revert excludeSet. induction matches as [|m matches IH]; intros excludeSet.
  { simpl. split; [by left|]. intros [H|(m & Hm%elem_of_nil & _)]; done. }
  cbn [foldl]. rewrite IH, elem_of_union, elem_of_singleton. split.
  - intros [[->|H]|(m' & Hm' & ->)].
    + right. exists m. split; [apply list_elem_of_here|done].
    + by left.
    + right. exists m'. split; [by apply list_elem_of_further|done].
  - intros [H|(m' & [->|Hm']%elem_of_cons & ->)].
    + left. by right.
    + left. by left.
    + right. by exists m'.
Qed.

(** The loop over the exclude patterns: it fails with an error of [glob], or
    it has put into the set the relative path of every match of a pattern. *)
Lemma excludeLoop_spec (absPkg : string) (patterns : list Value)
    (excludeSet : gset string) (out : list string) :
  (excludeLoop h absPkg patterns excludeSet out).1 = out
  ∧ match (excludeLoop h absPkg patterns excludeSet out).2 with
    | Ok excludeSet' =>
        Forall (λ pattern, isVString pattern = true) patterns
        ∧ ∀ s, s ∈ excludeSet' ↔ s ∈ excludeSet ∨ matchedBy h absPkg patterns s
    | Err e => GoStrings.HasPrefix e "failed glob: " = true
    | _ => False
    end.
Proof.
  revert excludeSet. induction patterns as [|pattern patterns IH]; intros excludeSet.
  { split; [done|]. split; [done|]. intros s. split; [by left|].
    by intros [H|H%matchedBy_nil]. }
  cbn [excludeLoop]. destruct pattern as [|b|z|text|l|l]; try done.
  destruct (Host.Glob h (GoPath.Join [absPkg; text])) as [err|matches] eqn:Hglob.
  { split; [done|]. apply HasPrefix_app. }
  specialize (IH (foldl (λ set match_, {[ relOrEmpty h absPkg match_ ]} ∪ set)
                    excludeSet matches)).
  destruct IH as [Hout Hres]. split; [done|].
  destruct (excludeLoop h absPkg patterns _ out).2 as [excludeSet'|e|msg|status];
    try done.
  destruct Hres as [Hstrings Hset]. split; [by constructor|].
  intros s. rewrite Hset, elem_of_excluded, matchedBy_cons. split.
  - intros [[H|(m & Hm & ->)]|H]; [by left| |by right; right].
    right. left. by exists text, matches, m.
  - intros [H|[(text' & matches' & m & [= <-] & Hglob' & Hm & ->)|H]];
      [by left; left| |by right].
    left. right. exists m. split; [|done]. rewrite Hglob in Hglob'.
    by injection Hglob' as ->.
Qed.

Lemma includeMatches_sources (absPkg : string) (excludeSet : gset string)
    (tree : BazelPackageTree) (matches : list string) :
  includeMatches h absPkg excludeSet tree matches =
    foldl (AddPath h) tree
      ((λ src, GoStrings.Split src GoPath.Separator)
         <$> filter (λ src, src ∉ excludeSet) (relOrEmpty h absPkg <$> matches)).
Proof.
  unfold includeMatches. revert tree.
  induction matches as [|m matches IH]; intros tree; [done|].
  cbn [foldl]. rewrite IH, fmap_cons, filter_cons.
  destruct (decide (relOrEmpty h absPkg m ∈ excludeSet)) as [Hin|Hnin].
  - by rewrite decide_False by (by intros Hn).
  - by rewrite decide_True by done.
Qed.

(** The loop over the include patterns: it fails with an error of [glob], or
    it has added the sources of [globSources], in their order. *)
Lemma includeLoop_spec (absPkg : string) (excludeSet : gset string)
    (patterns : list Value) (tree : BazelPackageTree) (out : list string) :
  (includeLoop h absPkg excludeSet patterns tree out).1 = out
  ∧ match (includeLoop h absPkg excludeSet patterns tree out).2 with
    | Ok tree' =>
        Forall (λ pattern, isVString pattern = true) patterns
        ∧ tree' = foldl (AddPath h) tree (globSources h absPkg excludeSet patterns)
    | Err e => GoStrings.HasPrefix e "failed glob: " = true
    | _ => False
    end.
Proof.
  revert tree. induction patterns as [|pattern patterns IH]; intros tree; [done|].
  cbn [includeLoop]. destruct pattern as [|b|z|text|l|l]; try done.
  unfold globSources. cbn [mbind list_bind]. fold (globSources h absPkg excludeSet patterns).
  destruct (Host.Glob h (GoPath.Join [absPkg; text])) as [err|matches] eqn:Hglob.
  { split; [done|]. apply HasPrefix_app. }
  specialize (IH (includeMatches h absPkg excludeSet tree matches)).
  destruct IH as [Hout Hres]. split; [done|].
  destruct (includeLoop h absPkg excludeSet patterns _ out).2 as [tree'|e|msg|status];
    try done.
  destruct Hres as [Hstrings ->]. split; [by constructor|].
  by rewrite foldl_app, includeMatches_sources.
Qed.

Lemma elem_of_globSources (absPkg : string) (excludeSet : gset string)
    (patterns : list Value) (parts : list string) :
  parts ∈ globSources h absPkg excludeSet patterns ↔
    ∃ s, parts = GoStrings.Split s GoPath.Separator
         ∧ (s ∉ excludeSet) ∧ matchedBy h absPkg patterns s.
Proof.
  induction patterns as [|pattern patterns IH].
  { split; [by intros ?%elem_of_nil|]. by intros (s & _ & _ & ?%matchedBy_nil). }
  unfold globSources. cbn [mbind list_bind]. fold (globSources h absPkg excludeSet patterns).
  rewrite elem_of_app, IH. setoid_rewrite matchedBy_cons. split.
  - intros [Hhere|(s & -> & Hs & Hm)]; [|by exists s; eauto].
    destruct pattern as [|b|z|text|l|l]; try by apply elem_of_nil in Hhere.
    destruct (Host.Glob h (GoPath.Join [absPkg; text])) as [err|matches] eqn:Hglob;
      [by apply elem_of_nil in Hhere|].
    apply list_elem_of_fmap in Hhere as (s & -> & [Hs Hin]%list_elem_of_filter).
    apply list_elem_of_fmap in Hin as (m & -> & Hm).
    exists (relOrEmpty h absPkg m). split; [done|]. split; [done|].
    left. by exists text, matches, m.
  - intros (s & -> & Hs & [(text & matches & m & -> & Hglob & Hm & ->)|Hm]).
    + left. rewrite Hglob.
      apply (list_elem_of_fmap_2 (λ src, GoStrings.Split src GoPath.Separator)).
      apply list_elem_of_filter. split; [done|].
      by apply (list_elem_of_fmap_2 (relOrEmpty h absPkg)).
    + right. by exists s.
Qed.

(** A call of [Glob] that ends well, stage by stage. *)
Lemma Glob_ok (g : Globber.t) (args : list Value) (kwargs : list (string * Value))
    (out out' : list string) (v : Value) :
  Glob h g args kwargs out = (out', Ok v) →
  let absPkg := GoPath.Join [Globber.repoRoot g; Globber.pkg g] in
  ∃ (includePatterns : list Value) (excludeSet : gset string),
    (length args ≤ 1)%nat
    ∧ Forall (λ kwarg, kwarg.1 ∈ globKeywords) kwargs
    ∧ (length args + countKwarg "include" kwargs = 1)%nat
    ∧ includeArgOf args kwargs = Some (VList includePatterns)
    ∧ Forall (λ pattern, isVString pattern = true) includePatterns
    ∧ (lastKwarg "exclude" kwargs = None
       ∨ ∃ excludePatterns,
           lastKwarg "exclude" kwargs = Some (VList excludePatterns)
           ∧ Forall (λ pattern, isVString pattern = true) excludePatterns)
    ∧ (∀ arg, ("allow_empty", arg) ∈ kwargs → ∃ given, arg = VBool given)
    ∧ (∀ arg, ("exclude_directories", arg) ∈ kwargs → arg = VInt 0 ∨ arg = VInt 1)
    ∧ out' = out ++ replicate (countKwarg "exclude_directories" kwargs) globWarning
    ∧ (∀ s, s ∈ excludeSet ↔
         matchedBy h absPkg (patternsOf (lastKwarg "exclude" kwargs)) s)
    ∧ v = VList (VString <$>
          Paths h (foldl (AddPath h) (NewBazelPackageTree (Globber.pkg g))
                     (globSources h absPkg excludeSet includePatterns)))
    ∧ (lastKwarg "allow_empty" kwargs = Some (VBool false) →
       Paths h (foldl (AddPath h) (NewBazelPackageTree (Globber.pkg g))
                  (globSources h absPkg excludeSet includePatterns)) ≠ []).
Proof.
  intros Hrun absPkg. unfold Glob in Hrun.
  destruct (decide (1 < length args)%nat) as [|Hargs]; [done|].
  unfold mbind, M_bind in Hrun.
  destruct (globKwargs kwargs (head args) None true out)
    as [out1 [[[includeArg excludeArg] allowEmpty]|e|msg|status]] eqn:Hkwargs; try done.
  apply globKwargs_ok in Hkwargs
    as (Hnames & Hinc & Hcount & Hexc & Hallow & Hbools & Hints & ->).
  fold absPkg in Hrun.
  assert (∃ excludeSet,
    (lastKwarg "exclude" kwargs = None
       ∨ ∃ excludePatterns,
           lastKwarg "exclude" kwargs = Some (VList excludePatterns)
           ∧ Forall (λ pattern, isVString pattern = true) excludePatterns)
    ∧ (∀ s, s ∈ excludeSet ↔
         matchedBy h absPkg (patternsOf (lastKwarg "exclude" kwargs)) s)
    ∧ match includeArg with
      | Some (VList includePatterns) =>
          match includeLoop h absPkg excludeSet includePatterns
                  (NewBazelPackageTree (Globber.pkg g))
                  (out ++ replicate (countKwarg "exclude_directories" kwargs) globWarning)
          with
          | (out2, Ok tree) =>
              (if negb allowEmpty && bool_decide (length (Paths h tree) = 0%nat)
               then fail "failed glob: 'allow_empty' was set and the result was empty"
               else mret (VList (VString <$> Paths h tree))) out2
          | (out2, Err e) => (out2, Err e)
          | (out2, Panic msg) => (out2, Panic msg)
          | (out2, Exit status) => (out2, Exit status)
          end
      | _ => (@fail Value "failed glob: include is not a list")
               (out ++ replicate (countKwarg "exclude_directories" kwargs) globWarning)
      end = (out', Ok v)) as (excludeSet & Hexclude & Hset & Hrest).
  { rewrite Hexc in Hrun. destruct (lastKwarg "exclude" kwargs) as [excludeArg'|].
    - destruct excludeArg' as [|b|z|text|excludePatterns|l]; try done.
      pose proof (excludeLoop_spec absPkg excludePatterns ∅
                    (out ++ replicate (countKwarg "exclude_directories" kwargs)
                              globWarning)) as [Hout Hres].
      destruct (excludeLoop h absPkg excludePatterns ∅ _)
        as [out2 [excludeSet|e|msg|status]]; try done.
      simpl in Hout, Hres. subst out2. destruct Hres as [Hstrings Hset].
      exists excludeSet. split; [right; by exists excludePatterns|].
      split; [|by destruct includeArg as [[]|]].
      intros s. rewrite Hset. cbn [patternsOf]. split; [|by right].
      intros [Hempty|Hm]; [|done]. by apply not_elem_of_empty in Hempty.
    - exists ∅. split; [by left|]. split; [|by destruct includeArg as [[]|]].
      intros s. cbn [patternsOf]. split; [by intros ?%not_elem_of_empty|].
      by intros ?%matchedBy_nil. }
  destruct includeArg as [[|b|z|text|includePatterns|l]|]; try done.
  pose proof (includeLoop_spec absPkg excludeSet includePatterns
                (NewBazelPackageTree (Globber.pkg g))
                (out ++ replicate (countKwarg "exclude_directories" kwargs) globWarning))
    as [Hout Hres].
  destruct (includeLoop h absPkg excludeSet includePatterns _ _)
    as [out2 [tree|e|msg|status]]; try done.
  simpl in Hout, Hres. subst out2. destruct Hres as [Hstrings ->].
  destruct (negb allowEmpty && bool_decide _) eqn:Hempty; [done|].
  injection Hrest as <- <-.
  exists includePatterns, excludeSet.
  split; [lia|]. split; [done|].
  assert (includeArgOf args kwargs = Some (VList includePatterns)) as Hgiven.
  { unfold includeArgOf. by destruct (head args). }
  split.
  { destruct args as [|arg [|arg' args]]; simpl in *; [|lia|lia].
    symmetry in Hinc. destruct (countKwarg "include" kwargs) as [|[|n]] eqn:Hn; [|lia|lia].
    apply lastKwarg_None in Hn. by rewrite Hn in Hinc. }
  split; [done|]. split; [done|]. split; [done|]. split; [done|]. split; [done|].
  split; [done|]. split; [done|]. split; [done|].
  intros Hfalse Hnil. rewrite Hfalse in Hallow. subst allowEmpty.
  by rewrite Hnil in Hempty.
Qed.

(** A call of [Glob] never does anything but end well or fail with an error
    of [glob]; what it prints are warnings. *)
Lemma Glob_outcome_and_output (g : Globber.t) (args : list Value)
    (kwargs : list (string * Value)) (out : list string) :
  globOutcome (Glob h g args kwargs out).2
  ∧ ∃ n, (n ≤ countKwarg "exclude_directories" kwargs)%nat
      ∧ (Glob h g args kwargs out).1 = out ++ replicate n globWarning.
Proof.
  unfold Glob.
  destruct (decide (1 < length args)%nat) as [|Hargs].
  { split; [done|]. exists 0%nat. split; [lia|]. simpl. by rewrite app_nil_r. }
  unfold mbind, M_bind.
  destruct (globKwargs_outcome kwargs (head args) None true out)
    as [Hres (n & Hn & Hout)].
  destruct (globKwargs kwargs (head args) None true out)
    as [out1 [[[includeArg excludeArg] allowEmpty]|e|msg|status]];
    simpl in Hres, Hout; subst out1; try done; [|split; [done|by exists n]].
  assert (∀ excludeSet,
    let rest :=
      match includeArg with
      | Some (VList includePatterns) =>
          match includeLoop h (GoPath.Join [Globber.repoRoot g; Globber.pkg g])
                  excludeSet includePatterns
                  (NewBazelPackageTree (Globber.pkg g)) (out ++ replicate n globWarning)
          with
          | (out2, Ok tree) =>
              (if negb allowEmpty && bool_decide (length (Paths h tree) = 0%nat)
               then fail "failed glob: 'allow_empty' was set and the result was empty"
               else mret (VList (VString <$> Paths h tree))) out2
          | (out2, Err e) => (out2, Err e)
          | (out2, Panic msg) => (out2, Panic msg)
          | (out2, Exit status) => (out2, Exit status)
          end
      | _ => (@fail Value "failed glob: include is not a list")
               (out ++ replicate n globWarning)
      end in
    globOutcome rest.2
    ∧ ∃ n, (n ≤ countKwarg "exclude_directories" kwargs)%nat
        ∧ rest.1 = out ++ replicate n globWarning) as Hinclude.
  { intros excludeSet.
    destruct includeArg as [[|b|z|text|includePatterns|l]|];
      try (split; [done|by exists n]).
    pose proof (includeLoop_spec (GoPath.Join [Globber.repoRoot g; Globber.pkg g])
                  excludeSet includePatterns
                  (NewBazelPackageTree (Globber.pkg g)) (out ++ replicate n globWarning))
      as [Hout Hres'].
    destruct (includeLoop h _ excludeSet includePatterns _ _)
      as [out2 [tree|e|msg|status]]; simpl in Hout, Hres'; subst out2; try done.
    - destruct (negb allowEmpty && bool_decide _); (split; [done|by exists n]).
    - split; [done|by exists n]. }
  destruct excludeArg as [[|b|z|text|excludePatterns|l]|];
    try (split; [done|by exists n]);
    [|specialize (Hinclude ∅); destruct includeArg as [[]|]; exact Hinclude].
  pose proof (excludeLoop_spec (GoPath.Join [Globber.repoRoot g; Globber.pkg g])
                excludePatterns ∅ (out ++ replicate n globWarning)) as [Hout Hres'].
  destruct (excludeLoop h _ excludePatterns ∅ _)
    as [out2 [excludeSet|e|msg|status]]; simpl in Hout, Hres'; subst out2; try done.
  - specialize (Hinclude excludeSet). destruct includeArg as [[]|]; exact Hinclude.
  - split; [done|by exists n].
Qed.

End GlobMore.

(** [Glob] has two outcomes only: a list of strings, or an error whose
    message begins with [failed glob: ]; it never panics or ends the program.
    All it prints are warnings about [exclude_directories], at most one for
    each time the keyword is given. *)
Theorem Glob_outcomes (h : Host.t) (g : Globber.t) (args : list Value)
    (kwargs : list (string * Value)) (out : list string) :
  match (Glob h g args kwargs out).2 with
  | Ok v => ∃ result, v = VList (VString <$> result)
  | Err e => GoStrings.HasPrefix e "failed glob: " = true
  | Panic _ | Exit _ => False
  end
  ∧ ∃ n, (n ≤ countKwarg "exclude_directories" kwargs)%nat
      ∧ (Glob h g args kwargs out).1 = out ++ replicate n globWarning.
Proof.
  destruct (Glob_outcome_and_output h g args kwargs out) as [Hres Hout].
  split; [|done].
  destruct (Glob h g args kwargs out) as [out' [v|e|msg|status]] eqn:Hrun; try done.
  apply Glob_ok in Hrun as (includePatterns & excludeSet & Hrun).
  destruct Hrun as (_ & _ & _ & _ & _ & _ & _ & _ & _ & _ & -> & _).
  by eexists.
Qed.

(** The calls [Glob] accepts: at most one positional argument; only the four
    keywords; the include patterns given exactly once, by position or by
    keyword, as a list of strings; the exclude patterns, if given, as a list
    of strings; [allow_empty] a boolean and [exclude_directories] 0 or 1
    wherever they occur.  Such a call prints one warning for each
    [exclude_directories]. *)
Theorem Glob_accepted_call (h : Host.t) (g : Globber.t) (args : list Value)
    (kwargs : list (string * Value)) (out out' : list string) (v : Value) :
  Glob h g args kwargs out = (out', Ok v) →
  (length args ≤ 1)%nat
  ∧ Forall (λ kwarg, kwarg.1 ∈ globKeywords) kwargs
  ∧ (length args + countKwarg "include" kwargs = 1)%nat
  ∧ (∃ includePatterns,
       includeArgOf args kwargs = Some (VList includePatterns)
       ∧ Forall (λ pattern, isVString pattern = true) includePatterns)
  ∧ (lastKwarg "exclude" kwargs = None
     ∨ ∃ excludePatterns,
         lastKwarg "exclude" kwargs = Some (VList excludePatterns)
         ∧ Forall (λ pattern, isVString pattern = true) excludePatterns)
  ∧ (∀ arg, ("allow_empty", arg) ∈ kwargs → ∃ given, arg = VBool given)
  ∧ (∀ arg, ("exclude_directories", arg) ∈ kwargs → arg = VInt 0 ∨ arg = VInt 1)
  ∧ out' = out ++ replicate (countKwarg "exclude_directories" kwargs) globWarning.
Proof.
  intros (includePatterns & excludeSet & Hrun)%Glob_ok.
  destruct Hrun as (H1 & H2 & H3 & H4 & H5 & H6 & H7 & H8 & H9 & _).
  split; [done|]. split; [done|]. split; [done|].
  split; [by exists includePatterns|]. done.
Qed.

Lemma Glob_accepted_call_witness :
  Glob (exHost false) exGlobber []
    [("exclude_directories", VInt 1); ("include", VList [VString "*.py"])] []
    = ([globWarning], Ok (VList [VString "a.py"; VString "b.py"]))
  ∧ [globWarning]
      = [] ++ replicate
                (countKwarg "exclude_directories"
                   [("exclude_directories", VInt 1); ("include", VList [VString "*.py"])])
                globWarning.
Proof.
  assert (H : Glob (exHost false) exGlobber []
                [("exclude_directories", VInt 1); ("include", VList [VString "*.py"])] []
              = ([globWarning], Ok (VList [VString "a.py"; VString "b.py"])))
    by (vm_compute; reflexivity).
  split; [exact H|].
  exact (proj2 (proj2 (proj2 (proj2 (proj2 (proj2 (proj2
           (Glob_accepted_call (exHost false) exGlobber [] _ [] _ _ H)))))))).
Defined.

(** With [allow_empty] set to false, [Glob] never returns an empty list. *)
Theorem Glob_allow_empty_false (h : Host.t) (g : Globber.t) (args : list Value)
    (kwargs : list (string * Value)) (out out' : list string) (result : list Value) :
  lastKwarg "allow_empty" kwargs = Some (VBool false) →
  Glob h g args kwargs out = (out', Ok (VList result)) →
  result ≠ [].
Proof.
  intros Hfalse (includePatterns & excludeSet & Hrun)%Glob_ok.
  destruct Hrun as (_ & _ & _ & _ & _ & _ & _ & _ & _ & _ & Hv & Hnonempty).
  injection Hv as ->. intros Hnil%fmap_nil_inv. by apply Hnonempty.
Qed.

Lemma Glob_allow_empty_false_witness :
  (lastKwarg "allow_empty" [("allow_empty", VBool true); ("allow_empty", VBool false)]
     = Some (VBool false)
   ∧ Glob (exHost false) exGlobber [VList [VString "a*"]]
       [("allow_empty", VBool true); ("allow_empty", VBool false)] []
     = ([], Ok (VList [VString "a.py"])))
  ∧ [VString "a.py"] ≠ [].
Proof.
  assert (H1 : lastKwarg "allow_empty"
                 [("allow_empty", VBool true); ("allow_empty", VBool false)]
               = Some (VBool false)) by reflexivity.
  assert (H2 : Glob (exHost false) exGlobber [VList [VString "a*"]]
                 [("allow_empty", VBool true); ("allow_empty", VBool false)] []
               = ([], Ok (VList [VString "a.py"]))) by (vm_compute; reflexivity).
  split; [exact (conj H1 H2)|].
  exact (Glob_allow_empty_false (exHost false) exGlobber [VList [VString "a*"]]
           [("allow_empty", VBool true); ("allow_empty", VBool false)] [] []
           [VString "a.py"] H1 H2).
Defined.

Lemma globSources_plain (h : Host.t) (g : Globber.t) (args : list Value)
    (kwargs : list (string * Value)) (includePatterns : list Value)
    (excludeSet : gset string) :
  includeArgOf args kwargs = Some (VList includePatterns) →
  (∀ s, s ∈ excludeSet ↔ globExcluded h g kwargs s) →
  (∀ s, globIncluded h g args kwargs s → ¬ globExcluded h g kwargs s → wfPath s) →
  Forall (Forall (λ part, isPlain part = true))
    (globSources h (absPkgOf g) excludeSet includePatterns).
Proof.
  intros Hinc Hset Hwf. apply Forall_forall. intros parts Hparts.
  apply elem_of_globSources in Hparts as (s & -> & Hs & Hm).
  apply Hwf.
  - unfold globIncluded. by rewrite Hinc.
  - by rewrite <- Hset.
Qed.

(** What [Glob] returns is sound: every element of the list is the path,
    relative to the package, of a match of an include pattern that no exclude
    pattern matches, and no path is returned twice. *)
Theorem Glob_result_sound (h : Host.t) (g : Globber.t) (args : list Value)
    (kwargs : list (string * Value)) (out out' : list string) (result : list Value) :
  Host.fair h →
  (∀ s, globIncluded h g args kwargs s → ¬ globExcluded h g kwargs s → wfPath s) →
  Glob h g args kwargs out = (out', Ok (VList result)) →
  NoDup result
  ∧ ∀ v, v ∈ result →
      ∃ s, v = VString s ∧ globIncluded h g args kwargs s ∧ ¬ globExcluded h g kwargs s.
Proof.
  intros Hfair Hwf (includePatterns & excludeSet & Hrun)%Glob_ok.
  destruct Hrun as (_ & _ & _ & Hinc & _ & _ & _ & _ & _ & Hset & Hv & _).
  injection Hv as ->.
  pose proof (globSources_plain h g args kwargs includePatterns excludeSet
                Hinc Hset Hwf) as Hplain.
  destruct (Paths_listed h (Globber.pkg g) _ Hfair Hplain) as [Hnodup Hpaths].
  split.
  { apply NoDup_fmap_2; [|done]. by intros s1 s2 [=]. }
  intros v (s & -> & Hs)%list_elem_of_fmap. exists s. split; [done|].
  apply Hpaths in Hs as (parts & -> & _ & Hfirst & _).
  apply firstThrough_Some in Hfirst as [Hin _].
  apply elem_of_globSources in Hin as (s & -> & Hs & Hm).
  rewrite Join_Split. split.
  - unfold globIncluded. by rewrite Hinc.
  - unfold globExcluded, absPkgOf. by rewrite <- Hset.
Qed.

(** And complete, up to sub-packages, when the relative paths of the matches
    are well-formed: the relative path of a match of an include pattern that
    no exclude pattern matches is returned, if no directory on its way holds a
    build file and it is not itself on the way of another such path. *)
Theorem Glob_result_complete (h : Host.t) (g : Globber.t) (args : list Value)
    (kwargs : list (string * Value)) (out out' : list string) (result : list Value)
    (s : string) :
  Host.fair h →
  (∀ s, globIncluded h g args kwargs s → ¬ globExcluded h g kwargs s → wfPath s) →
  Glob h g args kwargs out = (out', Ok (VList result)) →
  globIncluded h g args kwargs s → ¬ globExcluded h g kwargs s →
  (∀ s', globIncluded h g args kwargs s' → ¬ globExcluded h g kwargs s' →
     GoStrings.Split s "/" `prefix_of` GoStrings.Split s' "/" → s' = s) →
  (∀ k, (0 < k < length (GoStrings.Split s "/"))%nat →
     Host.isBazelPackage h
       (GoPath.Join [Globber.pkg g; GoPath.Join (take k (GoStrings.Split s "/"))])
     = false) →
  VString s ∈ result.
Proof.
  intros Hfair Hwf (includePatterns & excludeSet & Hrun)%Glob_ok Hin Hnex Hleaf Hdirs.
  destruct Hrun as (_ & _ & _ & Hinc & _ & _ & _ & _ & _ & Hset & Hv & _).
  injection Hv as ->.
  pose proof (globSources_plain h g args kwargs includePatterns excludeSet
                Hinc Hset Hwf) as Hplain.
  destruct (Paths_listed h (Globber.pkg g) _ Hfair Hplain) as [_ Hpaths].
  apply list_elem_of_fmap_2, Hpaths. exists (GoStrings.Split s "/").
  split; [by rewrite Join_Split|].
  assert (GoStrings.Split s "/"
            ∈ globSources h (absPkgOf g) excludeSet includePatterns) as Hsrc.
  { apply elem_of_globSources. exists s. split; [done|]. split; [by rewrite Hset|].
    unfold globIncluded in Hin. by rewrite Hinc in Hin. }
  split; [apply Split_nonempty|]. split; [|by right; apply Hdirs].
  destruct (firstThrough_is_Some _ (GoStrings.Split s "/") _ Hsrc) as [q Hq]; [done|].
  rewrite Hq. f_equal.
  apply firstThrough_Some in Hq as [Hqin Hpre].
  apply elem_of_globSources in Hqin as (s' & -> & Hs' & Hm').
  rewrite (Hleaf s'); [done| | |done].
  - unfold globIncluded. by rewrite Hinc.
  - unfold globExcluded, absPkgOf. by rewrite <- Hset.
Qed.

(** The example call: every [.py] file of the package but those beginning
    with [a]. *)
Lemma exGlob_included (s : string) :
  globIncluded (exHost false) exGlobber [VList [VString "*.py"]]
    [("exclude", VList [VString "a*"])] s ↔ s = "a.py" ∨ s = "b.py".
Proof.
  split.
  - intros (pattern & matches & m & Hin & Hglob & Hm & ->).
    change (VString pattern ∈ [VString "*.py"]) in Hin.
    apply list_elem_of_singleton in Hin. injection Hin as ->.
    vm_compute in Hglob. injection Hglob as <-.
    apply elem_of_cons in Hm as [->|Hm]; [by left|].
    apply list_elem_of_singleton in Hm as ->. by right.
  - intros [->| ->].
    + exists "*.py", ["/repo/pkg/a.py"; "/repo/pkg/b.py"], "/repo/pkg/a.py".
      split; [apply list_elem_of_here|]. split; [reflexivity|].
      split; [apply list_elem_of_here|reflexivity].
    + exists "*.py", ["/repo/pkg/a.py"; "/repo/pkg/b.py"], "/repo/pkg/b.py".
      split; [apply list_elem_of_here|]. split; [reflexivity|].
      split; [apply list_elem_of_further, list_elem_of_here|reflexivity].
Qed.

Lemma exGlob_excluded (s : string) :
  globExcluded (exHost false) exGlobber [("exclude", VList [VString "a*"])] s
  ↔ s = "a.py".
Proof.
  split.
  - intros (pattern & matches & m & Hin & Hglob & Hm & ->).
    change (VString pattern ∈ [VString "a*"]) in Hin.
    apply list_elem_of_singleton in Hin. injection Hin as ->.
    vm_compute in Hglob. injection Hglob as <-.
    by apply list_elem_of_singleton in Hm as ->.
  - intros ->. exists "a*", ["/repo/pkg/a.py"], "/repo/pkg/a.py".
    split; [apply list_elem_of_here|]. split; [reflexivity|].
    split; [apply list_elem_of_here|reflexivity].
Qed.

Lemma exGlob_wf (s : string) :
  globIncluded (exHost false) exGlobber [VList [VString "*.py"]]
    [("exclude", VList [VString "a*"])] s →
  ¬ globExcluded (exHost false) exGlobber [("exclude", VList [VString "a*"])] s →
  wfPath s.
Proof.
  intros [->| ->]%exGlob_included _; vm_compute; repeat constructor.
Qed.

Lemma Glob_result_sound_witness :
  (Host.fair (exHost false)
   ∧ (∀ s, globIncluded (exHost false) exGlobber [VList [VString "*.py"]]
             [("exclude", VList [VString "a*"])] s →
           ¬ globExcluded (exHost false) exGlobber [("exclude", VList [VString "a*"])] s →
           wfPath s)
   ∧ Glob (exHost false) exGlobber [VList [VString "*.py"]]
       [("exclude", VList [VString "a*"])] []
     = ([], Ok (VList [VString "b.py"])))
  ∧ NoDup [VString "b.py"]
  ∧ ∀ v, v ∈ [VString "b.py"] →
      ∃ s, v = VString s
           ∧ globIncluded (exHost false) exGlobber [VList [VString "*.py"]]
               [("exclude", VList [VString "a*"])] s
           ∧ ¬ globExcluded (exHost false) exGlobber
                 [("exclude", VList [VString "a*"])] s.
Proof.
  assert (H1 : Host.fair (exHost false)) by apply exHost_fair.
  assert (H3 : Glob (exHost false) exGlobber [VList [VString "*.py"]]
                 [("exclude", VList [VString "a*"])] []
               = ([], Ok (VList [VString "b.py"]))) by (vm_compute; reflexivity).
  split; [exact (conj H1 (conj exGlob_wf H3))|].
  exact (Glob_result_sound (exHost false) exGlobber [VList [VString "*.py"]]
           [("exclude", VList [VString "a*"])] [] [] [VString "b.py"]
           H1 exGlob_wf H3).
Defined.

Lemma Glob_result_complete_witness :
  (Host.fair (exHost false)
   ∧ Glob (exHost false) exGlobber [VList [VString "*.py"]]
       [("exclude", VList [VString "a*"])] []
     = ([], Ok (VList [VString "b.py"]))
   ∧ globIncluded (exHost false) exGlobber [VList [VString "*.py"]]
       [("exclude", VList [VString "a*"])] "b.py"
   ∧ ¬ globExcluded (exHost false) exGlobber [("exclude", VList [VString "a*"])] "b.py")
  ∧ VString "b.py" ∈ [VString "b.py"].
Proof.
  assert (H1 : Host.fair (exHost false)) by apply exHost_fair.
  assert (H3 : Glob (exHost false) exGlobber [VList [VString "*.py"]]
                 [("exclude", VList [VString "a*"])] []
               = ([], Ok (VList [VString "b.py"]))) by (vm_compute; reflexivity).
  assert (H4 : globIncluded (exHost false) exGlobber [VList [VString "*.py"]]
                 [("exclude", VList [VString "a*"])] "b.py")
    by (apply exGlob_included; by right).
  assert (H5 : ¬ globExcluded (exHost false) exGlobber
                   [("exclude", VList [VString "a*"])] "b.py")
    by (by intros ?%exGlob_excluded).
  assert (H6 : ∀ s', globIncluded (exHost false) exGlobber [VList [VString "*.py"]]
                       [("exclude", VList [VString "a*"])] s' →
                     ¬ globExcluded (exHost false) exGlobber
                         [("exclude", VList [VString "a*"])] s' →
                     GoStrings.Split "b.py" "/" `prefix_of` GoStrings.Split s' "/" →
                     s' = "b.py").
  { intros s' [->| ->]%exGlob_included Hnex _; [|reflexivity].
    exfalso. apply Hnex. by apply exGlob_excluded. }
  assert (H7 : ∀ k, (0 < k < length (GoStrings.Split "b.py" "/"))%nat →
                 Host.isBazelPackage (exHost false)
                   (GoPath.Join [Globber.pkg exGlobber;
                                 GoPath.Join (take k (GoStrings.Split "b.py" "/"))])
                 = false).
  { intros k Hk. change (0 < k < 1)%nat in Hk. lia. }
  split; [exact (conj H1 (conj H3 (conj H4 H5)))|].
  exact (Glob_result_complete (exHost false) exGlobber [VList [VString "*.py"]]
           [("exclude", VList [VString "a*"])] [] [] [VString "b.py"] "b.py"
           H1 exGlob_wf H3 H4 H5 H6 H7).
Defined.
